(** * UK PAYE tax-code parsing and tax / National Insurance computation

    A shallow embedding of the calculation core of the tax calculator:
    [taxCodeParser.ts] (parseTaxCode, parseBaseAllowance), the validator
    [validateTaxCode], the precision helpers (preciseAdd, ...), the NI
    threshold handler, and the orchestrator [calculateTaxDetails] with
    calculatePersonalAllowance, calculateIncomeTax and calculateNI, plus the
    [calculation] memo of the verification calculator.  A second part adds
    [validateAndProcessTaxCode], the student-loan, pension and Scottish-tax
    functions, the form schema [taxCodeSchema], the tax-code input handler
    [handleTaxCodeChange], [calculateAllowance] of the previous-employment
    calculator and the weekly breakdown.

    Conventions of the model.
    - A JavaScript [number] is [NaN], an infinity, or a finite value given by
      the rational it denotes.  Binary rounding of double arithmetic, the
      28-digit working precision of decimal.js and the sign of zero are not
      modelled: finite arithmetic is exact and zero has one sign.  In
      particular the monthly thresholds 12570/12 and 50270/12 and the factor
      52/12 are the exact quotients, and [parseInt] returns the exact integer.
      The exact values are those of the program on amounts of at most 15
      significant decimal digits and on digit runs of at most 15 digits;
      beyond that a double rounds (and [parseInt] reaches [Infinity] from
      about 309 digits), so the statements on exact sums and on the parsed
      allowance are made inside those bounds.
    - Every arithmetic result is stored reduced ([Qred]), so two results that
      denote the same rational are equal terms.
    - Strings are ASCII strings; [toUpperCase] and [trim] act on ASCII letters
      and ASCII white space.
    - A thrown [Error] is [None], and so are the [TypeError] of a property
      read on [undefined] and the [ReferenceError] of an identifier that a
      module does not bind; the tax-year data that the orchestrator awaits
      is a parameter. *)

From Stdlib Require Import ZArith QArith Qround Qabs Qreduction Lqa Lia.
From Stdlib Require Import Bool List String Ascii.
Import ListNotations.

Local Open Scope Q_scope.

(** ** JavaScript numbers *)

Module JS.

Inductive number : Type :=
| NaN
| PInf
| NInf
| Fin (q : Q).

Definition isNaN (a : number) : bool :=
  match a with NaN => true | _ => false end.

(** [fin q] stores a finite result in reduced form. *)
Definition fin (q : Q) : number := Fin (Qred q).

Definition ofZ (z : Z) : number := Fin (inject_Z z).

Definition Qlt_bool (a b : Q) : bool := negb (Qle_bool b a).

(** sign of a finite value: -1, 0 or 1 *)
Definition Qsgn (q : Q) : Z := Z.sgn (Qnum q).

(** Unary minus. *)
Definition neg (a : number) : number :=
  match a with
  | NaN => NaN
  | PInf => NInf
  | NInf => PInf
  | Fin q => fin (- q)
  end.

(** [a + b] *)
Definition add (a b : number) : number :=
  match a, b with
  | NaN, _ | _, NaN => NaN
  | PInf, NInf | NInf, PInf => NaN
  | PInf, _ | _, PInf => PInf
  | NInf, _ | _, NInf => NInf
  | Fin x, Fin y => fin (x + y)
  end.

(** [a - b] *)
Definition sub (a b : number) : number := add a (neg b).

Definition inf_of_sign (s : Z) : number :=
  match s with
  | Z0 => NaN
  | Zpos _ => PInf
  | Zneg _ => NInf
  end.

Definition sgn (a : number) : Z :=
  match a with
  | NaN => 0
  | PInf => 1
  | NInf => -1
  | Fin q => Qsgn q
  end.

(** [a * b]: an infinity times zero is NaN. *)
Definition mul (a b : number) : number :=
  match a, b with
  | NaN, _ | _, NaN => NaN
  | Fin x, Fin y => fin (x * y)
  | _, _ => inf_of_sign (sgn a * sgn b)
  end.

(** [a / b]: finite over infinite is zero, non-zero over zero is infinite,
    zero over zero and infinite over infinite are NaN. *)
Definition div (a b : number) : number :=
  match a, b with
  | NaN, _ | _, NaN => NaN
  | Fin x, Fin y =>
      if Qeq_bool y 0 then inf_of_sign (Qsgn x) else fin (x / y)
  | Fin _, _ => Fin 0
  | _, Fin y => inf_of_sign (sgn a * (if Qeq_bool y 0 then 1 else Qsgn y))
  | _, _ => NaN
  end.

(** [a > b], [a < b], [a <= b], [a >= b], [a === b]: false when either side
    is NaN. *)
Definition lt (a b : number) : bool :=
  match a, b with
  | NaN, _ | _, NaN => false
  | _, NInf => false
  | PInf, _ => false
  | NInf, _ => true
  | _, PInf => true
  | Fin x, Fin y => Qlt_bool x y
  end.

Definition gt (a b : number) : bool := lt b a.

Definition eqb (a b : number) : bool :=
  match a, b with
  | PInf, PInf | NInf, NInf => true
  | Fin x, Fin y => Qeq_bool x y
  | _, _ => false
  end.

Definition le (a b : number) : bool := lt a b || eqb a b.
Definition ge (a b : number) : bool := le b a.

(** [Math.min], [Math.max]: NaN when an argument is NaN. *)
Definition min (a b : number) : number :=
  match a, b with
  | NaN, _ | _, NaN => NaN
  | _, _ => if lt b a then b else a
  end.

Definition max (a b : number) : number :=
  match a, b with
  | NaN, _ | _, NaN => NaN
  | _, _ => if lt a b then b else a
  end.

(** [Math.floor], [Math.abs] *)
Definition floor (a : number) : number :=
  match a with
  | Fin q => ofZ (Qfloor q)
  | _ => a
  end.

Definition abs (a : number) : number :=
  match a with
  | NaN => NaN
  | PInf | NInf => PInf
  | Fin q => fin (Qabs q)
  end.

(** Falsy numbers are zero and NaN; [a || 0]. *)
Definition falsy (a : number) : bool :=
  match a with
  | NaN => true
  | Fin q => Qeq_bool q 0
  | _ => false
  end.

Definition orZero (a : number) : number := if falsy a then Fin 0 else a.

(** The order of the extended reals on numbers; NaN is related to nothing. *)
Definition num_le (a b : number) : Prop :=
  match a, b with
  | NaN, _ | _, NaN => False
  | NInf, _ => True
  | _, PInf => True
  | Fin x, Fin y => x <= y
  | _, _ => False
  end.

End JS.

Import JS.

(** ** precisionCalculations.ts *)

(** decimal.js rounding mode ROUND_HALF_UP: to the nearest integer, ties away
    from zero. *)
Definition round_half_up (q : Q) : Z :=
  if Qle_bool 0 q then Qfloor (q + (1 # 2)) else (- Qfloor (- q + (1 # 2)))%Z.

(** [.toDecimalPlaces(precision)] at the default precision 2, on a finite
    value. *)
Definition toDecimalPlaces2 (q : Q) : Q :=
  Qred (round_half_up (q * 100) # 100).

(** [.toDecimalPlaces(2).toNumber()].  The result is the exact two-place
    decimal; [toNumber] gives the nearest double, which denotes it to within
    the 15 to 17 significant digits of a double. *)
Definition decimal2 (a : number) : number :=
  match a with
  | Fin q => Fin (toDecimalPlaces2 q)
  | _ => a
  end.

Definition preciseAdd (a b : number) : number :=
  if isNaN a || isNaN b then Fin 0
  else decimal2 (JS.add (orZero a) (orZero b)).

Definition preciseSubtract (a b : number) : number :=
  if isNaN a || isNaN b then Fin 0
  else decimal2 (JS.sub (orZero a) (orZero b)).

Definition preciseMultiply (a b : number) : number :=
  if isNaN a || isNaN b then Fin 0
  else decimal2 (JS.mul (orZero a) (orZero b)).

Definition preciseDivide (a b : number) : number :=
  if JS.eqb b (Fin 0) then Fin 0
  else if isNaN a || isNaN b then Fin 0
  else decimal2 (JS.div (orZero a) (orZero b)).

Definition preciseRound (value : number) : number :=
  if isNaN value then Fin 0 else decimal2 (orZero value).

(** ** JavaScript strings (ASCII) *)

Local Open Scope string_scope.

Module Str.

Definition code (c : ascii) : nat := nat_of_ascii c.

Definition isDigit (c : ascii) : bool :=
  (48 <=? code c)%nat && (code c <=? 57)%nat.

Definition isLower (c : ascii) : bool :=
  (97 <=? code c)%nat && (code c <=? 122)%nat.

(** White space removed by [trim]: tab, line feed, vertical tab, form feed,
    carriage return and space. *)
Definition isWhite (c : ascii) : bool :=
  ((9 <=? code c)%nat && (code c <=? 13)%nat) || (code c =? 32)%nat.

Definition upper (c : ascii) : ascii :=
  if isLower c then ascii_of_nat (code c - 32) else c.

Fixpoint toUpperCase (s : string) : string :=
  match s with
  | EmptyString => EmptyString
  | String c r => String (upper c) (toUpperCase r)
  end.

Fixpoint trimStart (s : string) : string :=
  match s with
  | EmptyString => EmptyString
  | String c r => if isWhite c then trimStart r else s
  end.

Fixpoint trimEnd (s : string) : string :=
  match s with
  | EmptyString => EmptyString
  | String c r =>
      match trimEnd r with
      | EmptyString => if isWhite c then EmptyString else String c EmptyString
      | r' => String c r'
      end
  end.

Definition trim (s : string) : string := trimEnd (trimStart s).

Definition startsWith (p s : string) : bool := String.prefix p s.

Fixpoint includes (p s : string) : bool :=
  String.prefix p s
  || match s with
     | EmptyString => false
     | String _ r => includes p r
     end.

Fixpoint endsWith (p s : string) : bool :=
  String.eqb s p
  || match s with
     | EmptyString => false
     | String _ r => endsWith p r
     end.

(** [s.substring(n)] *)
Fixpoint substringFrom (n : nat) (s : string) : string :=
  match n, s with
  | O, _ => s
  | S n', String _ r => substringFrom n' r
  | S _, EmptyString => EmptyString
  end.

(** Membership of a character in a character class written as a string. *)
Fixpoint inClass (cls : string) (c : ascii) : bool :=
  match cls with
  | EmptyString => false
  | String d r => Ascii.eqb c d || inClass r c
  end.

Fixpoint forallChars (p : ascii -> bool) (s : string) : bool :=
  match s with
  | EmptyString => true
  | String c r => p c && forallChars p r
  end.

(** The longest prefix of digits. *)
Fixpoint takeDigits (s : string) : string :=
  match s with
  | EmptyString => EmptyString
  | String c r => if isDigit c then String c (takeDigits r) else EmptyString
  end.

(** [s.match(/\d+/)]: the leftmost longest run of digits, [None] for a
    failed match. *)
Fixpoint matchDigits (s : string) : option string :=
  match s with
  | EmptyString => None
  | String c r => if isDigit c then Some (takeDigits s) else matchDigits r
  end.

Definition digitVal (c : ascii) : Z := (Z.of_nat (code c) - 48)%Z.

Fixpoint parseDigits (acc : Z) (s : string) : Z :=
  match s with
  | EmptyString => acc
  | String c r => parseDigits (acc * 10 + digitVal c)%Z r
  end.

(** [parseInt(s, 10)] on a string of digits, as an exact integer: the value
    of the program for runs of at most 15 digits (a longer run is rounded to
    a double). *)
Definition parseInt (s : string) : Z := parseDigits 0 s.

Fixpoint inList (s : string) (l : list string) : bool :=
  match l with
  | [] => false
  | x :: r => String.eqb s x || inList s r
  end.

End Str.

Import Str.

(** ** taxCodeParser.ts *)

Record TaxCodeInfo : Type := {
  baseAllowance : number;
  isScottish : bool;
  isWelsh : bool;
  isNegativeAllowance : bool;
  hasMarriageAllowance : bool;
  marriageAllowanceAmount : number;
  specialCodeType : option string;
  taxRate : option number;
  isNonCumulative : bool
}.

Definition parseBaseAllowance (code : string) : number :=
  if inList code ["BR"; "D0"; "D1"; "NT"] then Fin 0
  else
    let '(prefix, cleanCode) :=
      if startsWith "SK" code then ("SK", substringFrom 2 code)
      else if startsWith "S" code then ("S", substringFrom 1 code)
      else if startsWith "C" code then ("C", substringFrom 1 code)
      else if startsWith "K" code then ("K", substringFrom 1 code)
      else ("", code) in
    match matchDigits cleanCode with
    | None => Fin 12570
    | Some digits =>
        let numericValue := (parseInt digits * 10)%Z in
        if inList prefix ["K"; "SK"] then ofZ (- numericValue)
        else if includes "T" code && negb (inList code ["NT"; "0T"])
             then ofZ numericValue
        else ofZ numericValue
    end.

Definition defaultTaxCodeInfo : TaxCodeInfo := {|
  baseAllowance := Fin 12570;
  isScottish := false;
  isWelsh := false;
  isNegativeAllowance := false;
  hasMarriageAllowance := false;
  marriageAllowanceAmount := Fin 0;
  specialCodeType := None;
  taxRate := None;
  isNonCumulative := false
|}.

(** The part of [parseTaxCode] after the empty-input case, on the normalised
    code. *)
Definition parseNormalizedCode (normalizedCode : string) : TaxCodeInfo :=
  let isScottish := startsWith "S" normalizedCode in
  let isWelsh := startsWith "C" normalizedCode in
  let isNegativeAllowance := includes "K" normalizedCode in
  let '(specialCodeType, taxRate, baseAllowance) :=
    if String.eqb normalizedCode "BR" then (Some "BR", Some (Fin 20), Fin 0)
    else if String.eqb normalizedCode "D0" then
      (Some "D0", Some (Fin 40), Fin 0)
    else if String.eqb normalizedCode "D1" then
      (Some "D1", Some (Fin 45), Fin 0)
    else if includes "NT" normalizedCode then
      (Some "NT", Some (Fin 0), PInf)
    else if startsWith "0T" normalizedCode then (Some "0T", None, Fin 0)
    else (None, None, parseBaseAllowance normalizedCode) in
  let hasMarriageAllowance :=
    negb isNegativeAllowance
    && (endsWith "M" normalizedCode || endsWith "N" normalizedCode) in
  let marriageAllowanceAmount :=
    if hasMarriageAllowance then
      (if endsWith "M" normalizedCode then Fin 1260 else Fin (-1260))
    else Fin 0 in
  let isNonCumulative :=
    endsWith "W1" normalizedCode || endsWith "M1" normalizedCode
    || includes "X" normalizedCode in
  {| baseAllowance := baseAllowance;
     isScottish := isScottish;
     isWelsh := isWelsh;
     isNegativeAllowance := isNegativeAllowance;
     hasMarriageAllowance := hasMarriageAllowance;
     marriageAllowanceAmount := marriageAllowanceAmount;
     specialCodeType := specialCodeType;
     taxRate := taxRate;
     isNonCumulative := isNonCumulative |}.

Definition parseTaxCode (taxCode : string) : TaxCodeInfo :=
  if String.eqb taxCode "" || String.eqb (trim taxCode) "" then
    defaultTaxCodeInfo
  else parseNormalizedCode (trim (toUpperCase taxCode)).

(** ** taxCodeValidator.ts: validateTaxCode *)

Record ValidationResult : Type := {
  isValid : bool;
  message : option string
}.

Definition lengthBetween (lo hi : nat) (s : string) : bool :=
  (lo <=? String.length s)%nat && (String.length s <=? hi)%nat.

(** [/^\d{1,4}$/] *)
Definition matchDigits14 (s : string) : bool :=
  lengthBetween 1 4 s && forallChars isDigit s.

(** [/^(BR|D0|D1|NT|0T)$/] *)
Definition matchSpecial (s : string) : bool :=
  inList s ["BR"; "D0"; "D1"; "NT"; "0T"].

(** [/^K\d{1,4}$/], [/^SK\d{1,4}$/], [/^CK\d{1,4}$/] for the prefix given *)
Definition matchKCode (prefix s : string) : bool :=
  startsWith prefix s && matchDigits14 (substringFrom (String.length prefix) s).

(** [/^\d{1,4}[TLMNWY](?:1|W1|M1)?$/]: the digits are followed by a letter,
    so the greedy run of digits is the only split that can match. *)
Definition matchStandard (s : string) : bool :=
  let digits := takeDigits s in
  lengthBetween 1 4 digits
  && match substringFrom (String.length digits) s with
     | EmptyString => false
     | String c suffix =>
         inClass "TLMNWY" c && inList suffix [""; "1"; "W1"; "M1"]
     end.

(** [/^S\d{1,4}[TLMNWY](?:1|W1|M1)?$/] and the same with [C] *)
Definition matchRegional (prefix s : string) : bool :=
  startsWith prefix s && matchStandard (substringFrom (String.length prefix) s).

Definition validateTaxCode (taxCode : string) : ValidationResult :=
  if String.eqb taxCode "" || String.eqb (trim taxCode) "" then
    {| isValid := true; message := None |}
  else
    let normalizedCode := toUpperCase taxCode in
    if matchSpecial normalizedCode then {| isValid := true; message := None |}
    else if matchKCode "K" normalizedCode then
      {| isValid := true; message := None |}
    else if matchKCode "SK" normalizedCode then
      {| isValid := true; message := None |}
    else if matchKCode "CK" normalizedCode then
      {| isValid := true; message := None |}
    else if matchStandard normalizedCode then
      {| isValid := true; message := None |}
    else if matchRegional "S" normalizedCode then
      {| isValid := true; message := None |}
    else if matchRegional "C" normalizedCode then
      {| isValid := true; message := None |}
    else {| isValid := false; message := Some "Invalid tax code format" |}.

(** ** niThresholdHandler.ts *)

Record ThresholdGroup : Type := {
  WEEKLY : number;
  MONTHLY : number;
  ANNUAL : number
}.

Record NIThresholds : Type := {
  PRIMARY_THRESHOLD : ThresholdGroup;
  UPPER_EARNINGS_LIMIT : ThresholdGroup
}.

(** [Partial<...>]: a field may be undefined. *)
Record PartialGroup : Type := {
  pWEEKLY : option number;
  pMONTHLY : option number;
  pANNUAL : option number
}.

Record PartialThresholds : Type := {
  pPRIMARY_THRESHOLD : option PartialGroup;
  pUPPER_EARNINGS_LIMIT : option PartialGroup
}.

Definition DEFAULT_THRESHOLDS : NIThresholds := {|
  PRIMARY_THRESHOLD :=
    {| WEEKLY := Fin 242; MONTHLY := Fin 1048; ANNUAL := Fin 12576 |};
  UPPER_EARNINGS_LIMIT :=
    {| WEEKLY := Fin 967; MONTHLY := Fin 4189; ANNUAL := Fin 50268 |}
|}.

(** [None] stands for the thrown [Error]. *)
Definition validateThresholdValue (value : option number) : option number :=
  match value with
  | None => None
  | Some v => if isNaN v || JS.lt v (Fin 0) then None else Some v
  end.

Definition validateThresholdGroup
    (group : option PartialGroup) (defaultGroup : ThresholdGroup)
  : option ThresholdGroup :=
  match group with
  | None => Some defaultGroup
  | Some g =>
      match validateThresholdValue (pWEEKLY g),
            validateThresholdValue (pMONTHLY g),
            validateThresholdValue (pANNUAL g) with
      | Some w, Some m, Some a =>
          Some {| WEEKLY := w; MONTHLY := m; ANNUAL := a |}
      | _, _, _ => None
      end
  end.

(** The [thresholds] field of the result of [validateNIThresholds]; the
    relationship checks only collect warnings, and a throw inside the [try]
    falls back to the defaults. *)
Definition validateNIThresholds (thresholds : option PartialThresholds)
  : NIThresholds :=
  match thresholds with
  | None => DEFAULT_THRESHOLDS
  | Some t =>
      match validateThresholdGroup (pPRIMARY_THRESHOLD t)
              (PRIMARY_THRESHOLD DEFAULT_THRESHOLDS),
            validateThresholdGroup (pUPPER_EARNINGS_LIMIT t)
              (UPPER_EARNINGS_LIMIT DEFAULT_THRESHOLDS) with
      | Some p, Some u =>
          {| PRIMARY_THRESHOLD := p; UPPER_EARNINGS_LIMIT := u |}
      | _, _ => DEFAULT_THRESHOLDS
      end
  end.

(** ** The calculation module: tables, thresholds and rates *)

(** The [to] of a band is a number or the string ['unlimited']. *)
Inductive BandTo : Type :=
| ToNumber (n : number)
| ToString (s : string).

Record Band : Type := {
  name : string;
  rate : number;
  from : number;
  to : BandTo
}.

Definition UK_TAX_BANDS : list Band := [
  {| name := "Personal Allowance"; rate := Fin 0;
     from := Fin 0; to := ToNumber (Fin 12570) |};
  {| name := "Basic Rate"; rate := Fin 20;
     from := Fin 12571; to := ToNumber (Fin 50270) |};
  {| name := "Higher Rate"; rate := Fin 40;
     from := Fin 50271; to := ToNumber (Fin 125140) |};
  {| name := "Additional Rate"; rate := Fin 45;
     from := Fin 125141; to := ToString "unlimited" |}
].

Definition RAW_PRIMARY_THRESHOLD : number := Fin 12570.
Definition RAW_UPPER_EARNINGS_LIMIT : number := Fin 50270.

Definition rawGroup (annual : number) : PartialGroup := {|
  pWEEKLY := Some (JS.div annual (Fin 52));
  pMONTHLY := Some (JS.div annual (Fin 12));
  pANNUAL := Some annual
|}.

Definition NI_THRESHOLDS : NIThresholds :=
  validateNIThresholds (Some {|
    pPRIMARY_THRESHOLD := Some (rawGroup RAW_PRIMARY_THRESHOLD);
    pUPPER_EARNINGS_LIMIT := Some (rawGroup RAW_UPPER_EARNINGS_LIMIT)
  |}).

Definition MAIN_RATE : number := Fin (12 # 100).
Definition HIGHER_RATE : number := Fin (2 # 100).

(** The tax-year data returned by the external lookup [getTaxYearData]. *)
Record TaxRegion : Type := {
  regionName : string;
  bands : list Band
}.

Record Regions : Type := {
  UK : TaxRegion;
  Scotland : TaxRegion;
  Wales : TaxRegion
}.

Record TaxConfig : Type := {
  paTaperThreshold : number;
  paTaperRate : number
}.

Record TaxYearData : Type := {
  regions : Regions;
  config : TaxConfig
}.

(** ** calculatePersonalAllowance, calculateIncomeTax, calculateNI *)

Definition calculatePersonalAllowance
    (salary : number) (taxCodeInfo : TaxCodeInfo) (taxYearData : TaxYearData)
  : number :=
  let allowance := baseAllowance taxCodeInfo in
  if JS.gt salary (paTaperThreshold (config taxYearData)) then
    let reduction :=
      JS.min allowance
        (JS.floor (JS.mul (JS.sub salary (paTaperThreshold (config taxYearData)))
                          (paTaperRate (config taxYearData)))) in
    preciseSubtract allowance reduction
  else allowance.

(** The [for ... of] loop of [calculateIncomeTax] with its [break]. *)
Fixpoint incomeTaxLoop (bs : list Band) (remainingAmount totalTax : number)
  : number :=
  match bs with
  | [] => totalTax
  | band :: rest =>
      let bandAmount :=
        JS.min (JS.max (Fin 0) remainingAmount)
          (match to band with
           | ToString _ => remainingAmount
           | ToNumber t => JS.sub t (from band)
           end) in
      let bandTax :=
        preciseMultiply bandAmount
          (preciseMultiply (rate band) (Fin (1 # 100))) in
      let totalTax' := preciseAdd totalTax bandTax in
      let remainingAmount' := preciseSubtract remainingAmount bandAmount in
      if JS.le remainingAmount' (Fin 0) then totalTax'
      else incomeTaxLoop rest remainingAmount' totalTax'
  end.

Definition calculateIncomeTax
    (taxableAmount : number) (taxRegion : TaxRegion) (taxYearData : TaxYearData)
  : number :=
  preciseRound (incomeTaxLoop (bands taxRegion) taxableAmount (Fin 0)).

(** The source's second parameter [taxYearData] is not used by the body (and
    is not passed by [calculateNIBands]); the thresholds and rates are the
    module constants. *)
Definition calculateNI (monthlySalary : number) : number :=
  if falsy monthlySalary || isNaN monthlySalary
     || JS.le monthlySalary (Fin 0) then Fin 0
  else
    let pt := MONTHLY (PRIMARY_THRESHOLD NI_THRESHOLDS) in
    let uel := MONTHLY (UPPER_EARNINGS_LIMIT NI_THRESHOLDS) in
    let niContribution := Fin 0 in
    let niContribution :=
      if JS.gt monthlySalary pt then
        let mainRateEarnings :=
          JS.min (preciseSubtract monthlySalary pt) (preciseSubtract uel pt) in
        preciseAdd niContribution (preciseMultiply mainRateEarnings MAIN_RATE)
      else niContribution in
    let niContribution :=
      if JS.gt monthlySalary uel then
        let higherRateEarnings := preciseSubtract monthlySalary uel in
        preciseAdd niContribution
          (preciseMultiply higherRateEarnings HIGHER_RATE)
      else niContribution in
    preciseRound niContribution.

(** ** Band breakdowns for display *)

(** A bound of a displayed band: a number, a string, or (in the NI
    breakdown) a whole threshold group object. *)
Inductive Bound : Type :=
| BNumber (n : number)
| BString (s : string)
| BGroup (g : ThresholdGroup).

(** A displayed band.  [bandRate] keeps the numeric rate whose rendering
    [`${rate}%`] is the source's [rate] string. *)
Record TaxBand : Type := {
  band : string;
  bandRate : number;
  bandFrom : Bound;
  bandTo : Bound;
  amount : number;
  tax : number
}.

Definition boundOfTo (t : BandTo) : Bound :=
  match t with
  | ToNumber n => BNumber n
  | ToString s => BString s
  end.

Fixpoint calculateTaxBandsLoop (bs : list Band) (remainingAmount : number)
  : list TaxBand :=
  match bs with
  | [] => []
  | b :: rest =>
      let bandWidth :=
        match to b with
        | ToString _ => PInf
        | ToNumber t => JS.sub t (from b)
        end in
      let amountInBand := JS.min (JS.max (Fin 0) remainingAmount) bandWidth in
      let taxInBand :=
        preciseMultiply amountInBand
          (preciseMultiply (rate b) (Fin (1 # 100))) in
      let entry := {| band := name b; bandRate := rate b;
                      bandFrom := BNumber (from b); bandTo := boundOfTo (to b);
                      amount := amountInBand; tax := taxInBand |} in
      let remainingAmount' := preciseSubtract remainingAmount amountInBand in
      if JS.le remainingAmount' (Fin 0) then [entry]
      else entry :: calculateTaxBandsLoop rest remainingAmount'
  end.

Definition calculateTaxBands
    (salary personalAllowance : number) (taxRegion : TaxRegion)
  : list TaxBand :=
  calculateTaxBandsLoop (bands taxRegion) salary.

(** [calculateNIBands] uses the threshold group objects where numbers are
    expected; an object converts to NaN in arithmetic and comparisons. *)
Definition groupToNumber (g : ThresholdGroup) : number := NaN.

Definition calculateNIBands (salary : number) : list TaxBand :=
  let monthlyAmount := preciseDivide salary (Fin 12) in
  let pt := PRIMARY_THRESHOLD NI_THRESHOLDS in
  let uel := UPPER_EARNINGS_LIMIT NI_THRESHOLDS in
  [ {| band := "Below Primary Threshold"; bandRate := Fin 0;
       bandFrom := BNumber (Fin 0); bandTo := BGroup pt;
       amount := JS.min salary (groupToNumber pt);
       tax := Fin 0 |};
    {| band := "Main Rate"; bandRate := JS.mul MAIN_RATE (Fin 100);
       bandFrom := BGroup pt; bandTo := BGroup uel;
       amount :=
         JS.max (Fin 0)
           (JS.min (JS.sub salary (groupToNumber pt))
                   (JS.sub (groupToNumber uel) (groupToNumber pt)));
       tax := JS.mul (calculateNI monthlyAmount) (Fin 12) |};
    {| band := "Higher Rate"; bandRate := JS.mul HIGHER_RATE (Fin 100);
       bandFrom := BGroup uel; bandTo := BString "unlimited";
       amount := JS.max (Fin 0) (JS.sub salary (groupToNumber uel));
       tax := if JS.gt salary (groupToNumber uel)
              then preciseMultiply (JS.sub salary (groupToNumber uel))
                     HIGHER_RATE
              else Fin 0 |} ].

(** ** calculateTaxDetails *)

Definition validateInput (salary : number) (taxCode : string)
  : ValidationResult :=
  if falsy salary || isNaN salary || JS.lt salary (Fin 0) then
    {| isValid := false; message := Some "Invalid salary amount" |}
  else if JS.gt salary (Fin 10000000) then
    {| isValid := false;
       message := Some "Salary exceeds maximum allowed value" |}
  else
    let taxCodeValidation := validateTaxCode taxCode in
    if negb (isValid taxCodeValidation) then taxCodeValidation
    else {| isValid := true; message := None |}.

Record MonthlyDetail : Type := {
  month : Z;
  monthNumber : Z;
  gross : number;
  taxFree : number;
  taxable : number;
  incomeTax : number;
  nationalInsurance : number;
  netPay : number
}.

Record AnnualSummary : Type := {
  annualGross : number;
  totalIncomeTax : number;
  totalNI : number;
  netAnnual : number
}.

Record TaxCalculationResult : Type := {
  annualSummary : AnnualSummary;
  monthlyBreakdown : list MonthlyDetail;
  incomeTaxBands : list TaxBand;
  niBands : list TaxBand
}.

Inductive PeriodType : Type := month_period | week_period.

(** [currentPeriod]; its [number] is an integer period number. *)
Record CurrentPeriod : Type := {
  periodType : PeriodType;
  periodNumber : Z
}.

Definition clampSalary (annualSalary : number) : number :=
  if isNaN annualSalary || JS.lt annualSalary (Fin 0) then Fin 0
  else annualSalary.

(** [taxCode || '1257L'] *)
Definition defaultTaxCode (taxCode : string) : string :=
  if String.eqb taxCode "" then "1257L" else taxCode.

Definition selectRegion (taxCodeInfo : TaxCodeInfo) (taxYearData : TaxYearData)
  : TaxRegion :=
  if isScottish taxCodeInfo then Scotland (regions taxYearData)
  else if isWelsh taxCodeInfo then Wales (regions taxYearData)
  else UK (regions taxYearData).

(** The block "Handle K codes": the 50% limit on the addition. *)
Definition applyKCodeLimit
    (salary : number) (taxCodeInfo : TaxCodeInfo) (personalAllowance : number)
  : number :=
  if isNegativeAllowance taxCodeInfo then
    let kCodeAdjustment := JS.abs personalAllowance in
    let maxTaxableAddition := JS.mul salary (Fin (1 # 2)) in
    if JS.gt kCodeAdjustment maxTaxableAddition then JS.neg maxTaxableAddition
    else personalAllowance
  else personalAllowance.

(** The callback of [Array.from({ length: 12 }, ...)] at [index]. *)
Definition monthDetail
    (isCumulative : bool) (taxRegion : TaxRegion) (taxYearData : TaxYearData)
    (monthlyGross monthlyAllowance : number) (index : nat) : MonthlyDetail :=
  let monthNumber := (Z.of_nat index + 1)%Z in
  let ytdGross :=
    if isCumulative then preciseMultiply monthlyGross (ofZ monthNumber)
    else monthlyGross in
  let ytdAllowance :=
    if isCumulative then preciseMultiply monthlyAllowance (ofZ monthNumber)
    else monthlyAllowance in
  let taxable := JS.max (Fin 0) (preciseSubtract ytdGross ytdAllowance) in
  let incomeTax := calculateIncomeTax taxable taxRegion taxYearData in
  let ni := calculateNI monthlyGross in
  let currentMonthTax :=
    if isCumulative then preciseDivide incomeTax (ofZ monthNumber)
    else incomeTax in
  {| month := monthNumber;
     monthNumber := monthNumber;
     gross := monthlyGross;
     taxFree := JS.max (Fin 0) monthlyAllowance;
     taxable :=
       preciseDivide taxable (if isCumulative then ofZ monthNumber else Fin 1);
     incomeTax := currentMonthTax;
     nationalInsurance := ni;
     netPay := preciseSubtract monthlyGross (preciseAdd currentMonthTax ni) |}.

Definition periodIndex (currentPeriod : CurrentPeriod) : Z :=
  match periodType currentPeriod with
  | month_period => (periodNumber currentPeriod - 1)%Z
  | week_period =>
      (Qfloor (inject_Z (periodNumber currentPeriod) / ((52 # 1) / (12 # 1)))
       - 1)%Z
  end.

(** The assignment made to each of the remaining months. *)
Definition freezeTo (current m : MonthlyDetail) : MonthlyDetail :=
  {| month := month m;
     monthNumber := monthNumber m;
     gross := gross m;
     taxFree := taxFree m;
     taxable := taxable m;
     incomeTax := incomeTax current;
     nationalInsurance := nationalInsurance current;
     netPay := netPay current |}.

(** "Handle current period adjustments": the month objects are shared by
    [monthlyBreakdown] and its slices, so the assignments show in
    [monthlyBreakdown]. *)
Definition applyCurrentPeriod
    (currentPeriod : option CurrentPeriod) (monthlyBreakdown : list MonthlyDetail)
  : list MonthlyDetail :=
  match currentPeriod with
  | None => monthlyBreakdown
  | Some cp =>
      let idx := periodIndex cp in
      if (0 <=? idx)%Z && (idx <? Z.of_nat (List.length monthlyBreakdown))%Z
      then
        let ytdBreakdown := firstn (Z.to_nat idx + 1) monthlyBreakdown in
        let remainingMonths := skipn (Z.to_nat idx + 1) monthlyBreakdown in
        match nth_error ytdBreakdown (Z.to_nat idx) with
        | Some current => ytdBreakdown ++ map (freezeTo current) remainingMonths
        | None => monthlyBreakdown
        end
      else monthlyBreakdown
  end.

(** [calculateTaxDetails], given the tax-year data that the lookup for
    [taxYear] returned.  The memoisation wrapper returns results of this
    function. *)
Definition calculateTaxDetails
    (annualSalary : number) (taxCode : string) (isCumulative : bool)
    (taxYearData : TaxYearData) (currentPeriod : option CurrentPeriod)
  : TaxCalculationResult :=
  let salary := clampSalary annualSalary in
  let tCode := defaultTaxCode taxCode in
  let validation := validateInput salary tCode in
  let taxCodeInfo := parseTaxCode tCode in
  let taxRegion := selectRegion taxCodeInfo taxYearData in
  let personalAllowance :=
    applyKCodeLimit salary taxCodeInfo
      (calculatePersonalAllowance salary taxCodeInfo taxYearData) in
  let monthlyGross := preciseDivide salary (Fin 12) in
  let monthlyAllowance := preciseDivide personalAllowance (Fin 12) in
  let monthlyBreakdown :=
    map (monthDetail isCumulative taxRegion taxYearData
           monthlyGross monthlyAllowance) (seq 0 12) in
  let annualTax :=
    fold_left (fun sum m => preciseAdd sum (incomeTax m))
      monthlyBreakdown (Fin 0) in
  let annualNI :=
    fold_left (fun sum m => preciseAdd sum (nationalInsurance m))
      monthlyBreakdown (Fin 0) in
  let monthlyBreakdown := applyCurrentPeriod currentPeriod monthlyBreakdown in
  {| annualSummary :=
       {| annualGross := salary;
          totalIncomeTax := annualTax;
          totalNI := annualNI;
          netAnnual := preciseSubtract salary (preciseAdd annualTax annualNI) |};
     monthlyBreakdown := monthlyBreakdown;
     incomeTaxBands := calculateTaxBands salary personalAllowance taxRegion;
     niBands := calculateNIBands salary |}.

(** ** TaxVerificationCalculator.tsx: the [calculation] memo *)

Record Verification : Type := {
  taxFreeAmount : number;
  taxableAmount : number;
  expectedTax : number;
  isKCode : bool;
  taxBands : list (TaxBand * number * number)
}.

Definition totalPeriodsOf (periodType : PeriodType) : number :=
  match periodType with month_period => Fin 12 | week_period => Fin 52 end.

(** [periodFactor] and [periodTax] of the memo. *)
Definition periodFactorOf
    (periodType : PeriodType) (periodNumber : number) (isCumulative : bool)
  : number :=
  if isCumulative then JS.div periodNumber (totalPeriodsOf periodType)
  else JS.div (Fin 1) (totalPeriodsOf periodType).

Definition periodTaxOf
    (taxDetails : TaxCalculationResult) (periodType : PeriodType)
    (periodNumber : number) (isCumulative : bool) : number :=
  JS.mul (totalIncomeTax (annualSummary taxDetails))
         (periodFactorOf periodType periodNumber isCumulative).

(** The body of the memo on a result record [taxDetails], as it would run
    were the call of [calculateTaxDetails] awaited; [calculation] below is
    the memo as written. *)
Definition verificationCalculation
    (taxDetails : TaxCalculationResult) (earnedAmount : number)
    (periodType : PeriodType) (periodNumber : number) (isCumulative : bool)
    (taxCode : string) : Verification :=
  let activeTaxBands :=
    filter (fun b => JS.gt (amount b) (Fin 0)) (incomeTaxBands taxDetails) in
  let periodFactor := periodFactorOf periodType periodNumber isCumulative in
  let periodTax :=
    periodTaxOf taxDetails periodType periodNumber isCumulative in
  let taxFreeAmount :=
    match find (fun b => JS.eqb (bandRate b) (Fin 0))
               (incomeTaxBands taxDetails) with
    | Some personalAllowanceBand =>
        JS.mul (amount personalAllowanceBand) periodFactor
    | None => Fin 0
    end in
  let isKCode := includes "K" (toUpperCase taxCode) in
  let totalAmount := earnedAmount in
  let taxableAmount :=
    if isKCode then totalAmount
    else JS.max (Fin 0) (JS.sub totalAmount taxFreeAmount) in
  let finalTax :=
    if isKCode && JS.gt periodTax (JS.mul totalAmount (Fin (1 # 2)))
    then JS.mul totalAmount (Fin (1 # 2))
    else periodTax in
  {| taxFreeAmount := taxFreeAmount;
     taxableAmount := taxableAmount;
     expectedTax := finalTax;
     isKCode := isKCode;
     taxBands :=
       map (fun b => (b, JS.mul (amount b) periodFactor,
                         JS.mul (tax b) periodFactor)) activeTaxBands |}.

(** The value that the call [calculateTaxDetails(...)] has in the memo.  The
    function is [memoize(async ...)] and the memo does not await it, so the
    value is a Promise and not a result record.  A Promise has no property
    [incomeTaxBands]: reading it gives [undefined] ([None]). *)
Inductive MemoValue : Type :=
| PromiseObject
| ResultRecord (r : TaxCalculationResult).

Definition incomeTaxBandsOf (v : MemoValue) : option (list TaxBand) :=
  match v with
  | PromiseObject => None
  | ResultRecord r => Some (incomeTaxBands r)
  end.

Definition annualizedAmountOf
    (earnedAmount : number) (periodType : PeriodType) (periodNumber : number)
    (isCumulative : bool) : number :=
  if isCumulative then
    JS.mul (JS.div earnedAmount periodNumber) (totalPeriodsOf periodType)
  else JS.mul earnedAmount (totalPeriodsOf periodType).

(** The call expression of the memo: the asynchronous function called without
    [await], with the period object in the place of [taxYear]. *)
Definition calculateTaxDetailsCall
    (annualSalary : number) (taxCode : string) (isCumulative : bool)
    (periodType : PeriodType) (periodNumber : number) : MemoValue :=
  PromiseObject.

(** The [calculation] memo.  [None] stands for the TypeError of
    [taxDetails.incomeTaxBands.filter] on an undefined [incomeTaxBands]. *)
Definition calculation
    (earnedAmount : number) (periodType : PeriodType) (periodNumber : number)
    (isCumulative : bool) (taxCode : string) : option Verification :=
  let annualizedAmount :=
    annualizedAmountOf earnedAmount periodType periodNumber isCumulative in
  let taxDetails :=
    calculateTaxDetailsCall annualizedAmount taxCode isCumulative
      periodType periodNumber in
  match incomeTaxBandsOf taxDetails, taxDetails with
  | Some _, ResultRecord r =>
      Some (verificationCalculation r earnedAmount periodType periodNumber
              isCumulative taxCode)
  | _, _ => None
  end.

(** * Further parts of the code *)

(** ** taxCodeValidator.ts: validateAndProcessTaxCode *)

Definition isSpecialCode (code : string) : bool :=
  inList code ["BR"; "D0"; "D1"; "NT"; "0T"].

(** [/^\d{1,3}$/] *)
Definition matchDigits13 (s : string) : bool :=
  lengthBetween 1 3 s && forallChars isDigit s.

Module Processing.

(** An entry of [UK_TAX_REGIONS] (module [taxConfig]): its code and bands. *)
Record Region : Type := {
  code : string;
  bands : list Band
}.

Inductive RegionName : Type := UK | Scotland | Wales.

Record TaxCodeProcessingResult : Type := {
  valid : bool;
  region : RegionName;
  allowance : number;
  taxBands : option (list Band);
  message : option string;
  isKCode : bool
}.

End Processing.

Section WithTaxConfig.

(** The table [UK_TAX_REGIONS] of the module [taxConfig] and the rendering
    [Number.prototype.toLocaleString] of the platform are parameters. *)
Variable UK_TAX_REGIONS : list Processing.Region.
Variable toLocaleString : number -> string.

Definition findBands (c : string) : option (list Band) :=
  option_map Processing.bands
    (find (fun r => String.eqb (Processing.code r) c) UK_TAX_REGIONS).

Definition regionKey (r : Processing.RegionName) : string :=
  match r with
  | Processing.Scotland => "S"
  | Processing.Wales => "C"
  | Processing.UK => "UK"
  end.

(** [{ ...defaultResult, valid: false, message, isKCode, region }] *)
Definition invalidResult
    (region : Processing.RegionName) (isKCode : bool) (message : string)
  : Processing.TaxCodeProcessingResult :=
  {| Processing.valid := false;
     Processing.region := region;
     Processing.allowance := Fin 0;
     Processing.taxBands := findBands "UK";
     Processing.message := Some message;
     Processing.isKCode := isKCode |}.

(** Step 1: the region, the K flag and the code after the prefix. *)
Definition splitPrefix (normalizedCode : string)
  : Processing.RegionName * bool * string :=
  if startsWith "SK" normalizedCode then
    (Processing.Scotland, true, substringFrom 2 normalizedCode)
  else if startsWith "CK" normalizedCode then
    (Processing.Wales, true, substringFrom 2 normalizedCode)
  else if startsWith "S" normalizedCode then
    (Processing.Scotland, false, substringFrom 1 normalizedCode)
  else if startsWith "C" normalizedCode then
    (Processing.Wales, false, substringFrom 1 normalizedCode)
  else if startsWith "K" normalizedCode then
    (Processing.UK, true, substringFrom 1 normalizedCode)
  else (Processing.UK, false, normalizedCode).

(** Step 3: the allowance. *)
Definition processedAllowance
    (normalizedCode : string) (isKCode : bool) (codeToProcess : string)
  : number :=
  if isSpecialCode normalizedCode then
    (if String.eqb normalizedCode "BR" then Fin 0
     else if String.eqb normalizedCode "D0" then Fin 0
     else if String.eqb normalizedCode "D1" then Fin 0
     else if String.eqb normalizedCode "NT" then PInf
     else if String.eqb normalizedCode "0T" then Fin 0
     else Fin 0)
  else if isKCode then ofZ (- (parseInt codeToProcess * 10))
  else
    match matchDigits normalizedCode with
    | Some digits => ofZ (parseInt digits * 10)
    | None => Fin 12570
    end.

(** Step 4: the bands of the region; [None] stands for the [TypeError] of
    [UK_TAX_REGIONS[0].bands] on an empty table. *)
Definition regionBands (region : Processing.RegionName)
  : option (list Band) :=
  match findBands (regionKey region) with
  | Some b => Some b
  | None =>
      match UK_TAX_REGIONS with
      | r0 :: _ => Some (Processing.bands r0)
      | [] => None
      end
  end.

Definition validateAndProcessTaxCode (taxCode : string)
  : option Processing.TaxCodeProcessingResult :=
  if String.eqb taxCode "" || String.eqb (trim taxCode) "" then
    Some (invalidResult Processing.UK false "Tax code cannot be empty")
  else
    let normalizedCode := trim (toUpperCase taxCode) in
    let '(region, isKCode, codeToProcess) := splitPrefix normalizedCode in
    if isKCode && negb (matchDigits13 codeToProcess) then
      Some (invalidResult region true
              ("Invalid K code format: " ++ taxCode
               ++ ". K codes should have 1-3 digits."))
    else if negb isKCode && negb (isSpecialCode normalizedCode)
            && negb (isValid (validateTaxCode normalizedCode)) then
      Some (invalidResult region false
              (match message (validateTaxCode normalizedCode) with
               | Some m =>
                   if String.eqb m "" then
                     "Invalid tax code format: " ++ taxCode
                   else m
               | None => "Invalid tax code format: " ++ taxCode
               end))
    else
      let allowance :=
        processedAllowance normalizedCode isKCode codeToProcess in
      match regionBands region with
      | None => None
      | Some b =>
          Some {| Processing.valid := true;
                  Processing.region := region;
                  Processing.allowance := allowance;
                  Processing.taxBands := Some b;
                  Processing.message :=
                    Some (if isKCode then
                            "K code: " ++ toLocaleString (JS.abs allowance)
                            ++ " will be added to taxable income."
                          else
                            "Personal allowance: " ++ toLocaleString allowance);
                  Processing.isKCode := isKCode |}
      end.

End WithTaxConfig.

(** ** The calculation module: Scottish tax, student loan and pension *)

(** [calculateScottishTax]: the loop over the Scottish bands with its
    [break]. *)
Fixpoint scottishTaxLoop (bs : list Band) (remainingIncome totalTax : number)
  : number :=
  match bs with
  | [] => totalTax
  | band :: rest =>
      let bandWidth :=
        match to band with
        | ToString _ => PInf
        | ToNumber t => JS.sub t (from band)
        end in
      let taxableInBand :=
        JS.min (JS.max (Fin 0) remainingIncome) bandWidth in
      let totalTax' :=
        preciseAdd totalTax
          (preciseMultiply taxableInBand
             (preciseMultiply (rate band) (Fin (1 # 100)))) in
      let remainingIncome' := preciseSubtract remainingIncome taxableInBand in
      if JS.le remainingIncome' (Fin 0) then totalTax'
      else scottishTaxLoop rest remainingIncome' totalTax'
  end.

(** The module of [calculateScottishTax] neither imports nor declares
    [UK_TAX_REGIONS] (the validator's module does import it from
    [taxConfig]): the identifier is unbound there, and evaluating it raises a
    ReferenceError.  [None] stands for the unbound identifier and, in
    [calculateScottishTax], for the raised error. *)
Definition UK_TAX_REGIONS_of_calculation_module
  : option (list Processing.Region) := None.

Definition calculateScottishTax (annualSalary : number) (taxCode : string)
  : option number :=
  let taxCodeInfo := parseTaxCode taxCode in
  if negb (isScottish taxCodeInfo) then Some (Fin 0)
  else
    match UK_TAX_REGIONS_of_calculation_module with
    | None => None
    | Some regions =>
        match findBands regions "S" with
        | None => Some (Fin 0)
        | Some scottishBands =>
            Some (preciseRound
                    (scottishTaxLoop scottishBands annualSalary (Fin 0)))
        end
    end.


(** The value of [thresholds[plan]]: a number for the four plans, an
    inherited member of [Object.prototype] (a function or an object) for the
    names in [objectPrototypeKeys], [undefined] otherwise. *)
Inductive PlanLookup : Type :=
| PlanThreshold (n : number)
| PlanInherited
| PlanUndefined.

Definition objectPrototypeKeys : list string :=
  ["constructor"; "__defineGetter__"; "__defineSetter__"; "hasOwnProperty";
   "__lookupGetter__"; "__lookupSetter__"; "isPrototypeOf";
   "propertyIsEnumerable"; "toString"; "valueOf"; "__proto__";
   "toLocaleString"].

Definition lookupThreshold (plan : string) : PlanLookup :=
  if String.eqb plan "plan-1" then PlanThreshold (Fin 22015)
  else if String.eqb plan "plan-2" then PlanThreshold (Fin 27295)
  else if String.eqb plan "plan-4" then PlanThreshold (Fin 27660)
  else if String.eqb plan "postgrad" then PlanThreshold (Fin 21000)
  else if inList plan objectPrototypeKeys then PlanInherited
  else PlanUndefined.

(** An inherited member is truthy and converts to NaN: the comparison with
    it is false and [preciseSubtract] returns 0 for it. *)
Definition calculateStudentLoanRepayment (annualSalary : number) (plan : string)
  : number :=
  let rate := Fin (9 # 100) in
  let postGradRate := Fin (6 # 100) in
  let repaymentRate :=
    if String.eqb plan "postgrad" then postGradRate else rate in
  match lookupThreshold plan with
  | PlanUndefined => Fin 0
  | PlanInherited => preciseMultiply (Fin 0) repaymentRate
  | PlanThreshold threshold =>
      if falsy threshold || JS.le annualSalary threshold then Fin 0
      else preciseMultiply (preciseSubtract annualSalary threshold)
             repaymentRate
  end.

Inductive PensionType : Type := relief_at_source | net_pay.

Definition calculatePensionContribution
    (salary percentage : number) (type : PensionType) : number :=
  if JS.le percentage (Fin 0) || JS.gt percentage (Fin 100) then Fin 0
  else
    let contribution :=
      preciseMultiply salary (preciseDivide percentage (Fin 100)) in
    match type with
    | relief_at_source => preciseMultiply contribution (Fin (8 # 10))
    | net_pay => contribution
    end.

(** ** validationSchemas.ts: taxCodeSchema and salarySchema *)

(** [/^(S?K?\d{1,4}[TLMNWY](?:1|W1|M1)?|BR|D0|D1|NT|0T)$/i] on an ASCII
    string: the flag [i] compares letters by their upper case; the optional
    S and K are taken when present, since a digit has to follow. *)
Definition matchSchemaCode (s : string) : bool :=
  let u := toUpperCase s in
  let afterS := if startsWith "S" u then substringFrom 1 u else u in
  let afterK :=
    if startsWith "K" afterS then substringFrom 1 afterS else afterS in
  matchStandard afterK || matchSpecial u.

(** The issues that [taxCodeSchema] reports for a string, in the order of
    its checks; the string is accepted when there is none. *)
Definition taxCodeSchemaIssues (s : string) : list string :=
  (if (String.length s <? 1)%nat then ["Tax code is required"] else [])
  ++ (if (7 <? String.length s)%nat
      then ["Tax code cannot be longer than 7 characters"] else [])
  ++ (if matchSchemaCode s then [] else ["Invalid tax code format"]).

Definition taxCodeSchemaAccepts (s : string) : bool :=
  match taxCodeSchemaIssues s with [] => true | _ => false end.

(** ** TaxCodeInput: the value that [handleTaxCodeChange] passes on *)

Fixpoint filterChars (p : ascii -> bool) (s : string) : string :=
  match s with
  | EmptyString => EmptyString
  | String c r => if p c then String c (filterChars p r) else filterChars p r
  end.

(** [s.substring(0, n)] and [s.slice(0, n)] for a count [n] *)
Fixpoint takeChars (n : nat) (s : string) : string :=
  match n, s with
  | O, _ => EmptyString
  | S n', String c r => String c (takeChars n' r)
  | S _, EmptyString => EmptyString
  end.

(** The argument of [onChange] in [handleTaxCodeChange], given the input
    after [DOMPurify.sanitize]. *)
Definition handleTaxCodeChange (sanitizedInput : string) : string :=
  if String.eqb sanitizedInput "" || String.eqb (trim sanitizedInput) "" then
    ""
  else
    let cleanedInput := toUpperCase (trim sanitizedInput) in
    if inList cleanedInput ["BR"; "D0"; "D1"; "NT"; "0T"] then cleanedInput
    else
      let regular :=
        takeChars 7 (filterChars (inClass "0123456789SCKLTMNWYD1") cleanedInput)
      in
      if startsWith "K" cleanedInput || startsWith "SK" cleanedInput
         || startsWith "CK" cleanedInput then
        let kPrefix :=
          if startsWith "CK" cleanedInput then "CK"
          else if startsWith "SK" cleanedInput then "SK"
          else "K" in
        let numbers :=
          filterChars isDigit
            (substringFrom (String.length kPrefix) cleanedInput) in
        if (0 <? String.length numbers)%nat then
          kPrefix ++ takeChars 3 numbers
        else regular
      else regular.

(** ** PreviousEmploymentCalculator: calculateAllowance *)

Definition calculateAllowance
    (taxCode : string) (periodType : PeriodType) (periodNumber : number)
  : number :=
  let taxCodeInfo := parseTaxCode taxCode in
  match specialCodeType taxCodeInfo with
  | Some _ => Fin 0
  | None =>
      let baseAllowance := baseAllowance taxCodeInfo in
      let isKCode := isNegativeAllowance taxCodeInfo in
      let totalPeriods := totalPeriodsOf periodType in
      let periodAllowance := preciseDivide baseAllowance totalPeriods in
      let allowanceUsed := preciseMultiply periodAllowance periodNumber in
      if isKCode then JS.neg allowanceUsed else allowanceUsed
  end.

(** ** WeeklyBreakdown: the [weeklyBreakdown] memo *)

Record WeeklyDetail : Type := {
  weekNumber : Z;
  monthName : Z;
  weekGross : number;
  weekTaxFree : number;
  weekTaxable : number;
  weekIncomeTax : number;
  weekNationalInsurance : number;
  weekNetPay : number
}.

Definition weeksPerMonth : number := JS.div (Fin 52) (Fin 12).

Definition monthIndexOfWeek (weekIndex : nat) : Z :=
  Qfloor (inject_Z (Z.of_nat weekIndex) / ((52 # 1) / (12 # 1))).

(** The callback of [Array.from({ length: 52 }, ...)]; [None] stands for the
    [TypeError] of reading a property of an undefined [monthData]. *)
Definition weekDetail (monthlyBreakdown : list MonthlyDetail) (weekIndex : nat)
  : option WeeklyDetail :=
  match nth_error monthlyBreakdown (Z.to_nat (monthIndexOfWeek weekIndex)) with
  | None => None
  | Some monthData =>
      Some {| weekNumber := (Z.of_nat weekIndex + 1)%Z;
              monthName := month monthData;
              weekGross := JS.div (gross monthData) weeksPerMonth;
              weekTaxFree := JS.div (taxFree monthData) weeksPerMonth;
              weekTaxable := JS.div (taxable monthData) weeksPerMonth;
              weekIncomeTax := JS.div (incomeTax monthData) weeksPerMonth;
              weekNationalInsurance :=
                JS.div (nationalInsurance monthData) weeksPerMonth;
              weekNetPay := JS.div (netPay monthData) weeksPerMonth |}
  end.

Fixpoint sequenceOptions {A : Type} (l : list (option A)) : option (list A) :=
  match l with
  | [] => Some []
  | None :: _ => None
  | Some a :: r =>
      match sequenceOptions r with
      | Some r' => Some (a :: r')
      | None => None
      end
  end.

Definition weeklyBreakdown (monthlyBreakdown : list MonthlyDetail)
  : option (list WeeklyDetail) :=
  sequenceOptions (map (weekDetail monthlyBreakdown) (seq 0 52)).


(** * Specification-side definitions *)

(** [calculateNI] on a positive finite monthly pay, as a function on
    rationals: [Math.min] on finite values, the main-rate part, the part
    above the upper earnings limit, and the final rounding. *)
Definition qmin (a b : Q) : Q := if JS.Qlt_bool b a then b else a.

Definition niMainQ (x : Q) : Q :=
  if JS.Qlt_bool (2095 # 2) x then
    toDecimalPlaces2
      (0 + toDecimalPlaces2
             (qmin (toDecimalPlaces2 (x - (2095 # 2)))
                   (toDecimalPlaces2 ((25135 # 6) - (2095 # 2)))
              * (12 # 100)))
  else 0.

Definition niUpperQ (x : Q) : Q :=
  if JS.Qlt_bool (25135 # 6) x then
    toDecimalPlaces2
      (niMainQ x
       + toDecimalPlaces2 (toDecimalPlaces2 (x - (25135 # 6)) * (2 # 100)))
  else niMainQ x.

Definition niQ (x : Q) : Q := toDecimalPlaces2 (niUpperQ x).

(** What the override leaves at position [i] for a current month at
    position [idx] whose detail is [current]. *)
Definition frozenAt (idx : nat) (current : MonthlyDetail) (i : nat)
    (m : MonthlyDetail) : MonthlyDetail :=
  if (i <=? idx)%nat then m else freezeTo current m.

(** A tax-year fixture for the examples: the static UK table for every
    region, and the taper configuration of the 2023/24 year (threshold
    100000, rate 0.5). *)
Definition exampleTaxYearData : TaxYearData := {|
  regions :=
    {| UK := {| regionName := "UK"; bands := UK_TAX_BANDS |};
       Scotland := {| regionName := "Scotland"; bands := UK_TAX_BANDS |};
       Wales := {| regionName := "Wales"; bands := UK_TAX_BANDS |} |};
  config := {| paTaperThreshold := Fin 100000; paTaperRate := Fin (1 # 2) |}
|}.

(** Band tables.  [adjacentPairs] lists the pairs (band n, band n+1). *)
Fixpoint adjacentPairs (bs : list Band) : list (Band * Band) :=
  match bs with
  | b1 :: ((b2 :: _) as rest) => (b1, b2) :: adjacentPairs rest
  | _ => []
  end.

(** An amount lies in a band read as the half-open interval [from, to). *)
Definition inBandHalfOpen (x : number) (b : Band) : bool :=
  JS.le (from b) x
  && match to b with
     | ToNumber t => JS.lt x t
     | ToString _ => true
     end.

(** An amount lies in a band read as the closed range [from .. to]. *)
Definition inBandClosed (x : number) (b : Band) : bool :=
  JS.le (from b) x
  && match to b with
     | ToNumber t => JS.le x t
     | ToString _ => true
     end.

Definition ascendingFrom (bs : list Band) : Prop :=
  forall b1 b2, In (b1, b2) (adjacentPairs bs) ->
                JS.lt (from b1) (from b2) = true.

(** The [from] of band n+1 equals the [to] of band n. *)
Definition contiguous (bs : list Band) : Prop :=
  forall b1 b2, In (b1, b2) (adjacentPairs bs) ->
                match to b1 with
                | ToNumber t => JS.eqb (from b2) t = true
                | ToString _ => False
                end.

(** The [from] of band n+1 is the [to] of band n plus one pound. *)
Definition contiguousWholePounds (bs : list Band) : Prop :=
  forall b1 b2, In (b1, b2) (adjacentPairs bs) ->
                match to b1 with
                | ToNumber t => JS.eqb (from b2) (JS.add t (Fin 1)) = true
                | ToString _ => False
                end.

Definition nonOverlapping (bs : list Band) : Prop :=
  forall x : Q,
    (List.length (filter (inBandHalfOpen (Fin x)) bs) <= 1)%nat.

Definition coversNonNegative (bs : list Band) : Prop :=
  forall x : Q, 0 <= x -> existsb (inBandHalfOpen (Fin x)) bs = true.

(** The band-table invariant of the data model. *)
Definition bandTableInvariant (bs : list Band) : Prop :=
  ascendingFrom bs /\ nonOverlapping bs /\ coversNonNegative bs
  /\ contiguous bs.

(** The kinds of a descriptor: a special code, a K-code, a standard code
    (neither of the two); [kindCount] counts the kinds that apply. *)
Definition isSpecialKind (d : TaxCodeInfo) : bool :=
  match specialCodeType d with Some _ => true | None => false end.

Definition isKCodeKind (d : TaxCodeInfo) : bool := isNegativeAllowance d.

Definition isStandardKind (d : TaxCodeInfo) : bool :=
  negb (isSpecialKind d) && negb (isKCodeKind d).

Definition kindCount (d : TaxCodeInfo) : nat :=
  (Nat.b2n (isSpecialKind d) + Nat.b2n (isKCodeKind d)
   + Nat.b2n (isStandardKind d))%nat.

(** Character classes of the accepted grammars. *)
Definition notLower (c : ascii) : bool := negb (isLower c).
Definition notWhite (c : ascii) : bool := negb (isWhite c).
Definition notChar (k c : ascii) : bool := negb (Ascii.eqb c k).
Definition kCodeChar (c : ascii) : bool := isDigit c || inClass "KSC" c.
Definition standardChar (c : ascii) : bool :=
  isDigit c || inClass "TLMNWYSC" c.

(** ** Definitions used by the further properties *)

(** A string that is empty or starts with a character that is not white
    space. *)
Definition headNotWhite (s : string) : bool :=
  match s with
  | EmptyString => true
  | String c _ => negb (isWhite c)
  end.

(** The test for a blank input, [!s || s.trim() === '']. *)
Definition isBlank (s : string) : bool :=
  String.eqb s "" || String.eqb (trim s) "".

(** A character of an accepted tax code: a digit or one of the letters of
    the validator's patterns. *)
Definition codeChar (c : ascii) : bool :=
  isDigit c || inClass "BCDKLMNRSTWY" c.

(** The region that a K prefix stands for. *)
Definition regionOfKPrefix (p : string) : Processing.RegionName :=
  if String.eqb p "SK" then Processing.Scotland
  else if String.eqb p "CK" then Processing.Wales
  else Processing.UK.

(** A region table for the examples, and a stand-in for the rendering of
    numbers, which only the message texts depend on. *)
Definition exampleRegions : list Processing.Region :=
  [ {| Processing.code := "UK"; Processing.bands := UK_TAX_BANDS |} ].

Definition exampleToLocaleString (n : number) : string := "#".

(** A threshold value that [validateThresholdValue] lets through. *)
Definition thresholdOk (v : number) : bool :=
  negb (isNaN v || JS.lt v (Fin 0)).

Definition groupOk (g : ThresholdGroup) : bool :=
  thresholdOk (WEEKLY g) && thresholdOk (MONTHLY g) && thresholdOk (ANNUAL g).

Definition thresholdsOk (t : NIThresholds) : bool :=
  groupOk (PRIMARY_THRESHOLD t) && groupOk (UPPER_EARNINGS_LIMIT t).

(** A complete set of thresholds passed as the optional argument. *)
Definition asPartialGroup (g : ThresholdGroup) : PartialGroup :=
  {| pWEEKLY := Some (WEEKLY g);
     pMONTHLY := Some (MONTHLY g);
     pANNUAL := Some (ANNUAL g) |}.

Definition asPartial (t : NIThresholds) : PartialThresholds :=
  {| pPRIMARY_THRESHOLD := Some (asPartialGroup (PRIMARY_THRESHOLD t));
     pUPPER_EARNINGS_LIMIT := Some (asPartialGroup (UPPER_EARNINGS_LIMIT t)) |}.

(** The sum of the [tax] fields of a band breakdown, added up with
    [preciseAdd] from 0. *)
Definition sumBandTax (l : list TaxBand) : number :=
  fold_left (fun sum b => preciseAdd sum (tax b)) l (Fin 0).

(** A band whose rate is finite and not negative and whose width, when its
    [to] is a number, is finite and not negative; and the same loop as
    [incomeTaxLoop] on the rationals of such bands ([None] for the width of
    an unlimited band). *)
Definition wellFormedBand (b : Band) : bool :=
  match rate b, to b with
  | Fin r, ToString _ => Qle_bool 0 r
  | Fin r, ToNumber (Fin t) =>
      match from b with
      | Fin f => Qle_bool 0 r && Qle_bool f t
      | _ => false
      end
  | _, _ => false
  end.

Definition qmax0 (r : Q) : Q := if JS.Qlt_bool 0 r then r else 0.

Definition bandQ (b : Band) : Q * option Q :=
  match rate b, from b, to b with
  | Fin r, Fin f, ToNumber (Fin t) => (r, Some (Qred (t + Qred (- f))))
  | Fin r, _, _ => (r, None)
  | _, _, _ => (0, None)
  end.

Fixpoint incomeTaxLoopQ (bs : list (Q * option Q)) (remaining total : Q) : Q :=
  match bs with
  | [] => total
  | (r, w) :: rest =>
      let bandAmount :=
        qmin (qmax0 remaining)
          (match w with None => remaining | Some w => w end) in
      let bandTax :=
        toDecimalPlaces2 (bandAmount * toDecimalPlaces2 (r * (1 # 100))) in
      let total' := toDecimalPlaces2 (total + bandTax) in
      let remaining' := toDecimalPlaces2 (remaining - bandAmount) in
      if JS.Qlt_bool remaining' 0 || Qeq_bool remaining' 0 then total'
      else incomeTaxLoopQ rest remaining' total'
  end.

Definition wellFormedQ (p : Q * option Q) : Prop :=
  0 <= fst p /\ forall w, snd p = Some w -> 0 <= w.

(** The allowance used up to period [n] of a year, for a positive annual
    allowance: the annual amount divided by the number of periods and
    multiplied by [n], each step rounded to pence. *)
Definition allowanceUpTo (annual : Q) (periodType : PeriodType) (n : Q) : Q :=
  toDecimalPlaces2
    (toDecimalPlaces2
       (annual
        / match periodType with month_period => 12 | week_period => 52 end)
     * n).

(** * Properties *)

(** ** Rounding to two decimal places *)

Lemma Qle_bool_comp (a x y : Q) : x == y -> Qle_bool a x = Qle_bool a y.
Proof.
  intro H. apply Bool.eq_iff_eq_true.
  rewrite !Qle_bool_iff, H. reflexivity.
Qed.

Lemma Qfloor_nonneg (q : Q) : 0 <= q -> (0 <= Qfloor q)%Z.
Proof.
  intro H. change 0%Z with (Qfloor 0). apply Qfloor_resp_le. exact H.
Qed.

Lemma Qfloor_half (z : Z) : Qfloor (inject_Z z + (1 # 2)) = z.
Proof.
  unfold Qfloor, Qplus, inject_Z. simpl.
  replace (z * 2 + 1)%Z with (1 + z * 2)%Z by lia.
  rewrite Z.div_add by lia. reflexivity.
Qed.

Lemma round_half_up_comp (x y : Q) :
  x == y -> round_half_up x = round_half_up y.
Proof.
  intro H. unfold round_half_up.
  rewrite (Qle_bool_comp 0 x y H).
  destruct (Qle_bool 0 y); rewrite H; reflexivity.
Qed.

Lemma round_half_up_mono (x y : Q) :
  x <= y -> (round_half_up x <= round_half_up y)%Z.
Proof.
  intro H. unfold round_half_up.
  destruct (Qle_bool 0 x) eqn:Hx; destruct (Qle_bool 0 y) eqn:Hy.
  - apply Qfloor_resp_le. lra.
  - apply Qle_bool_iff in Hx.
    assert (~ 0 <= y) by (rewrite <- Qle_bool_iff; congruence). lra.
  - assert (~ 0 <= x) by (rewrite <- Qle_bool_iff; congruence).
    apply Qle_bool_iff in Hy.
    assert (0 <= Qfloor (- x + (1 # 2)))%Z by (apply Qfloor_nonneg; lra).
    assert (0 <= Qfloor (y + (1 # 2)))%Z by (apply Qfloor_nonneg; lra).
    lia.
  - assert (Qfloor (- y + (1 # 2)) <= Qfloor (- x + (1 # 2)))%Z
      by (apply Qfloor_resp_le; lra).
    lia.
Qed.

Lemma round_half_up_Z (z : Z) : round_half_up (inject_Z z) = z.
Proof.
  unfold round_half_up. destruct (Qle_bool 0 (inject_Z z)).
  - apply Qfloor_half.
  - rewrite <- inject_Z_opp, Qfloor_half. lia.
Qed.

Lemma toDecimalPlaces2_comp (x y : Q) :
  x == y -> toDecimalPlaces2 x = toDecimalPlaces2 y.
Proof.
  intro H. unfold toDecimalPlaces2.
  rewrite (round_half_up_comp (x * 100) (y * 100)); [reflexivity|].
  rewrite H. reflexivity.
Qed.

Lemma toDecimalPlaces2_mono (x y : Q) :
  x <= y -> toDecimalPlaces2 x <= toDecimalPlaces2 y.
Proof.
  intro H. unfold toDecimalPlaces2. apply Qred_le.
  assert (round_half_up (x * 100) <= round_half_up (y * 100))%Z
    by (apply round_half_up_mono; lra).
  unfold Qle. simpl. lia.
Qed.

Lemma toDecimalPlaces2_idem (x : Q) :
  toDecimalPlaces2 (toDecimalPlaces2 x) = toDecimalPlaces2 x.
Proof.
  unfold toDecimalPlaces2 at 1 3. apply Qred_complete.
  set (z := round_half_up (x * 100)).
  assert (E : round_half_up (toDecimalPlaces2 x * 100) = z).
  { rewrite <- (round_half_up_Z z). apply round_half_up_comp.
    unfold toDecimalPlaces2. fold z. rewrite Qred_correct.
    unfold Qeq. simpl. lia. }
  rewrite E. reflexivity.
Qed.

Lemma toDecimalPlaces2_zero : toDecimalPlaces2 0 = 0.
Proof. reflexivity. Qed.

Lemma toDecimalPlaces2_nonneg (x : Q) : 0 <= x -> 0 <= toDecimalPlaces2 x.
Proof.
  intro H. rewrite <- toDecimalPlaces2_zero at 1.
  apply toDecimalPlaces2_mono. exact H.
Qed.

(** ** The precision helpers on finite numbers *)

#[local] Arguments Qred : simpl never.
#[local] Arguments Qplus : simpl never.
#[local] Arguments Qminus : simpl never.
#[local] Arguments Qmult : simpl never.
#[local] Arguments Qdiv : simpl never.
#[local] Arguments Qopp : simpl never.
#[local] Arguments Qabs : simpl never.
#[local] Arguments Qfloor : simpl never.
#[local] Arguments Qle_bool : simpl never.
#[local] Arguments Qeq_bool : simpl never.
#[local] Arguments toDecimalPlaces2 : simpl never.

Lemma orZero_Fin (q : Q) : exists q', orZero (Fin q) = Fin q' /\ q' == q.
Proof.
  unfold orZero. simpl. destruct (Qeq_bool q 0) eqn:E.
  - exists 0. split; [reflexivity|]. apply Qeq_bool_eq in E. lra.
  - exists q. split; reflexivity.
Qed.

Lemma preciseAdd_Fin (a b : Q) :
  preciseAdd (Fin a) (Fin b) = Fin (toDecimalPlaces2 (a + b)).
Proof.
  unfold preciseAdd. simpl.
  destruct (orZero_Fin a) as (a' & -> & Ha).
  destruct (orZero_Fin b) as (b' & -> & Hb).
  simpl. f_equal. apply toDecimalPlaces2_comp.
  rewrite Qred_correct, Ha, Hb. reflexivity.
Qed.

Lemma preciseSubtract_Fin (a b : Q) :
  preciseSubtract (Fin a) (Fin b) = Fin (toDecimalPlaces2 (a - b)).
Proof.
  unfold preciseSubtract. simpl.
  destruct (orZero_Fin a) as (a' & -> & Ha).
  destruct (orZero_Fin b) as (b' & -> & Hb).
  simpl. unfold JS.sub, JS.neg, JS.add, fin. f_equal.
  apply toDecimalPlaces2_comp.
  rewrite !Qred_correct, Ha, Hb. reflexivity.
Qed.

Lemma preciseMultiply_Fin (a b : Q) :
  preciseMultiply (Fin a) (Fin b) = Fin (toDecimalPlaces2 (a * b)).
Proof.
  unfold preciseMultiply. simpl.
  destruct (orZero_Fin a) as (a' & -> & Ha).
  destruct (orZero_Fin b) as (b' & -> & Hb).
  simpl. f_equal. apply toDecimalPlaces2_comp.
  rewrite Qred_correct, Ha, Hb. reflexivity.
Qed.

Lemma preciseRound_Fin (a : Q) :
  preciseRound (Fin a) = Fin (toDecimalPlaces2 a).
Proof.
  unfold preciseRound. simpl.
  destruct (orZero_Fin a) as (a' & -> & Ha).
  simpl. f_equal. apply toDecimalPlaces2_comp. exact Ha.
Qed.

Lemma Qlt_bool_iff (a b : Q) : JS.Qlt_bool a b = true <-> a < b.
Proof.
  unfold JS.Qlt_bool. rewrite negb_true_iff.
  split; intro H.
  - apply Qnot_le_lt. intro Hle. apply Qle_bool_iff in Hle. congruence.
  - destruct (Qle_bool b a) eqn:E; [|reflexivity].
    apply Qle_bool_iff in E. lra.
Qed.

Lemma Qlt_bool_false_iff (a b : Q) : JS.Qlt_bool a b = false <-> b <= a.
Proof.
  unfold JS.Qlt_bool. rewrite negb_false_iff. apply Qle_bool_iff.
Qed.

(** ** National Insurance *)

Lemma NI_primary_monthly :
  MONTHLY (PRIMARY_THRESHOLD NI_THRESHOLDS) = Fin (2095 # 2).
Proof. reflexivity. Qed.

Lemma NI_upper_monthly :
  MONTHLY (UPPER_EARNINGS_LIMIT NI_THRESHOLDS) = Fin (25135 # 6).
Proof. reflexivity. Qed.

Lemma calculateNI_nonpositive (x : Q) : x <= 0 -> calculateNI (Fin x) = Fin 0.
Proof.
  intro H. unfold calculateNI. simpl.
  destruct (Qeq_bool x 0) eqn:E; [reflexivity|].
  unfold JS.le. simpl. rewrite E.
  assert (JS.Qlt_bool x 0 = true) as ->; [|reflexivity].
  apply Qlt_bool_iff. apply Qeq_bool_neq in E. lra.
Qed.

Lemma calculateNI_positive (x : Q) : 0 < x -> calculateNI (Fin x) = Fin (niQ x).
Proof.
  intro H. unfold calculateNI.
  rewrite NI_primary_monthly, NI_upper_monthly. simpl.
  assert (Qeq_bool x 0 = false) as ->.
  { destruct (Qeq_bool x 0) eqn:E; [|reflexivity].
    apply Qeq_bool_eq in E. lra. }
  unfold JS.le. simpl.
  assert (JS.Qlt_bool x 0 = false) as -> by (apply Qlt_bool_false_iff; lra).
  assert (Qeq_bool x 0 = false) as ->.
  { destruct (Qeq_bool x 0) eqn:E; [|reflexivity].
    apply Qeq_bool_eq in E. lra. }
  simpl. unfold JS.gt. simpl.
  unfold niQ, niUpperQ, niMainQ, qmin, MAIN_RATE, HIGHER_RATE.
  rewrite !preciseSubtract_Fin.
  destruct (JS.Qlt_bool (2095 # 2) x); destruct (JS.Qlt_bool (25135 # 6) x);
    simpl;
    repeat match goal with
           | |- context [if ?c then Fin ?a else Fin ?b] =>
               replace (if c then Fin a else Fin b)
                 with (Fin (if c then a else b)) by (destruct c; reflexivity)
           end;
    rewrite ?preciseMultiply_Fin, ?preciseAdd_Fin, ?preciseRound_Fin;
    reflexivity.
Qed.

Lemma qmin_mono (a a' b : Q) : a <= a' -> qmin a b <= qmin a' b.
Proof.
  intro H. unfold qmin.
  destruct (JS.Qlt_bool b a) eqn:E1; destruct (JS.Qlt_bool b a') eqn:E2;
    rewrite ?Qlt_bool_iff, ?Qlt_bool_false_iff in *; lra.
Qed.

Lemma qmin_nonneg (a b : Q) : 0 <= a -> 0 <= b -> 0 <= qmin a b.
Proof. intros. unfold qmin. destruct (JS.Qlt_bool b a); assumption. Qed.

Lemma niMainQ_nonneg (x : Q) : 0 <= niMainQ x.
Proof.
  unfold niMainQ. destruct (JS.Qlt_bool (2095 # 2) x) eqn:E; [|lra].
  apply Qlt_bool_iff in E.
  apply toDecimalPlaces2_nonneg.
  assert (0 <= toDecimalPlaces2
                 (qmin (toDecimalPlaces2 (x - (2095 # 2)))
                       (toDecimalPlaces2 ((25135 # 6) - (2095 # 2)))
                  * (12 # 100))); [|lra].
  apply toDecimalPlaces2_nonneg.
  assert (0 <= qmin (toDecimalPlaces2 (x - (2095 # 2)))
                    (toDecimalPlaces2 ((25135 # 6) - (2095 # 2)))); [|lra].
  apply qmin_nonneg; apply toDecimalPlaces2_nonneg; lra.
Qed.

Lemma niMainQ_rounded (x : Q) : toDecimalPlaces2 (niMainQ x) = niMainQ x.
Proof.
  unfold niMainQ. destruct (JS.Qlt_bool (2095 # 2) x).
  - apply toDecimalPlaces2_idem.
  - reflexivity.
Qed.

Lemma niMainQ_mono (x y : Q) : x <= y -> niMainQ x <= niMainQ y.
Proof.
  intro H. pose proof (niMainQ_nonneg y) as Hy. unfold niMainQ in *.
  destruct (JS.Qlt_bool (2095 # 2) x) eqn:Ex; [|exact Hy].
  apply Qlt_bool_iff in Ex.
  assert (JS.Qlt_bool (2095 # 2) y = true) as -> by (apply Qlt_bool_iff; lra).
  apply toDecimalPlaces2_mono.
  assert (toDecimalPlaces2
            (qmin (toDecimalPlaces2 (x - (2095 # 2)))
                  (toDecimalPlaces2 ((25135 # 6) - (2095 # 2))) * (12 # 100))
          <= toDecimalPlaces2
               (qmin (toDecimalPlaces2 (y - (2095 # 2)))
                     (toDecimalPlaces2 ((25135 # 6) - (2095 # 2)))
                * (12 # 100))); [|lra].
  apply toDecimalPlaces2_mono.
  assert (qmin (toDecimalPlaces2 (x - (2095 # 2)))
               (toDecimalPlaces2 ((25135 # 6) - (2095 # 2)))
          <= qmin (toDecimalPlaces2 (y - (2095 # 2)))
                  (toDecimalPlaces2 ((25135 # 6) - (2095 # 2)))); [|lra].
  apply qmin_mono. apply toDecimalPlaces2_mono. lra.
Qed.

Lemma niUpperQ_mono (x y : Q) : x <= y -> niUpperQ x <= niUpperQ y.
Proof.
  intro H. pose proof (niMainQ_mono x y H) as Hm. unfold niUpperQ.
  destruct (JS.Qlt_bool (25135 # 6) x) eqn:Ex;
    destruct (JS.Qlt_bool (25135 # 6) y) eqn:Ey;
    rewrite ?Qlt_bool_iff, ?Qlt_bool_false_iff in *.
  - apply toDecimalPlaces2_mono.
    assert (toDecimalPlaces2 (toDecimalPlaces2 (x - (25135 # 6)) * (2 # 100))
            <= toDecimalPlaces2
                 (toDecimalPlaces2 (y - (25135 # 6)) * (2 # 100))); [|lra].
    apply toDecimalPlaces2_mono.
    assert (toDecimalPlaces2 (x - (25135 # 6))
            <= toDecimalPlaces2 (y - (25135 # 6))); [|lra].
    apply toDecimalPlaces2_mono. lra.
  - lra.
  - rewrite <- (niMainQ_rounded x). apply toDecimalPlaces2_mono.
    assert (0 <= toDecimalPlaces2
                   (toDecimalPlaces2 (y - (25135 # 6)) * (2 # 100))); [|lra].
    apply toDecimalPlaces2_nonneg.
    assert (0 <= toDecimalPlaces2 (y - (25135 # 6))); [|lra].
    apply toDecimalPlaces2_nonneg. lra.
  - exact Hm.
Qed.

Lemma niQ_mono (x y : Q) : x <= y -> niQ x <= niQ y.
Proof.
  intro H. unfold niQ. apply toDecimalPlaces2_mono, niUpperQ_mono, H.
Qed.

Lemma niQ_below_primary (x : Q) : x <= 2095 # 2 -> niQ x = 0.
Proof.
  intro H. unfold niQ, niUpperQ, niMainQ.
  assert (JS.Qlt_bool (2095 # 2) x = false) as ->
    by (apply Qlt_bool_false_iff; exact H).
  assert (JS.Qlt_bool (25135 # 6) x = false) as ->
    by (apply Qlt_bool_false_iff; lra).
  reflexivity.
Qed.

Lemma niQ_nonneg (x : Q) : 0 <= niQ x.
Proof.
  rewrite <- (niQ_below_primary 0) by lra.
  destruct (Qlt_le_dec x 0) as [Hx|Hx].
  - rewrite (niQ_below_primary x) by lra.
    rewrite (niQ_below_primary 0) by lra. lra.
  - apply niQ_mono. exact Hx.
Qed.

Lemma calculateNI_PInf : calculateNI PInf = PInf.
Proof. reflexivity. Qed.

(** C6: [calculateNI] is non-decreasing in the monthly pay from zero upwards
    (in the order of the extended reals, so an infinite pay is covered), is
    exactly zero for every pay at or below the monthly primary threshold, and
    is zero for every non-positive pay and for NaN. *)
Theorem C6_calculateNI_monotone_and_zero :
  (forall x y : number,
      num_le (Fin 0) x -> num_le x y ->
      num_le (calculateNI x) (calculateNI y))
  /\ (forall x : number,
         num_le x (MONTHLY (PRIMARY_THRESHOLD NI_THRESHOLDS)) ->
         calculateNI x = Fin 0)
  /\ (forall x : number, num_le x (Fin 0) -> calculateNI x = Fin 0)
  /\ calculateNI NaN = Fin 0.
Proof.
  repeat split.
  - intros x y Hx Hxy.
    destruct x as [| | |x]; simpl in Hx; try contradiction.
    + destruct y; simpl in Hxy; try contradiction.
      rewrite calculateNI_PInf. exact I.
    + destruct y as [| | |y]; simpl in Hxy; try contradiction.
      * rewrite calculateNI_PInf.
        destruct (Qlt_le_dec 0 x) as [Hp|Hp].
        -- rewrite (calculateNI_positive x Hp). exact I.
        -- rewrite (calculateNI_nonpositive x Hp). exact I.
      * destruct (Qlt_le_dec 0 x) as [Hp|Hp].
        -- rewrite (calculateNI_positive x Hp).
           rewrite (calculateNI_positive y) by lra.
           simpl. apply niQ_mono. exact Hxy.
        -- rewrite (calculateNI_nonpositive x Hp).
           destruct (Qlt_le_dec 0 y) as [Hq|Hq].
           ++ rewrite (calculateNI_positive y Hq). simpl. apply niQ_nonneg.
           ++ rewrite (calculateNI_nonpositive y Hq). simpl. lra.
  - intros x Hx. rewrite NI_primary_monthly in Hx.
    destruct x as [| | |x]; simpl in Hx; try contradiction.
    + reflexivity.
    + destruct (Qlt_le_dec 0 x) as [Hp|Hp].
      * rewrite (calculateNI_positive x Hp), (niQ_below_primary x Hx).
        reflexivity.
      * apply calculateNI_nonpositive. exact Hp.
  - intros x Hx.
    destruct x as [| | |x]; simpl in Hx; try contradiction.
    + reflexivity.
    + apply calculateNI_nonpositive. exact Hx.
Qed.

(** ** The monthly breakdown and the current-period override *)

Lemma applyCurrentPeriod_in_range (cp : CurrentPeriod) (l : list MonthlyDetail) :
  (0 <= periodIndex cp < Z.of_nat (List.length l))%Z ->
  exists current,
    nth_error l (Z.to_nat (periodIndex cp)) = Some current
    /\ forall i,
        nth_error (applyCurrentPeriod (Some cp) l) i
        = option_map (frozenAt (Z.to_nat (periodIndex cp)) current i)
            (nth_error l i).
Proof.
  intros [Hlo Hhi]. unfold applyCurrentPeriod.
  set (idx := periodIndex cp) in *.
  assert (Hk : (Z.to_nat idx < List.length l)%nat) by lia.
  destruct (nth_error l (Z.to_nat idx)) as [current|] eqn:Hcur.
  2:{ apply nth_error_None in Hcur. lia. }
  exists current. split; [reflexivity|]. intro i.
  assert ((0 <=? idx)%Z && (idx <? Z.of_nat (List.length l))%Z = true) as ->.
  { apply andb_true_intro. split; [apply Z.leb_le | apply Z.ltb_lt]; lia. }
  rewrite nth_error_firstn.
  assert ((Z.to_nat idx <? Z.to_nat idx + 1)%nat = true) as ->
    by (apply Nat.ltb_lt; lia).
  rewrite Hcur, nth_error_app, length_firstn, nth_error_firstn.
  replace (Nat.min (Z.to_nat idx + 1) (List.length l))
    with (Z.to_nat idx + 1)%nat by lia.
  unfold frozenAt.
  destruct (Nat.ltb_spec i (Z.to_nat idx + 1)) as [Hi|Hi].
  - assert ((i <=? Z.to_nat idx)%nat = true) as -> by (apply Nat.leb_le; lia).
    destruct (nth_error l i); reflexivity.
  - assert ((i <=? Z.to_nat idx)%nat = false) as ->
      by (apply Nat.leb_gt; lia).
    rewrite nth_error_map, nth_error_skipn.
    replace (Z.to_nat idx + 1 + (i - (Z.to_nat idx + 1)))%nat with i by lia.
    reflexivity.
Qed.

Lemma applyCurrentPeriod_out_of_range
    (cp : CurrentPeriod) (l : list MonthlyDetail) :
  ~ (0 <= periodIndex cp < Z.of_nat (List.length l))%Z ->
  applyCurrentPeriod (Some cp) l = l.
Proof.
  intro H. unfold applyCurrentPeriod.
  destruct ((0 <=? periodIndex cp)%Z
            && (periodIndex cp <? Z.of_nat (List.length l))%Z) eqn:E;
    [|reflexivity].
  apply andb_prop in E. destruct E as [E1 E2].
  apply Z.leb_le in E1. apply Z.ltb_lt in E2. lia.
Qed.

(** Every position of the list keeps a month after the override, and that
    month is the old one or the old one frozen to some month's values. *)
Lemma applyCurrentPeriod_nth_error
    (cp : option CurrentPeriod) (l : list MonthlyDetail) (i : nat)
    (m0 : MonthlyDetail) :
  nth_error l i = Some m0 ->
  exists m,
    nth_error (applyCurrentPeriod cp l) i = Some m
    /\ (m = m0 \/ exists current, In current l /\ m = freezeTo current m0)
    /\ (forall p, cp = Some p ->
                  (Z.of_nat i <= periodIndex p)%Z -> m = m0).
Proof.
  intro Hi. destruct cp as [p|].
  2:{ exists m0. repeat split; auto. }
  destruct (Z_le_dec 0 (periodIndex p)) as [Hlo|Hlo].
  1: destruct (Z_lt_dec (periodIndex p) (Z.of_nat (List.length l)))
       as [Hhi|Hhi].
  - destruct (applyCurrentPeriod_in_range p l (conj Hlo Hhi))
      as (current & Hcur & Hnth).
    exists (frozenAt (Z.to_nat (periodIndex p)) current i m0).
    rewrite Hnth, Hi. split; [reflexivity|]. unfold frozenAt. split.
    + destruct (i <=? Z.to_nat (periodIndex p))%nat; [left; reflexivity|].
      right. exists current. split; [|reflexivity].
      eapply nth_error_In. exact Hcur.
    + intros p' Hp' Hle. injection Hp' as <-.
      assert ((i <=? Z.to_nat (periodIndex p))%nat = true) as ->
        by (apply Nat.leb_le; lia).
      reflexivity.
  - rewrite applyCurrentPeriod_out_of_range by lia.
    exists m0. repeat split; auto.
  - rewrite applyCurrentPeriod_out_of_range by lia.
    exists m0. repeat split; auto.
Qed.

Lemma monthlyBreakdown_override
    (annualSalary : number) (taxCode : string) (isCumulative : bool)
    (taxYearData : TaxYearData) (cp : option CurrentPeriod) :
  monthlyBreakdown
    (calculateTaxDetails annualSalary taxCode isCumulative taxYearData cp)
  = applyCurrentPeriod cp
      (monthlyBreakdown
         (calculateTaxDetails annualSalary taxCode isCumulative taxYearData
            None)).
Proof. reflexivity. Qed.

Lemma monthlyBreakdown_nth_error
    (annualSalary : number) (taxCode : string) (isCumulative : bool)
    (taxYearData : TaxYearData) (i : nat) :
  (i < 12)%nat ->
  exists taxRegion monthlyAllowance,
    nth_error
      (monthlyBreakdown
         (calculateTaxDetails annualSalary taxCode isCumulative taxYearData
            None)) i
    = Some (monthDetail isCumulative taxRegion taxYearData
              (preciseDivide (clampSalary annualSalary) (Fin 12))
              monthlyAllowance i).
Proof.
  intro Hi. eexists _, _. unfold calculateTaxDetails.
  cbn [monthlyBreakdown applyCurrentPeriod].
  rewrite nth_error_map, nth_error_seq.
  apply Nat.ltb_lt in Hi. rewrite Hi. reflexivity.
Qed.

Lemma preciseDivide_Fin_12 (a : Q) :
  preciseDivide (Fin a) (Fin 12) = Fin (toDecimalPlaces2 (a / 12)).
Proof.
  unfold preciseDivide. simpl.
  destruct (orZero_Fin a) as (a' & -> & Ha).
  simpl. unfold fin. f_equal. apply toDecimalPlaces2_comp.
  rewrite Qred_correct, Ha. reflexivity.
Qed.

(** The clamp of the salary does not change the NI of the monthly share. *)
Lemma calculateNI_clampSalary (annualSalary : number) :
  calculateNI (preciseDivide (clampSalary annualSalary) (Fin 12))
  = calculateNI (preciseDivide annualSalary (Fin 12)).
Proof.
  destruct annualSalary as [| | |a]; try reflexivity.
  unfold clampSalary. simpl.
  destruct (JS.Qlt_bool a 0) eqn:E; [|reflexivity].
  apply Qlt_bool_iff in E.
  transitivity (Fin 0); [reflexivity|]. symmetry.
  rewrite preciseDivide_Fin_12. apply calculateNI_nonpositive.
  rewrite <- toDecimalPlaces2_zero. apply toDecimalPlaces2_mono.
  apply Qle_shift_div_r; lra.
Qed.



Lemma C6_calculateNI_monotone_and_zero_witness :
  num_le (calculateNI (Fin 3000)) (calculateNI (Fin 5000))
  /\ calculateNI (Fin 800) = Fin 0
  /\ calculateNI (Fin (-100)) = Fin 0.
Proof.
  destruct C6_calculateNI_monotone_and_zero as (Hmono & Hbelow & Hneg & _).
  split; [|split].
  - apply Hmono; unfold num_le, Qle; simpl; lia.
  - apply Hbelow. vm_compute. discriminate.
  - apply Hneg. unfold num_le, Qle; simpl; lia.
Defined.

(** ** Empty tax code *)

(** C7: the empty tax code and ['1257L'] parse to the same descriptor
    (allowance 12570, UK region, no flags), and [calculateTaxDetails] returns
    the same result for both, for salary 50000 in cumulative mode and for
    every other salary, mode, tax-year data and current period. *)
Theorem C7_empty_tax_code_is_1257L :
  parseTaxCode "" = parseTaxCode "1257L"
  /\ parseTaxCode "" = defaultTaxCodeInfo
  /\ baseAllowance (parseTaxCode "") = Fin 12570
  /\ isScottish (parseTaxCode "") = false
  /\ isWelsh (parseTaxCode "") = false
  /\ (forall taxYearData cp,
         calculateTaxDetails (Fin 50000) "" true taxYearData cp
         = calculateTaxDetails (Fin 50000) "1257L" true taxYearData cp)
  /\ (forall annualSalary isCumulative taxYearData cp,
         calculateTaxDetails annualSalary "" isCumulative taxYearData cp
         = calculateTaxDetails annualSalary "1257L" isCumulative taxYearData
             cp).
Proof.
  assert (E : defaultTaxCode "" = defaultTaxCode "1257L") by reflexivity.
  split; [reflexivity|]. split; [reflexivity|]. split; [reflexivity|].
  split; [reflexivity|]. split; [reflexivity|].
  split; intros; unfold calculateTaxDetails; rewrite E; reflexivity.
Qed.

(** ** The current-period override *)

(** C9: with a current period supplied, the annual summary (and the band
    breakdowns) are those of the same call without a current period; every
    month keeps its month number, gross, tax-free and taxable amounts; and
    the months up to and including the current one are unchanged altogether,
    so only the income tax, National Insurance and net pay of later months
    can differ. *)
Theorem C9_current_period_frame
    (annualSalary : number) (taxCode : string) (isCumulative : bool)
    (taxYearData : TaxYearData) (cp : CurrentPeriod) (i : nat) :
  (i < 12)%nat ->
  let r := calculateTaxDetails annualSalary taxCode isCumulative taxYearData
             (Some cp) in
  let r0 := calculateTaxDetails annualSalary taxCode isCumulative taxYearData
              None in
  annualSummary r = annualSummary r0
  /\ incomeTaxBands r = incomeTaxBands r0
  /\ niBands r = niBands r0
  /\ List.length (monthlyBreakdown r) = List.length (monthlyBreakdown r0)
  /\ exists m m0,
      nth_error (monthlyBreakdown r) i = Some m
      /\ nth_error (monthlyBreakdown r0) i = Some m0
      /\ month m = month m0
      /\ monthNumber m = monthNumber m0
      /\ gross m = gross m0
      /\ taxFree m = taxFree m0
      /\ taxable m = taxable m0
      /\ ((Z.of_nat i <= periodIndex cp)%Z -> m = m0).
Proof.
  intros Hi r r0.
  split; [reflexivity|]. split; [reflexivity|]. split; [reflexivity|].
  assert (Hr : monthlyBreakdown r
               = applyCurrentPeriod (Some cp) (monthlyBreakdown r0))
    by (apply monthlyBreakdown_override).
  split.
  - rewrite Hr.
    destruct (Z_le_dec 0 (periodIndex cp)) as [Hlo|Hlo].
    1: destruct (Z_lt_dec (periodIndex cp)
                   (Z.of_nat (List.length (monthlyBreakdown r0)))) as [Hhi|Hhi].
    + unfold applyCurrentPeriod.
      assert ((0 <=? periodIndex cp)%Z
              && (periodIndex cp
                  <? Z.of_nat (List.length (monthlyBreakdown r0)))%Z = true)
        as ->.
      { apply andb_true_intro.
        split; [apply Z.leb_le | apply Z.ltb_lt]; lia. }
      destruct (nth_error _ _); [|reflexivity].
      rewrite length_app, length_map, <- length_app, firstn_skipn.
      reflexivity.
    + rewrite applyCurrentPeriod_out_of_range by lia. reflexivity.
    + rewrite applyCurrentPeriod_out_of_range by lia. reflexivity.
  - destruct (monthlyBreakdown_nth_error annualSalary taxCode isCumulative
                taxYearData i Hi) as (reg & ma & Hnth).
    fold r0 in Hnth.
    destruct (applyCurrentPeriod_nth_error (Some cp) (monthlyBreakdown r0) i
                _ Hnth) as (m & Hm & Hcase & Hbefore).
    exists m, (monthDetail isCumulative reg taxYearData
                 (preciseDivide (clampSalary annualSalary) (Fin 12)) ma i).
    rewrite Hr. split; [exact Hm|]. split; [exact Hnth|].
    destruct Hcase as [->|(current & _ & ->)].
    + repeat split; try reflexivity.
    + repeat split; try reflexivity.
      intro Hle. apply (Hbefore cp eq_refl Hle).
Qed.

Lemma C9_current_period_frame_witness :
  let r := calculateTaxDetails (Fin 50000) "1257L" true exampleTaxYearData
             (Some {| periodType := month_period; periodNumber := 6 |}) in
  let r0 := calculateTaxDetails (Fin 50000) "1257L" true exampleTaxYearData
              None in
  annualSummary r = annualSummary r0
  /\ incomeTaxBands r = incomeTaxBands r0
  /\ niBands r = niBands r0
  /\ List.length (monthlyBreakdown r) = List.length (monthlyBreakdown r0)
  /\ exists m m0,
      nth_error (monthlyBreakdown r) 8 = Some m
      /\ nth_error (monthlyBreakdown r0) 8 = Some m0
      /\ month m = month m0
      /\ monthNumber m = monthNumber m0
      /\ gross m = gross m0
      /\ taxFree m = taxFree m0
      /\ taxable m = taxable m0
      /\ ((Z.of_nat 8
           <= periodIndex {| periodType := month_period; periodNumber := 6 |})%Z
          -> m = m0).
Proof.
  apply (C9_current_period_frame (Fin 50000) "1257L" true exampleTaxYearData
           {| periodType := month_period; periodNumber := 6 |} 8).
  lia.
Defined.

(** ** Personal allowance: the taper on a negative allowance *)

Lemma Qsgn_pos (q : Q) : 0 < q -> JS.Qsgn q = 1%Z.
Proof.
  destruct q as [n d]. unfold JS.Qsgn, Qlt. simpl. intro H.
  destruct n; simpl; lia.
Qed.

Lemma Qsgn_nonneg (q : Q) : 0 <= q -> JS.Qsgn q = 0%Z \/ JS.Qsgn q = 1%Z.
Proof.
  destruct q as [n d]. unfold JS.Qsgn, Qle. simpl. intro H.
  destruct n; simpl; auto; lia.
Qed.

Lemma inject_Z_nonneg (z : Z) : (0 <= z)%Z -> 0 <= inject_Z z.
Proof. intro H. unfold Qle. simpl. lia. Qed.

(** The amount [Math.floor((salary - threshold) * taperRate)] of the taper,
    for a salary above the threshold and a taper rate that is not negative,
    is NaN or not negative. *)
Lemma taper_amount_nonneg (salary threshold taperRate : number) :
  JS.gt salary threshold = true ->
  num_le (Fin 0) taperRate ->
  let x := JS.floor (JS.mul (JS.sub salary threshold) taperRate) in
  x = NaN \/ num_le (Fin 0) x.
Proof.
  intros Hgt Hrate.
  destruct salary as [| | |s]; destruct threshold as [| | |t];
    try discriminate Hgt;
    destruct taperRate as [| | |r]; simpl in Hrate; try contradiction;
    cbn -[Qred Qplus Qmult Qopp Qfloor]; auto.
  - destruct (Qsgn_nonneg r Hrate) as [-> | ->]; simpl; auto.
  - destruct (Qsgn_nonneg r Hrate) as [-> | ->]; simpl; auto.
  - destruct (Qsgn_nonneg r Hrate) as [-> | ->]; simpl; auto.
  - unfold JS.gt in Hgt. simpl in Hgt. apply Qlt_bool_iff in Hgt.
    rewrite Z.mul_1_r, Qsgn_pos; [simpl; auto|].
    rewrite !Qred_correct. lra.
  - unfold JS.gt in Hgt. simpl in Hgt. apply Qlt_bool_iff in Hgt.
    right. apply inject_Z_nonneg, Qfloor_nonneg.
    rewrite !Qred_correct. apply Qmult_le_0_compat; lra.
Qed.

Lemma preciseSubtract_taper_negative (a : Q) (x : number) :
  a < 0 -> x = NaN \/ num_le (Fin 0) x ->
  preciseSubtract (Fin a) (JS.min (Fin a) x) = Fin 0.
Proof.
  intros Ha [-> | Hx]; [reflexivity|].
  assert (E : JS.min (Fin a) x = Fin a).
  { destruct x as [| | |q]; simpl in Hx; try contradiction; [reflexivity|].
    simpl. assert (JS.Qlt_bool q a = false) as ->; [|reflexivity].
    apply Qlt_bool_false_iff. lra. }
  rewrite E, preciseSubtract_Fin. f_equal.
  rewrite <- toDecimalPlaces2_zero. apply toDecimalPlaces2_comp. lra.
Qed.

Lemma applyKCodeLimit_zero (salary : number) (taxCodeInfo : TaxCodeInfo) :
  num_le (Fin 0) salary -> applyKCodeLimit salary taxCodeInfo (Fin 0) = Fin 0.
Proof.
  intro Hs. unfold applyKCodeLimit.
  destruct (isNegativeAllowance taxCodeInfo); [|reflexivity].
  destruct salary as [| | |s]; simpl in Hs; try contradiction; [reflexivity|].
  unfold JS.gt. cbn -[Qred Qmult].
  assert (JS.Qlt_bool (Qred (s * (1 # 2))) (Qred (Qabs 0)) = false) as ->;
    [|reflexivity].
  apply Qlt_bool_false_iff. rewrite !Qred_correct.
  change (Qabs 0) with 0. lra.
Qed.

(** C10: for a descriptor whose base allowance is negative (a K-code), a
    salary strictly above the taper threshold and a taper rate that is not
    negative, [calculatePersonalAllowance] returns 0: the reduction
    [min(allowance, floor((salary - threshold) * rate))] is the negative
    allowance itself (or NaN, which [preciseSubtract] turns into 0).  The
    K-code branch of the orchestrator then keeps 0, so the addition is gone
    before the 50% limit has anything to cap. *)
Theorem C10_negative_allowance_tapered_to_zero
    (salary : number) (taxCodeInfo : TaxCodeInfo) (taxYearData : TaxYearData)
    (a : Q) :
  baseAllowance taxCodeInfo = Fin a ->
  a < 0 ->
  JS.gt salary (paTaperThreshold (config taxYearData)) = true ->
  num_le (Fin 0) (paTaperRate (config taxYearData)) ->
  calculatePersonalAllowance salary taxCodeInfo taxYearData = Fin 0
  /\ (num_le (Fin 0) salary ->
      applyKCodeLimit salary taxCodeInfo
        (calculatePersonalAllowance salary taxCodeInfo taxYearData) = Fin 0).
Proof.
  intros Hbase Ha Hgt Hrate.
  assert (E : calculatePersonalAllowance salary taxCodeInfo taxYearData
              = Fin 0).
  { unfold calculatePersonalAllowance. rewrite Hgt, Hbase.
    apply preciseSubtract_taper_negative; [exact Ha|].
    apply taper_amount_nonneg; assumption. }
  split; [exact E|].
  intro Hs. rewrite E. apply applyKCodeLimit_zero. exact Hs.
Qed.

Lemma C10_negative_allowance_tapered_to_zero_witness :
  calculatePersonalAllowance (Fin 120000) (parseTaxCode "K500")
    exampleTaxYearData = Fin 0
  /\ (num_le (Fin 0) (Fin 120000) ->
      applyKCodeLimit (Fin 120000) (parseTaxCode "K500")
        (calculatePersonalAllowance (Fin 120000) (parseTaxCode "K500")
           exampleTaxYearData) = Fin 0).
Proof.
  apply (C10_negative_allowance_tapered_to_zero (Fin 120000)
           (parseTaxCode "K500") exampleTaxYearData (-5000)).
  - reflexivity.
  - reflexivity.
  - reflexivity.
  - unfold num_le, Qle; simpl; lia.
Defined.

(** ** The 50% limit for K-codes *)

Lemma calculatePersonalAllowance_finite
    (s b t r : Q) (taxCodeInfo : TaxCodeInfo) (taxYearData : TaxYearData) :
  baseAllowance taxCodeInfo = Fin b ->
  paTaperThreshold (config taxYearData) = Fin t ->
  paTaperRate (config taxYearData) = Fin r ->
  exists p, calculatePersonalAllowance (Fin s) taxCodeInfo taxYearData = Fin p.
Proof.
  intros Hb Ht Hr. unfold calculatePersonalAllowance. rewrite Hb, Ht, Hr.
  destruct (JS.gt (Fin s) (Fin t)); [|eexists; reflexivity].
  cbn -[Qred Qplus Qmult Qopp Qfloor preciseSubtract].
  unfold ofZ.
  destruct (JS.Qlt_bool _ b); rewrite preciseSubtract_Fin; eexists; reflexivity.
Qed.

(** The K-code block leaves a finite allowance whose magnitude is at most
    half the salary, whatever allowance (other than NaN) enters it. *)
Lemma applyKCodeLimit_bound
    (s : Q) (taxCodeInfo : TaxCodeInfo) (personalAllowance : number) :
  isNegativeAllowance taxCodeInfo = true ->
  0 <= s ->
  personalAllowance <> NaN ->
  exists a,
    applyKCodeLimit (Fin s) taxCodeInfo personalAllowance = Fin a
    /\ Qabs a <= (1 # 2) * s.
Proof.
  intros Hk Hs Hnan. unfold applyKCodeLimit. rewrite Hk.
  assert (Hclamp : Qabs (Qred (- Qred (s * (1 # 2)))) <= (1 # 2) * s).
  { apply Qabs_Qle_condition. rewrite !Qred_correct. lra. }
  destruct personalAllowance as [| | |p]; [congruence| | |].
  - eexists. split; [reflexivity|]. exact Hclamp.
  - eexists. split; [reflexivity|]. exact Hclamp.
  - unfold JS.gt. cbn -[Qred Qmult Qopp Qabs].
    destruct (JS.Qlt_bool (Qred (s * (1 # 2))) (Qred (Qabs p))) eqn:E.
    + eexists. split; [reflexivity|]. exact Hclamp.
    + exists p. split; [reflexivity|].
      apply Qlt_bool_false_iff in E. rewrite !Qred_correct in E. lra.
Qed.

Lemma min_le_right (a b : number) :
  a <> NaN -> b <> NaN -> num_le (JS.min a b) b.
Proof.
  intros Ha Hb.
  destruct a as [| | |x]; destruct b as [| | |y]; try congruence;
    simpl; auto; try lra.
  destruct (JS.Qlt_bool y x) eqn:E; simpl.
  - lra.
  - apply Qlt_bool_false_iff in E. exact E.
Qed.

(** The K-code block, exactly: for a K-code descriptor, a finite salary that
    is not negative and a finite allowance [p] entering the block, the
    allowance leaving it is minus half the salary when the magnitude of [p]
    exceeds half the salary, and [p] otherwise. *)
Lemma applyKCodeLimit_exact
    (s p : Q) (taxCodeInfo : TaxCodeInfo) :
  isNegativeAllowance taxCodeInfo = true ->
  applyKCodeLimit (Fin s) taxCodeInfo (Fin p)
  = if JS.Qlt_bool (Qred (s * (1 # 2))) (Qred (Qabs p))
    then Fin (Qred (- Qred (s * (1 # 2))))
    else Fin p.
Proof.
  intro Hk. unfold applyKCodeLimit. rewrite Hk.
  unfold JS.gt. cbn -[Qred Qmult Qopp Qabs].
  destruct (JS.Qlt_bool (Qred (s * (1 # 2))) (Qred (Qabs p))); reflexivity.
Qed.

(** On a result record the body of the memo limits the expected tax of a
    K-code to half the earned amount. *)
Lemma verificationCalculation_limit
    (taxDetails : TaxCalculationResult) (earnedAmount : number)
    (periodType : PeriodType) (periodNumber : number)
    (isCumulative : bool) (taxCode : string) :
  let v := verificationCalculation taxDetails earnedAmount periodType
             periodNumber isCumulative taxCode in
  let periodTax :=
    periodTaxOf taxDetails periodType periodNumber isCumulative in
  isKCode v = true ->
  earnedAmount <> NaN ->
  periodTax <> NaN ->
  expectedTax v = JS.min periodTax (JS.mul earnedAmount (Fin (1 # 2)))
  /\ num_le (expectedTax v) (JS.mul earnedAmount (Fin (1 # 2))).
Proof.
  intros v periodTax Hk He Hp.
  assert (Hhalf : JS.mul earnedAmount (Fin (1 # 2)) <> NaN).
  { destruct earnedAmount; try congruence; discriminate. }
  assert (E : expectedTax v
              = JS.min periodTax (JS.mul earnedAmount (Fin (1 # 2)))).
  { subst v. unfold verificationCalculation in *.
    cbn [expectedTax isKCode] in *. rewrite Hk. fold periodTax.
    cbn [andb]. unfold JS.gt.
    destruct periodTax as [| | |x]; [congruence| | |];
      destruct (JS.mul earnedAmount (Fin (1 # 2))) as [| | |y];
      try congruence; reflexivity. }
  split; [exact E|]. rewrite E. apply min_le_right; assumption.
Qed.

(** C3, the divergence: the [calculation] memo of the verification calculator
    produces no expected tax.  For every earned amount, period, cumulative
    flag and tax code (K-codes included) it raises the TypeError of
    [taxDetails.incomeTaxBands.filter]: [calculateTaxDetails] is asynchronous
    and is called without [await], so [taxDetails] is a Promise.  The limit
    of the final tax to half the earned amount, which the body would apply to
    a result record, is therefore never applied. *)
Theorem C3_verification_memo_raises
    (earnedAmount : number) (periodType : PeriodType) (periodNumber : number)
    (isCumulative : bool) (taxCode : string) :
  calculation earnedAmount periodType periodNumber isCumulative taxCode = None
  /\ incomeTaxBandsOf
       (calculateTaxDetailsCall
          (annualizedAmountOf earnedAmount periodType periodNumber
             isCumulative)
          taxCode isCumulative periodType periodNumber) = None.
Proof. split; reflexivity. Qed.

(** ** The standard-code scenario *)

(** C1 (the code departs from the claim): for salary 50000, code ['1257L'],
    cumulative mode and tax-year data whose UK table is [UK_TAX_BANDS] (and
    whose taper threshold is not below 50000), the total annual income tax of
    the summary is 2426.68, not about 7486: the allowance is subtracted from
    the year-to-date pay and the 0% band of the annual table is then applied
    to the remainder of every month. *)
Theorem C1_standard_code_total_income_tax
    (taxYearData : TaxYearData) (cp : option CurrentPeriod) :
  bands (UK (regions taxYearData)) = UK_TAX_BANDS ->
  JS.gt (Fin 50000) (paTaperThreshold (config taxYearData)) = false ->
  totalIncomeTax
    (annualSummary
       (calculateTaxDetails (Fin 50000) "1257L" true taxYearData cp))
  = Fin (60667 # 25).
Proof.
  intros Hbands Hthr.
  assert (Hpa : calculatePersonalAllowance (Fin 50000) (parseTaxCode "1257L")
                  taxYearData = Fin 12570).
  { unfold calculatePersonalAllowance. rewrite Hthr. reflexivity. }
  unfold calculateTaxDetails. cbn [annualSummary totalIncomeTax].
  change (clampSalary (Fin 50000)) with (Fin 50000).
  change (defaultTaxCode "1257L") with "1257L".
  rewrite Hpa.
  change (selectRegion (parseTaxCode "1257L") taxYearData)
    with (UK (regions taxYearData)).
  unfold monthDetail, calculateIncomeTax. rewrite Hbands.
  vm_compute. reflexivity.
Qed.

Lemma C1_standard_code_total_income_tax_witness :
  totalIncomeTax
    (annualSummary
       (calculateTaxDetails (Fin 50000) "1257L" true exampleTaxYearData None))
  = Fin (60667 # 25).
Proof.
  apply (C1_standard_code_total_income_tax exampleTaxYearData None);
    reflexivity.
Defined.

(** The figure of the scenario, 7486, is what the band breakdown of the same
    call reports for the basic-rate band. *)
Example standard_code_band_breakdown :
  map (fun b => (band b, amount b, tax b))
    (incomeTaxBands
       (calculateTaxDetails (Fin 50000) "1257L" true exampleTaxYearData None))
  = [("Personal Allowance", Fin 12570, Fin 0);
     ("Basic Rate", Fin 37430, Fin 7486)].
Proof. vm_compute. reflexivity. Qed.

(** ** The static UK band table *)

Lemma le_ofZ (a b : Z) : JS.le (ofZ a) (ofZ b) = (a <=? b)%Z.
Proof.
  apply Bool.eq_iff_eq_true. unfold JS.le, ofZ.
  rewrite orb_true_iff. cbn [JS.lt JS.eqb].
  rewrite Qlt_bool_iff, Qeq_bool_iff, Z.leb_le.
  unfold Qlt, Qeq. simpl. lia.
Qed.

(** C4 (the code departs from the claim): the static UK table does not
    satisfy the band-table invariant; its second band starts at 12571, not at
    the 12570 where the first band ends, and likewise for the later bands, so
    the width [to - from] that the band loops use for the basic-rate band is
    37699 and not 37700. *)
Theorem C4_uk_bands_break_invariant :
  ~ bandTableInvariant UK_TAX_BANDS
  /\ ~ contiguous UK_TAX_BANDS
  /\ ~ coversNonNegative UK_TAX_BANDS
  /\ map (fun b => match to b with
                   | ToNumber t => JS.sub t (from b)
                   | ToString _ => PInf
                   end) UK_TAX_BANDS
     = [Fin 12570; Fin 37699; Fin 74869; PInf].
Proof.
  assert (Hn : ~ contiguous UK_TAX_BANDS).
  2:{ split; [intros (_ & _ & _ & Hc); exact (Hn Hc)|].
      split; [exact Hn|]. split; [|reflexivity].
      intro Hcov. specialize (Hcov 12570).
      assert (H : false = true) by (apply Hcov; unfold Qle; simpl; lia).
      discriminate H. }
  intro Hc.
  pose proof (Hc {| name := "Personal Allowance"; rate := Fin 0;
                    from := Fin 0; to := ToNumber (Fin 12570) |}
                 {| name := "Basic Rate"; rate := Fin 20;
                    from := Fin 12571; to := ToNumber (Fin 50270) |}
                 (or_introl eq_refl)) as H.
  simpl in H. discriminate H.
Qed.

(** What the static UK table does satisfy: it is ascending by [from], starts
    at 0, ends with an unbounded band, each band starts one pound above the
    end of the band before it, and every whole-pound amount from 0 upwards
    lies in exactly one band read as the closed range [from .. to]. *)
Lemma uk_bands_whole_pound_ranges :
  ascendingFrom UK_TAX_BANDS
  /\ contiguousWholePounds UK_TAX_BANDS
  /\ option_map from (hd_error UK_TAX_BANDS) = Some (Fin 0)
  /\ option_map to (hd_error (rev UK_TAX_BANDS))
     = Some (ToString "unlimited")
  /\ forall n : Z,
      (0 <= n)%Z ->
      List.length (filter (inBandClosed (ofZ n)) UK_TAX_BANDS) = 1%nat.
Proof.
  split; [|split; [|split; [reflexivity|split; [reflexivity|]]]].
  - intros b1 b2 H. simpl in H.
    repeat (destruct H as [H|H]; [injection H as <- <-; reflexivity|]).
    contradiction.
  - intros b1 b2 H. simpl in H.
    repeat (destruct H as [H|H]; [injection H as <- <-; reflexivity|]).
    contradiction.
  - intros n Hn. unfold UK_TAX_BANDS, inBandClosed. cbn [filter from to].
    change (Fin 0) with (ofZ 0). change (Fin 12570) with (ofZ 12570).
    change (Fin 12571) with (ofZ 12571). change (Fin 50270) with (ofZ 50270).
    change (Fin 50271) with (ofZ 50271). change (Fin 125140) with (ofZ 125140).
    change (Fin 125141) with (ofZ 125141).
    rewrite !le_ofZ.
    destruct (Z.leb_spec 0 n); [|lia].
    destruct (Z.leb_spec n 12570); destruct (Z.leb_spec 12571 n);
      destruct (Z.leb_spec n 50270); destruct (Z.leb_spec 50271 n);
      destruct (Z.leb_spec n 125140); destruct (Z.leb_spec 125141 n);
      simpl; try reflexivity; lia.
Qed.

(** ** Strings *)

Lemma forallChars_impl (p q : ascii -> bool) (s : string) :
  (forall c, p c = true -> q c = true) ->
  forallChars p s = true -> forallChars q s = true.
Proof.
  intro Hpq. induction s as [|c r IH]; simpl; [reflexivity|].
  intro H. apply andb_prop in H. destruct H as [Hc Hr].
  rewrite (Hpq c Hc), (IH Hr). reflexivity.
Qed.

Lemma forallChars_app (p : ascii -> bool) (s1 s2 : string) :
  forallChars p (s1 ++ s2) = forallChars p s1 && forallChars p s2.
Proof.
  induction s1 as [|c r IH]; simpl; [reflexivity|].
  rewrite IH, andb_assoc. reflexivity.
Qed.

Lemma toUpperCase_id (s : string) :
  forallChars notLower s = true -> toUpperCase s = s.
Proof.
  induction s as [|c r IH]; simpl; [reflexivity|].
  intro H. apply andb_prop in H. destruct H as [Hc Hr].
  rewrite (IH Hr). unfold upper. unfold notLower in Hc.
  destruct (isLower c); [discriminate|reflexivity].
Qed.

Lemma trimEnd_id (s : string) :
  forallChars notWhite s = true -> trimEnd s = s.
Proof.
  induction s as [|c r IH]; simpl; [reflexivity|].
  intro H. apply andb_prop in H. destruct H as [Hc Hr].
  rewrite (IH Hr). unfold notWhite in Hc.
  destruct r; [|reflexivity].
  destruct (isWhite c); [discriminate|reflexivity].
Qed.

Lemma trim_id (s : string) : forallChars notWhite s = true -> trim s = s.
Proof.
  intro H. unfold trim.
  assert (E : trimStart s = s).
  { destruct s as [|c r]; [reflexivity|]. simpl in *.
    apply andb_prop in H. destruct H as [Hc _]. unfold notWhite in Hc.
    destruct (isWhite c); [discriminate|reflexivity]. }
  rewrite E. apply trimEnd_id. exact H.
Qed.

Lemma prefix_split (p s : string) :
  String.prefix p s = true -> s = p ++ substringFrom (String.length p) s.
Proof.
  revert s. induction p as [|a p IH]; intros s H; [reflexivity|].
  destruct s as [|b r]; simpl in H; [discriminate|].
  destruct (ascii_dec a b) as [->|]; [|discriminate].
  simpl. f_equal. apply IH. exact H.
Qed.

Lemma takeDigits_digits (s : string) : forallChars isDigit (takeDigits s) = true.
Proof.
  induction s as [|c r IH]; simpl; [reflexivity|].
  destruct (isDigit c) eqn:E; simpl; [rewrite E, IH|]; reflexivity.
Qed.

Lemma takeDigits_split (s : string) :
  s = takeDigits s ++ substringFrom (String.length (takeDigits s)) s.
Proof.
  induction s as [|c r IH]; simpl; [reflexivity|].
  destruct (isDigit c); simpl; [f_equal; exact IH|reflexivity].
Qed.

Lemma takeDigits_all (s : string) :
  forallChars isDigit s = true -> takeDigits s = s.
Proof.
  induction s as [|c r IH]; simpl; [reflexivity|].
  intro H. apply andb_prop in H. destruct H as [Hc Hr].
  rewrite Hc, (IH Hr). reflexivity.
Qed.

Lemma matchDigits_all (s : string) :
  forallChars isDigit s = true -> s <> "" -> matchDigits s = Some s.
Proof.
  destruct s as [|c r]; [congruence|]. intros H _. cbn [matchDigits].
  rewrite (takeDigits_all _ H).
  simpl in H. apply andb_prop in H. destruct H as [-> _]. reflexivity.
Qed.

(** A string without the character [k] includes no string that starts
    with [k]. *)
Lemma includes_absent (k : ascii) (p s : string) :
  forallChars (notChar k) s = true -> includes (String k p) s = false.
Proof.
  induction s as [|c r IH]; simpl; [reflexivity|].
  intro H. apply andb_prop in H. destruct H as [Hc Hr].
  rewrite (IH Hr). unfold notChar in Hc.
  destruct (ascii_dec k c) as [->|]; [|reflexivity].
  rewrite Ascii.eqb_refl in Hc. discriminate.
Qed.

Lemma includes_prefix (p s : string) :
  String.prefix p s = true -> includes p s = true.
Proof. intro H. destruct s; simpl in *; rewrite H; reflexivity. Qed.

Lemma prefix_nil (s : string) : String.prefix "" s = true.
Proof. destruct s; reflexivity. Qed.

Lemma includes_K (pre ds : string) : includes "K" (pre ++ "K" ++ ds) = true.
Proof.
  induction pre as [|c r IH].
  - apply includes_prefix. destruct ds; reflexivity.
  - simpl. simpl in IH. rewrite IH. apply orb_true_r.
Qed.

Lemma digit_notLower (c : ascii) : isDigit c = true -> notLower c = true.
Proof.
  unfold isDigit, notLower, isLower. intro H.
  apply andb_prop in H. destruct H as [_ H]. apply Nat.leb_le in H.
  destruct (Nat.leb_spec 97 (code c)); [lia|reflexivity].
Qed.

Lemma digit_notWhite (c : ascii) : isDigit c = true -> notWhite c = true.
Proof.
  unfold isDigit, notWhite, isWhite. intro H.
  apply andb_prop in H. destruct H as [H _]. apply Nat.leb_le in H.
  destruct (Nat.leb_spec (code c) 13); [lia|].
  destruct (Nat.eqb_spec (code c) 32); [lia|].
  rewrite andb_false_r. reflexivity.
Qed.

Lemma digit_notChar (k c : ascii) :
  isDigit k = false -> isDigit c = true -> notChar k c = true.
Proof.
  intros Hk Hc. unfold notChar.
  destruct (Ascii.eqb_spec c k) as [->|]; [congruence|reflexivity].
Qed.

(** ** K-codes *)

Lemma parseNormalizedCode_not_special (u : string) :
  String.eqb u "BR" = false ->
  String.eqb u "D0" = false ->
  String.eqb u "D1" = false ->
  includes "NT" u = false ->
  startsWith "0T" u = false ->
  specialCodeType (parseNormalizedCode u) = None
  /\ baseAllowance (parseNormalizedCode u) = parseBaseAllowance u.
Proof.
  intros H1 H2 H3 H4 H5. unfold parseNormalizedCode.
  rewrite H1, H2, H3, H4, H5. split; reflexivity.
Qed.

Lemma parseNormalizedCode_isNegativeAllowance (u : string) :
  isNegativeAllowance (parseNormalizedCode u) = includes "K" u.
Proof.
  unfold parseNormalizedCode.
  destruct (String.eqb u "BR"); [reflexivity|].
  destruct (String.eqb u "D0"); [reflexivity|].
  destruct (String.eqb u "D1"); [reflexivity|].
  destruct (includes "NT" u); [reflexivity|].
  destruct (startsWith "0T" u); reflexivity.
Qed.

Lemma kCodeChar_notChar (k c : ascii) :
  kCodeChar k = false -> kCodeChar c = true -> notChar k c = true.
Proof.
  intros Hk Hc. unfold notChar.
  destruct (Ascii.eqb_spec c k) as [->|]; [congruence|reflexivity].
Qed.

(** A code made of digits and the letters K, S, C is no special code. *)
Lemma kCodeChars_not_special (u : string) :
  forallChars kCodeChar u = true ->
  specialCodeType (parseNormalizedCode u) = None
  /\ baseAllowance (parseNormalizedCode u) = parseBaseAllowance u.
Proof.
  intro H. apply parseNormalizedCode_not_special.
  - destruct (String.eqb_spec u "BR") as [->|]; [discriminate H|reflexivity].
  - destruct (String.eqb_spec u "D0") as [->|]; [discriminate H|reflexivity].
  - destruct (String.eqb_spec u "D1") as [->|]; [discriminate H|reflexivity].
  - apply includes_absent.
    apply (forallChars_impl kCodeChar); [|exact H].
    intro c. apply kCodeChar_notChar. reflexivity.
  - unfold startsWith. destruct (String.prefix "0T" u) eqn:E; [|reflexivity].
    apply prefix_split in E. rewrite E in H. discriminate H.
Qed.

Lemma digits_kCodeChars (ds : string) :
  forallChars isDigit ds = true -> forallChars kCodeChar ds = true.
Proof.
  apply forallChars_impl. intros c Hc. unfold kCodeChar. rewrite Hc.
  reflexivity.
Qed.

(** A K, SK or CK prefix followed by digits is its own normal form. *)
Lemma kcode_normal_form (p ds : string) :
  forallChars notLower p = true ->
  forallChars notWhite p = true ->
  p <> "" ->
  forallChars isDigit ds = true ->
  parseTaxCode (p ++ ds) = parseNormalizedCode (p ++ ds).
Proof.
  intros Hl Hw Hp Hd.
  assert (Hw' : forallChars notWhite (p ++ ds) = true).
  { rewrite forallChars_app, Hw.
    apply (forallChars_impl isDigit); [apply digit_notWhite | exact Hd]. }
  assert (Hl' : forallChars notLower (p ++ ds) = true).
  { rewrite forallChars_app, Hl.
    apply (forallChars_impl isDigit); [apply digit_notLower | exact Hd]. }
  unfold parseTaxCode.
  rewrite (toUpperCase_id _ Hl'), (trim_id _ Hw').
  destruct p as [|c p]; [congruence|]. reflexivity.
Qed.

(** For the prefixes K and SK the allowance is minus ten times the number the
    digits denote; for the prefix CK the sign is not changed. *)
Lemma parseTaxCode_K_digits (ds : string) :
  forallChars isDigit ds = true -> ds <> "" ->
  baseAllowance (parseTaxCode ("K" ++ ds)) = ofZ (- (parseInt ds * 10))
  /\ isNegativeAllowance (parseTaxCode ("K" ++ ds)) = true.
Proof.
  intros Hd Hne.
  rewrite (kcode_normal_form "K" ds) by (try reflexivity; congruence).
  destruct (kCodeChars_not_special ("K" ++ ds)) as [_ ->].
  { rewrite forallChars_app, (digits_kCodeChars ds Hd). reflexivity. }
  split; [|rewrite parseNormalizedCode_isNegativeAllowance;
           exact (includes_K "" ds)].
  unfold parseBaseAllowance. cbn -[matchDigits parseInt Z.mul].
  rewrite prefix_nil, (matchDigits_all ds Hd Hne). reflexivity.
Qed.

Lemma parseTaxCode_SK_digits (ds : string) :
  forallChars isDigit ds = true -> ds <> "" ->
  baseAllowance (parseTaxCode ("SK" ++ ds)) = ofZ (- (parseInt ds * 10))
  /\ isNegativeAllowance (parseTaxCode ("SK" ++ ds)) = true.
Proof.
  intros Hd Hne.
  rewrite (kcode_normal_form "SK" ds) by (try reflexivity; congruence).
  destruct (kCodeChars_not_special ("SK" ++ ds)) as [_ ->].
  { rewrite forallChars_app, (digits_kCodeChars ds Hd). reflexivity. }
  split; [|rewrite parseNormalizedCode_isNegativeAllowance;
           exact (includes_K "S" ds)].
  unfold parseBaseAllowance. cbn -[matchDigits parseInt Z.mul].
  rewrite prefix_nil, (matchDigits_all ds Hd Hne). reflexivity.
Qed.

Lemma parseTaxCode_CK_digits (ds : string) :
  forallChars isDigit ds = true -> ds <> "" ->
  baseAllowance (parseTaxCode ("CK" ++ ds)) = ofZ (parseInt ds * 10)
  /\ isNegativeAllowance (parseTaxCode ("CK" ++ ds)) = true.
Proof.
  intros Hd Hne.
  rewrite (kcode_normal_form "CK" ds) by (try reflexivity; congruence).
  destruct (kCodeChars_not_special ("CK" ++ ds)) as [_ ->].
  { rewrite forallChars_app, (digits_kCodeChars ds Hd). reflexivity. }
  split; [|rewrite parseNormalizedCode_isNegativeAllowance;
           exact (includes_K "C" ds)].
  unfold parseBaseAllowance. cbn -[matchDigits parseInt Z.mul includes].
  change (matchDigits (String "K" ds)) with (matchDigits ds).
  rewrite (matchDigits_all ds Hd Hne).
  destruct (includes "T" _ && _); reflexivity.
Qed.

(** C2 (the code departs from the claim): for the Welsh K-code ['CK100'] the
    parser sets [isNegativeAllowance] but returns the base allowance +1000,
    not -1000: [parseBaseAllowance] tests the prefixes K and SK only.  The
    codes ['K100'] and ['SK100'] give -1000. *)
Theorem C2_welsh_kcode_allowance_not_negated :
  baseAllowance (parseTaxCode "CK100") = Fin 1000
  /\ isNegativeAllowance (parseTaxCode "CK100") = true
  /\ baseAllowance (parseTaxCode "K100") = Fin (-1000)
  /\ baseAllowance (parseTaxCode "SK100") = Fin (-1000).
Proof. repeat split; reflexivity. Qed.

(** ** Kinds of descriptors *)

Lemma inClass_forall (q : ascii -> bool) (cls : string) :
  forallChars q cls = true -> forall c, inClass cls c = true -> q c = true.
Proof.
  induction cls as [|d r IH]; simpl; [discriminate 2|].
  intros H c Hc. apply andb_prop in H. destruct H as [Hd Hr].
  apply orb_prop in Hc. destruct Hc as [Hc|Hc].
  - apply Ascii.eqb_eq in Hc. subst c. exact Hd.
  - apply (IH Hr c Hc).
Qed.

Lemma inList_In (s : string) (l : list string) : inList s l = true -> In s l.
Proof.
  induction l as [|x r IH]; simpl; [discriminate|].
  intro H. apply orb_prop in H. destruct H as [H|H].
  - left. symmetry. apply String.eqb_eq. exact H.
  - right. apply IH. exact H.
Qed.

Lemma kCodeChar_notWhite (c : ascii) : kCodeChar c = true -> notWhite c = true.
Proof.
  unfold kCodeChar. intro H. apply orb_prop in H. destruct H as [H|H].
  - apply digit_notWhite. exact H.
  - revert c H. apply inClass_forall. reflexivity.
Qed.

Lemma standardChar_notWhite (c : ascii) :
  standardChar c = true -> notWhite c = true.
Proof.
  unfold standardChar. intro H. apply orb_prop in H. destruct H as [H|H].
  - apply digit_notWhite. exact H.
  - revert c H. apply inClass_forall. reflexivity.
Qed.

Lemma standardChar_notK (c : ascii) :
  standardChar c = true -> notChar "K" c = true.
Proof.
  unfold standardChar. intro H. apply orb_prop in H. destruct H as [H|H].
  - apply digit_notChar; [reflexivity|exact H].
  - revert c H. apply inClass_forall. reflexivity.
Qed.

Lemma matchDigits14_digits (s : string) :
  matchDigits14 s = true -> forallChars isDigit s = true.
Proof. unfold matchDigits14. intro H. apply andb_prop in H. apply H. Qed.

Lemma matchKCode_chars (p u : string) :
  forallChars kCodeChar p = true ->
  matchKCode p u = true -> forallChars kCodeChar u = true.
Proof.
  intros Hp H. unfold matchKCode, startsWith in H.
  apply andb_prop in H. destruct H as [Hpre Hd].
  rewrite (prefix_split p u Hpre), forallChars_app, Hp.
  apply digits_kCodeChars, matchDigits14_digits. exact Hd.
Qed.

Lemma matchStandard_chars (u : string) :
  matchStandard u = true -> forallChars standardChar u = true.
Proof.
  unfold matchStandard. intro H. apply andb_prop in H. destruct H as [_ H].
  rewrite (takeDigits_split u), forallChars_app.
  apply andb_true_intro. split.
  - apply (forallChars_impl isDigit); [|apply takeDigits_digits].
    intros c Hc. unfold standardChar. rewrite Hc. reflexivity.
  - destruct (substringFrom (String.length (takeDigits u)) u) as [|c suffix];
      [discriminate|].
    apply andb_prop in H. destruct H as [Hc Hs].
    cbn [forallChars]. apply andb_true_intro. split.
    + unfold standardChar.
      assert (inClass "TLMNWYSC" c = true) as ->; [|apply orb_true_r].
      revert c Hc. apply inClass_forall. reflexivity.
    + apply inList_In in Hs. simpl in Hs.
      destruct Hs as [<-|[<-|[<-|[<-|[]]]]]; reflexivity.
Qed.

Lemma matchRegional_chars (p u : string) :
  forallChars standardChar p = true ->
  matchRegional p u = true -> forallChars standardChar u = true.
Proof.
  intros Hp H. unfold matchRegional, startsWith in H.
  apply andb_prop in H. destruct H as [Hpre Hs].
  rewrite (prefix_split p u Hpre), forallChars_app, Hp.
  apply matchStandard_chars. exact Hs.
Qed.

Lemma kindCount_one (d : TaxCodeInfo) :
  isSpecialKind d = false \/ isKCodeKind d = false -> kindCount d = 1%nat.
Proof.
  unfold kindCount, isStandardKind.
  intros [H|H]; rewrite H; destruct (isSpecialKind d), (isKCodeKind d);
    try discriminate; reflexivity.
Qed.

Lemma kindCount_one_inv (d : TaxCodeInfo) :
  kindCount d = 1%nat ->
  ~ (specialCodeType d <> None /\ isNegativeAllowance d = true).
Proof.
  unfold kindCount, isStandardKind, isKCodeKind, isSpecialKind.
  intros H [Hs Hk]. rewrite Hk in H.
  destruct (specialCodeType d); [discriminate H|congruence].
Qed.

(** A normalised code of K-code characters has one kind. *)
Lemma kCodeChars_one_kind (u : string) :
  forallChars kCodeChar u = true -> kindCount (parseNormalizedCode u) = 1%nat.
Proof.
  intro H. apply kindCount_one. left. unfold isSpecialKind.
  destruct (kCodeChars_not_special u H) as [-> _]. reflexivity.
Qed.

(** A normalised code of standard-code characters has one kind. *)
Lemma standardChars_one_kind (u : string) :
  forallChars standardChar u = true ->
  kindCount (parseNormalizedCode u) = 1%nat.
Proof.
  intro H. apply kindCount_one. right. unfold isKCodeKind.
  rewrite parseNormalizedCode_isNegativeAllowance.
  apply includes_absent.
  apply (forallChars_impl standardChar); [apply standardChar_notK|exact H].
Qed.

(** C8, counterexample: the input ['KNT'] parses to a descriptor that is both
    a special code (NT) and a K-code. *)
Lemma C8_KNT_special_and_kcode :
  kindCount (parseTaxCode "KNT") <> 1%nat
  /\ specialCodeType (parseTaxCode "KNT") = Some "NT"
  /\ isNegativeAllowance (parseTaxCode "KNT") = true.
Proof. repeat split. discriminate. Qed.

(** C8, as amended: for every input that [validateTaxCode] accepts, exactly
    one of the three kinds (special code, K-code, standard code) applies to
    the descriptor that [parseTaxCode] returns; a special code type and the
    negative-allowance flag are never set together. *)
Theorem C8_valid_code_has_one_kind (taxCode : string) :
  isValid (validateTaxCode taxCode) = true ->
  kindCount (parseTaxCode taxCode) = 1%nat
  /\ ~ (specialCodeType (parseTaxCode taxCode) <> None
        /\ isNegativeAllowance (parseTaxCode taxCode) = true).
Proof.
  intro Hv.
  assert (Hone : kindCount (parseTaxCode taxCode) = 1%nat);
    [|split; [exact Hone | apply kindCount_one_inv; exact Hone]].
  unfold validateTaxCode in Hv. unfold parseTaxCode.
  destruct (String.eqb taxCode "" || String.eqb (trim taxCode) "");
    [reflexivity|].
  set (u := toUpperCase taxCode) in *.
  destruct (matchSpecial u) eqn:Hsp.
  { apply inList_In in Hsp. simpl in Hsp.
    destruct Hsp as [<-|[<-|[<-|[<-|[<-|[]]]]]]; reflexivity. }
  assert (Hk : forall p, forallChars kCodeChar p = true ->
                         matchKCode p u = true ->
                         kindCount (parseNormalizedCode (trim u)) = 1%nat).
  { intros p Hp Hm. pose proof (matchKCode_chars p u Hp Hm) as Hc.
    rewrite trim_id; [apply kCodeChars_one_kind; exact Hc|].
    apply (forallChars_impl kCodeChar); [apply kCodeChar_notWhite|exact Hc]. }
  assert (Hs : forallChars standardChar u = true ->
               kindCount (parseNormalizedCode (trim u)) = 1%nat).
  { intro Hc.
    rewrite trim_id; [apply standardChars_one_kind; exact Hc|].
    apply (forallChars_impl standardChar);
      [apply standardChar_notWhite|exact Hc]. }
  destruct (matchKCode "K" u) eqn:H1; [apply (Hk "K"); auto|].
  destruct (matchKCode "SK" u) eqn:H2; [apply (Hk "SK"); auto|].
  destruct (matchKCode "CK" u) eqn:H3; [apply (Hk "CK"); auto|].
  destruct (matchStandard u) eqn:H4;
    [apply Hs, matchStandard_chars; exact H4|].
  destruct (matchRegional "S" u) eqn:H5;
    [apply Hs, (matchRegional_chars "S"); auto|].
  destruct (matchRegional "C" u) eqn:H6;
    [apply Hs, (matchRegional_chars "C"); auto|].
  discriminate Hv.
Qed.

Lemma C8_valid_code_has_one_kind_witness :
  kindCount (parseTaxCode "SK250") = 1%nat
  /\ ~ (specialCodeType (parseTaxCode "SK250") <> None
        /\ isNegativeAllowance (parseTaxCode "SK250") = true).
Proof. apply (C8_valid_code_has_one_kind "SK250"). reflexivity. Defined.

(** ** Worked examples *)

Example preciseAdd_tenths :
  preciseAdd (Fin (1 # 10)) (Fin (2 # 10)) = Fin (3 # 10).
Proof. reflexivity. Qed.

Example preciseDivide_monthly_share :
  preciseDivide (Fin 50000) (Fin 12) = Fin (416667 # 100).
Proof. reflexivity. Qed.

Example preciseDivide_by_zero : preciseDivide (Fin 5) (Fin 0) = Fin 0.
Proof. reflexivity. Qed.

Example preciseRound_negative_tie :
  preciseRound (Fin (- (5 # 1000))) = Fin (- (1 # 100)).
Proof. reflexivity. Qed.

Example parseInt_leading_zero : parseInt "0123" = 123%Z.
Proof. reflexivity. Qed.

Example parse_lower_case_padded :
  parseTaxCode " sk100 " = parseTaxCode "SK100".
Proof. reflexivity. Qed.

Example parse_month1 :
  baseAllowance (parseTaxCode "1257M1") = Fin 12570
  /\ isNonCumulative (parseTaxCode "1257M1") = true
  /\ hasMarriageAllowance (parseTaxCode "1257M1") = false.
Proof. repeat split; reflexivity. Qed.

Example validate_examples :
  map (fun c => isValid (validateTaxCode c))
    ["1257L"; "S1257L"; "C1257L"; "K100"; "CK100"; "BR"; "NT"; ""; "KNT";
     "1234X"; "K1234X"; "INVALID"]
  = [true; true; true; true; true; true; true; true; false;
     false; false; false].
Proof. reflexivity. Qed.

Example calculateNI_below_threshold : calculateNI (Fin 800) = Fin 0.
Proof. reflexivity. Qed.

Example calculateNI_monthly_share_of_50000 :
  calculateNI (Fin (416667 # 100)) = Fin (3743 # 10).
Proof. reflexivity. Qed.

Example taper_at_120000 :
  calculatePersonalAllowance (Fin 120000) (parseTaxCode "1257L")
    exampleTaxYearData = Fin 2570.
Proof. reflexivity. Qed.

Example kcode_limit_at_8000 :
  applyKCodeLimit (Fin 8000) (parseTaxCode "K500")
    (calculatePersonalAllowance (Fin 8000) (parseTaxCode "K500")
       exampleTaxYearData) = Fin (-4000).
Proof. reflexivity. Qed.

Example monthly_income_tax_of_standard_code :
  map incomeTax
    (monthlyBreakdown
       (calculateTaxDetails (Fin 50000) "1257L" true exampleTaxYearData None))
  = [Fin 0; Fin 0; Fin 0; Fin 0; Fin (12103 # 100); Fin (20483 # 100);
     Fin (26469 # 100); Fin (15479 # 50); Fin (689 # 2); Fin (37243 # 100);
     Fin (39529 # 100); Fin (41433 # 100)].
Proof. vm_compute. reflexivity. Qed.

Example override_freezes_later_months :
  map incomeTax
    (monthlyBreakdown
       (calculateTaxDetails (Fin 50000) "1257L" true exampleTaxYearData
          (Some {| periodType := month_period; periodNumber := 6 |})))
  = [Fin 0; Fin 0; Fin 0; Fin 0; Fin (12103 # 100); Fin (20483 # 100);
     Fin (20483 # 100); Fin (20483 # 100); Fin (20483 # 100);
     Fin (20483 # 100); Fin (20483 # 100); Fin (20483 # 100)].
Proof. vm_compute. reflexivity. Qed.

Example band_amounts_at_120000 :
  map (fun b => (band b, amount b))
    (calculateTaxBands (Fin 120000) (Fin 2570)
       (UK (regions exampleTaxYearData)))
  = [("Personal Allowance", Fin 12570); ("Basic Rate", Fin 37699);
     ("Higher Rate", Fin 69731)].
Proof. vm_compute. reflexivity. Qed.

(** * Further properties *)

(** ** Upper case and trimming *)

Lemma upper_idem (c : ascii) : upper (upper c) = upper c.
Proof. destruct c as [[] [] [] [] [] [] [] []]; reflexivity. Qed.

Lemma isWhite_upper (c : ascii) : isWhite (upper c) = isWhite c.
Proof. destruct c as [[] [] [] [] [] [] [] []]; reflexivity. Qed.

Lemma toUpperCase_idem (s : string) :
  toUpperCase (toUpperCase s) = toUpperCase s.
Proof.
  induction s as [|c r IH]; simpl; [reflexivity|].
  rewrite upper_idem, IH. reflexivity.
Qed.

Lemma toUpperCase_length (s : string) :
  String.length (toUpperCase s) = String.length s.
Proof. induction s as [|c r IH]; simpl; [|rewrite IH]; reflexivity. Qed.

Lemma trimStart_toUpperCase (s : string) :
  trimStart (toUpperCase s) = toUpperCase (trimStart s).
Proof.
  induction s as [|c r IH]; simpl; [reflexivity|].
  rewrite isWhite_upper. destruct (isWhite c); [exact IH|reflexivity].
Qed.

Lemma trimEnd_toUpperCase (s : string) :
  trimEnd (toUpperCase s) = toUpperCase (trimEnd s).
Proof.
  induction s as [|c r IH]; simpl; [reflexivity|].
  rewrite IH, isWhite_upper.
  destruct (trimEnd r); simpl; [destruct (isWhite c)|]; reflexivity.
Qed.

Lemma trim_toUpperCase (s : string) :
  trim (toUpperCase s) = toUpperCase (trim s).
Proof.
  unfold trim. rewrite trimStart_toUpperCase, trimEnd_toUpperCase.
  reflexivity.
Qed.

Lemma trimEnd_cons (c : ascii) (r : string) :
  trimEnd (String c r)
  = match trimEnd r with
    | EmptyString => if isWhite c then EmptyString else String c EmptyString
    | r' => String c r'
    end.
Proof. reflexivity. Qed.

Lemma trimEnd_idem (s : string) : trimEnd (trimEnd s) = trimEnd s.
Proof.
  induction s as [|c r IH]; [reflexivity|].
  rewrite (trimEnd_cons c r).
  destruct (trimEnd r) as [|c' r'] eqn:E.
  - destruct (isWhite c) eqn:W; simpl; [reflexivity|]. rewrite W. reflexivity.
  - rewrite trimEnd_cons, IH. reflexivity.
Qed.

Lemma trimStart_head (s : string) : headNotWhite (trimStart s) = true.
Proof.
  induction s as [|c r IH]; simpl; [reflexivity|].
  destruct (isWhite c) eqn:W; [exact IH|]. simpl. rewrite W. reflexivity.
Qed.

Lemma trimStart_fix (s : string) : headNotWhite s = true -> trimStart s = s.
Proof.
  destruct s as [|c r]; simpl; [reflexivity|].
  destruct (isWhite c); [discriminate|reflexivity].
Qed.

Lemma trimEnd_head (s : string) :
  headNotWhite s = true -> headNotWhite (trimEnd s) = true.
Proof.
  destruct s as [|c r]; simpl; [reflexivity|]. intro H.
  destruct (trimEnd r); [|exact H].
  destruct (isWhite c) eqn:W; [reflexivity|]. simpl. rewrite W. reflexivity.
Qed.

Lemma trim_idem (s : string) : trim (trim s) = trim s.
Proof.
  unfold trim.
  rewrite (trimStart_fix (trimEnd (trimStart s)))
    by (apply trimEnd_head, trimStart_head).
  apply trimEnd_idem.
Qed.

Lemma toUpperCase_empty (s : string) :
  String.eqb (toUpperCase s) "" = String.eqb s "".
Proof. destruct s; reflexivity. Qed.

Lemma isBlank_trim_eq (s : string) : isBlank s = String.eqb (trim s) "".
Proof.
  unfold isBlank. destruct s as [|c r]; [reflexivity|]. reflexivity.
Qed.

Lemma isBlank_toUpperCase (s : string) : isBlank (toUpperCase s) = isBlank s.
Proof.
  rewrite !isBlank_trim_eq, trim_toUpperCase. apply toUpperCase_empty.
Qed.

Lemma isBlank_trim (s : string) : isBlank (trim s) = isBlank s.
Proof. rewrite !isBlank_trim_eq, trim_idem. reflexivity. Qed.

(** X1: [parseTaxCode] ignores the case of letters and surrounding ASCII
    white space. *)
Theorem parseTaxCode_case_and_space_insensitive (taxCode : string) :
  parseTaxCode (toUpperCase taxCode) = parseTaxCode taxCode
  /\ parseTaxCode (trim taxCode) = parseTaxCode taxCode.
Proof.
  unfold parseTaxCode.
  change (String.eqb (toUpperCase taxCode) ""
          || String.eqb (trim (toUpperCase taxCode)) "")
    with (isBlank (toUpperCase taxCode)).
  change (String.eqb (trim taxCode) ""
          || String.eqb (trim (trim taxCode)) "")
    with (isBlank (trim taxCode)).
  change (String.eqb taxCode "" || String.eqb (trim taxCode) "")
    with (isBlank taxCode).
  rewrite isBlank_toUpperCase, isBlank_trim, toUpperCase_idem.
  rewrite (trim_toUpperCase (trim taxCode)), trim_idem, <- trim_toUpperCase.
  split; reflexivity.
Qed.

(** X2: [validateTaxCode] ignores the case of letters. *)
Theorem validateTaxCode_case_insensitive (taxCode : string) :
  validateTaxCode (toUpperCase taxCode) = validateTaxCode taxCode.
Proof.
  unfold validateTaxCode.
  change (String.eqb (toUpperCase taxCode) ""
          || String.eqb (trim (toUpperCase taxCode)) "")
    with (isBlank (toUpperCase taxCode)).
  change (String.eqb taxCode "" || String.eqb (trim taxCode) "")
    with (isBlank taxCode).
  rewrite isBlank_toUpperCase, toUpperCase_idem. reflexivity.
Qed.

(** ** The precision helpers *)

Lemma preciseDivide_Fin (a b : Q) :
  ~ b == 0 ->
  preciseDivide (Fin a) (Fin b) = Fin (toDecimalPlaces2 (a / b)).
Proof.
  intro Hb. unfold preciseDivide. simpl.
  assert (E : Qeq_bool b 0 = false).
  { destruct (Qeq_bool b 0) eqn:E; [|reflexivity].
    apply Qeq_bool_eq in E. contradiction. }
  rewrite E. destruct (orZero_Fin a) as (a' & -> & Ha).
  unfold orZero. simpl. rewrite E. simpl. rewrite E. unfold fin. simpl.
  f_equal. apply toDecimalPlaces2_comp. rewrite Qred_correct, Ha.
  reflexivity.
Qed.

Lemma preciseDivide_Fin_zero (a b : Q) :
  b == 0 -> preciseDivide (Fin a) (Fin b) = Fin 0.
Proof.
  intro Hb. unfold preciseDivide. simpl.
  rewrite (Qeq_eq_bool b 0 Hb). reflexivity.
Qed.

Lemma toDecimalPlaces2_value (q : Q) :
  toDecimalPlaces2 q == inject_Z (round_half_up (q * 100)) * (1 # 100).
Proof.
  unfold toDecimalPlaces2. rewrite Qred_correct.
  unfold Qeq. simpl. lia.
Qed.

Lemma round_half_up_error (x : Q) :
  x - (1 # 2) <= inject_Z (round_half_up x) <= x + (1 # 2).
Proof.
  unfold round_half_up. destruct (Qle_bool 0 x).
  - pose proof (Qfloor_le (x + (1 # 2))) as H1.
    pose proof (Qlt_floor (x + (1 # 2))) as H2.
    rewrite inject_Z_plus in H2. change (inject_Z 1) with 1 in H2. lra.
  - pose proof (Qfloor_le (- x + (1 # 2))) as H1.
    pose proof (Qlt_floor (- x + (1 # 2))) as H2.
    rewrite inject_Z_plus in H2. change (inject_Z 1) with 1 in H2.
    rewrite inject_Z_opp. lra.
Qed.

Lemma toDecimalPlaces2_error (q : Q) : Qabs (toDecimalPlaces2 q - q) <= 1 # 200.
Proof.
  apply Qabs_Qle_condition. rewrite toDecimalPlaces2_value.
  pose proof (round_half_up_error (q * 100)). lra.
Qed.

Lemma toDecimalPlaces2_pence (z : Z) :
  toDecimalPlaces2 (z # 100) = Qred (z # 100).
Proof.
  unfold toDecimalPlaces2. apply Qred_complete.
  rewrite (round_half_up_comp ((z # 100) * 100) (inject_Z z)).
  - rewrite round_half_up_Z. reflexivity.
  - unfold Qeq. simpl. lia.
Qed.

(** X3: the helpers fail soft.  A division by zero gives 0 for every dividend,
    and every helper gives 0 as soon as an operand is NaN. *)
Theorem precise_helpers_fail_soft (a : number) :
  preciseDivide a (Fin 0) = Fin 0
  /\ preciseAdd NaN a = Fin 0 /\ preciseAdd a NaN = Fin 0
  /\ preciseSubtract NaN a = Fin 0 /\ preciseSubtract a NaN = Fin 0
  /\ preciseMultiply NaN a = Fin 0 /\ preciseMultiply a NaN = Fin 0
  /\ preciseDivide NaN a = Fin 0 /\ preciseDivide a NaN = Fin 0
  /\ preciseRound NaN = Fin 0.
Proof.
  repeat split; try reflexivity;
    try (destruct a; reflexivity).
  - unfold preciseDivide. destruct (JS.eqb a (Fin 0)); reflexivity.
Qed.

(** X4: on finite operands every helper returns a finite amount of whole
    pence: rounding the result again changes nothing, also for a zero
    divisor. *)
Theorem precise_results_are_rounded (a b : Q) :
  preciseRound (preciseAdd (Fin a) (Fin b)) = preciseAdd (Fin a) (Fin b)
  /\ preciseRound (preciseSubtract (Fin a) (Fin b))
     = preciseSubtract (Fin a) (Fin b)
  /\ preciseRound (preciseMultiply (Fin a) (Fin b))
     = preciseMultiply (Fin a) (Fin b)
  /\ preciseRound (preciseDivide (Fin a) (Fin b))
     = preciseDivide (Fin a) (Fin b)
  /\ preciseRound (preciseRound (Fin a)) = preciseRound (Fin a).
Proof.
  rewrite preciseAdd_Fin, preciseSubtract_Fin, preciseMultiply_Fin,
    !preciseRound_Fin, !toDecimalPlaces2_idem.
  repeat split.
  destruct (Qeq_dec b 0) as [Hb|Hb].
  - rewrite (preciseDivide_Fin_zero a b Hb). reflexivity.
  - rewrite (preciseDivide_Fin a b Hb), preciseRound_Fin,
      toDecimalPlaces2_idem. reflexivity.
Qed.

(** X6: amounts of whole pence up to 10^14 pence in magnitude (where a
    double determines its pence, sums and differences included) are added
    and subtracted exactly, are left unchanged by [preciseRound], and
    subtracting what was added gives the first amount back. *)
Theorem precise_pence_exact (p q : Z) :
  (Z.abs p <= 10 ^ 14)%Z -> (Z.abs q <= 10 ^ 14)%Z ->
  preciseAdd (Fin (p # 100)) (Fin (q # 100)) = Fin (Qred ((p + q) # 100))
  /\ preciseSubtract (Fin (p # 100)) (Fin (q # 100))
     = Fin (Qred ((p - q) # 100))
  /\ preciseSubtract (preciseAdd (Fin (p # 100)) (Fin (q # 100)))
       (Fin (q # 100))
     = Fin (Qred (p # 100))
  /\ preciseRound (Fin (p # 100)) = Fin (Qred (p # 100))
  /\ (Z.abs (p + q) < 10 ^ 15)%Z /\ (Z.abs (p - q) < 10 ^ 15)%Z.
Proof.
  intros Hp Hq.
  rewrite !preciseAdd_Fin, !preciseSubtract_Fin, preciseRound_Fin.
  split; [|split; [|split; [|split; [|split]]]];
    try (f_equal; rewrite <- toDecimalPlaces2_pence;
         apply toDecimalPlaces2_comp).
  - unfold Qeq. simpl. lia.
  - unfold Qeq. simpl. lia.
  - rewrite (toDecimalPlaces2_comp ((p # 100) + (q # 100)) ((p + q) # 100))
      by (unfold Qeq; simpl; lia).
    rewrite toDecimalPlaces2_pence, Qred_correct.
    unfold Qeq. simpl. lia.
  - reflexivity.
  - lia.
  - lia.
Qed.

Lemma precise_pence_exact_witness :
  preciseAdd (Fin (10 # 100)) (Fin (20 # 100)) = Fin (Qred ((10 + 20) # 100))
  /\ preciseSubtract (Fin (10 # 100)) (Fin (20 # 100))
     = Fin (Qred ((10 - 20) # 100))
  /\ preciseSubtract (preciseAdd (Fin (10 # 100)) (Fin (20 # 100)))
       (Fin (20 # 100))
     = Fin (Qred (10 # 100))
  /\ preciseRound (Fin (10 # 100)) = Fin (Qred (10 # 100))
  /\ (Z.abs (10 + 20) < 10 ^ 15)%Z /\ (Z.abs (10 - 20) < 10 ^ 15)%Z.
Proof. apply (precise_pence_exact 10 20); lia. Defined.

(** X7: rounding keeps the order, on all numbers: if [a <= b] in the order of
    the extended reals then [preciseRound a <= preciseRound b]; on finite
    operands [preciseAdd] is monotone in both operands. *)
Theorem precise_round_and_add_monotone :
  (forall a b : number,
      num_le a b -> num_le (preciseRound a) (preciseRound b))
  /\ (forall a a' b b' : Q,
         a <= a' -> b <= b' ->
         num_le (preciseAdd (Fin a) (Fin b)) (preciseAdd (Fin a') (Fin b'))).
Proof.
  split.
  - intros a b H.
    destruct a as [| | |x]; destruct b as [| | |y]; simpl in H;
      try contradiction; try exact I.
    + rewrite preciseRound_Fin. exact I.
    + rewrite preciseRound_Fin. exact I.
    + rewrite !preciseRound_Fin. simpl. apply toDecimalPlaces2_mono. exact H.
  - intros a a' b b' Ha Hb. rewrite !preciseAdd_Fin. simpl.
    apply toDecimalPlaces2_mono. lra.
Qed.

Lemma precise_round_and_add_monotone_witness :
  num_le (preciseRound (Fin (1 # 3))) (preciseRound (Fin (1 # 2)))
  /\ num_le (preciseAdd (Fin 1) (Fin 2)) (preciseAdd (Fin 2) (Fin 3)).
Proof.
  destruct precise_round_and_add_monotone as [Hr Ha].
  split.
  - apply Hr. unfold num_le, Qle; simpl; lia.
  - apply Ha; unfold Qle; simpl; lia.
Defined.

(** ** Invariants of the descriptor *)

Lemma parseNormalizedCode_flags (u : string) :
  isScottish (parseNormalizedCode u) = startsWith "S" u
  /\ isWelsh (parseNormalizedCode u) = startsWith "C" u
  /\ hasMarriageAllowance (parseNormalizedCode u)
     = negb (includes "K" u) && (endsWith "M" u || endsWith "N" u)
  /\ marriageAllowanceAmount (parseNormalizedCode u)
     = (if hasMarriageAllowance (parseNormalizedCode u)
        then if endsWith "M" u then Fin 1260 else Fin (-1260)
        else Fin 0)
  /\ isNonCumulative (parseNormalizedCode u)
     = endsWith "W1" u || endsWith "M1" u || includes "X" u.
Proof.
  unfold parseNormalizedCode.
  destruct (String.eqb u "BR"); [repeat split|].
  destruct (String.eqb u "D0"); [repeat split|].
  destruct (String.eqb u "D1"); [repeat split|].
  destruct (includes "NT" u); [repeat split|].
  destruct (startsWith "0T" u); repeat split.
Qed.

Lemma startsWith_S_C (u : string) :
  startsWith "S" u && startsWith "C" u = false.
Proof.
  unfold startsWith.
  destruct (String.prefix "S" u) eqn:ES; [|reflexivity].
  destruct (String.prefix "C" u) eqn:EC; [|reflexivity].
  apply prefix_split in ES. apply prefix_split in EC.
  rewrite ES in EC. discriminate EC.
Qed.

(** X8: flags of the descriptor, for every input: the Scottish and the Welsh
    flag are never set together; a marriage allowance is never reported for a
    code that contains K; and the marriage amount is 1260 or -1260 exactly
    when the marriage flag is set, and 0 otherwise. *)
Theorem parseTaxCode_flag_invariants (taxCode : string) :
  let d := parseTaxCode taxCode in
  isScottish d && isWelsh d = false
  /\ (hasMarriageAllowance d = true -> isNegativeAllowance d = false)
  /\ (hasMarriageAllowance d = true ->
      marriageAllowanceAmount d = Fin 1260
      \/ marriageAllowanceAmount d = Fin (-1260))
  /\ (hasMarriageAllowance d = false -> marriageAllowanceAmount d = Fin 0).
Proof.
  unfold parseTaxCode.
  destruct (String.eqb taxCode "" || String.eqb (trim taxCode) "").
  - cbv zeta. repeat split; try discriminate; reflexivity.
  - set (u := trim (toUpperCase taxCode)). cbv zeta.
    destruct (parseNormalizedCode_flags u) as (Hs & Hw & Hm & Ha & _).
    rewrite Hs, Hw, Ha, parseNormalizedCode_isNegativeAllowance.
    split; [apply startsWith_S_C|]. split; [|split].
    + rewrite Hm. intro H. apply andb_prop in H. destruct H as [H _].
      apply negb_true_iff in H. exact H.
    + intros ->. destruct (endsWith "M" u); auto.
    + intros ->. reflexivity.
Qed.

Lemma digitVal_nonneg (c : ascii) :
  isDigit c = true -> (0 <= digitVal c <= 9)%Z.
Proof.
  unfold isDigit, digitVal. intro H. apply andb_prop in H.
  destruct H as [H1 H2]. apply Nat.leb_le in H1. apply Nat.leb_le in H2. lia.
Qed.

Lemma parseDigits_nonneg (s : string) (acc : Z) :
  (0 <= acc)%Z -> forallChars isDigit s = true -> (0 <= parseDigits acc s)%Z.
Proof.
  revert acc. induction s as [|c r IH]; intros acc Hacc H; simpl; [exact Hacc|].
  simpl in H. apply andb_prop in H. destruct H as [Hc Hr].
  apply IH; [|exact Hr]. pose proof (digitVal_nonneg c Hc). lia.
Qed.

Lemma matchDigits_digits (s d : string) :
  matchDigits s = Some d -> forallChars isDigit d = true /\ d <> "".
Proof.
  induction s as [|c r IH]; simpl; [discriminate|].
  destruct (isDigit c) eqn:E; [|exact IH].
  intro H. injection H as <-. split.
  - simpl. rewrite E. apply takeDigits_digits.
  - discriminate.
Qed.

Lemma parseInt_matchDigits_nonneg (s d : string) :
  matchDigits s = Some d -> (0 <= parseInt d)%Z.
Proof.
  intro H. apply matchDigits_digits in H. destruct H as [H _].
  apply parseDigits_nonneg; [lia|exact H].
Qed.

Lemma includes_K_of_prefix (u : string) :
  startsWith "SK" u = true \/ startsWith "K" u = true ->
  includes "K" u = true.
Proof.
  unfold startsWith. intros [H|H]; apply prefix_split in H; rewrite H.
  - exact (includes_K "S" _).
  - exact (includes_K "" _).
Qed.

Lemma parseDigits_bound (s : string) (acc : Z) :
  (0 <= acc)%Z -> forallChars isDigit s = true ->
  (parseDigits acc s < (acc + 1) * 10 ^ Z.of_nat (String.length s))%Z.
Proof.
  revert acc. induction s as [|c r IH]; intros acc Hacc H.
  - simpl. lia.
  - simpl in H. apply andb_prop in H. destruct H as [Hc Hr].
    pose proof (digitVal_nonneg c Hc) as Hv.
    cbn [parseDigits String.length].
    specialize (IH (acc * 10 + digitVal c)%Z ltac:(lia) Hr).
    rewrite Nat2Z.inj_succ, Z.pow_succ_r by lia.
    assert (Hpow : (0 < 10 ^ Z.of_nat (String.length r))%Z)
      by (apply Z.pow_pos_nonneg; lia).
    nia.
Qed.

Lemma takeDigits_length (s : string) :
  (String.length (takeDigits s) <= String.length s)%nat.
Proof.
  induction s as [|c r IH]; [simpl; lia|].
  simpl. destruct (isDigit c); simpl; lia.
Qed.

Lemma matchDigits_length (s d : string) :
  matchDigits s = Some d -> (String.length d <= String.length s)%nat.
Proof.
  induction s as [|c r IH]; [discriminate|].
  simpl. destruct (isDigit c) eqn:E.
  - intro H. injection H as <-. pose proof (takeDigits_length r).
    simpl. lia.
  - intro H. specialize (IH H). lia.
Qed.

Lemma substringFrom_length (n : nat) (s : string) :
  (String.length (substringFrom n s) <= String.length s)%nat.
Proof.
  revert s. induction n as [|n IH]; intro s; [simpl; lia|].
  destruct s as [|c r]; simpl; [lia|]. specialize (IH r). lia.
Qed.

Lemma trimStart_length (s : string) :
  (String.length (trimStart s) <= String.length s)%nat.
Proof.
  induction s as [|c r IH]; [simpl; lia|].
  simpl. destruct (isWhite c); simpl; lia.
Qed.

Lemma trimEnd_length (s : string) :
  (String.length (trimEnd s) <= String.length s)%nat.
Proof.
  induction s as [|c r IH]; [simpl; lia|].
  rewrite trimEnd_cons.
  destruct (trimEnd r) as [|c' r'] eqn:E.
  - destruct (isWhite c); simpl; lia.
  - simpl in *. lia.
Qed.

Lemma trim_length (s : string) :
  (String.length (trim s) <= String.length s)%nat.
Proof.
  unfold trim. pose proof (trimEnd_length (trimStart s)).
  pose proof (trimStart_length s). lia.
Qed.

(** The number read from a run of digits found in a code of at most 15
    characters is below 10^15, where the code's [parseInt] is exact. *)
Lemma parseInt_matchDigits_bound (s d : string) :
  (String.length s <= 15)%nat ->
  matchDigits s = Some d -> (0 <= parseInt d < 10 ^ 15)%Z.
Proof.
  intros Hlen H. pose proof (matchDigits_length _ _ H) as Hd.
  apply matchDigits_digits in H. destruct H as [H _].
  split; [apply parseDigits_nonneg; [lia|exact H]|].
  pose proof (parseDigits_bound d 0 ltac:(lia) H) as Hb.
  unfold parseInt.
  assert (Hp : (10 ^ Z.of_nat (String.length d) <= 10 ^ 15)%Z)
    by (apply Z.pow_le_mono_r; lia).
  lia.
Qed.

(** [parseBaseAllowance] on a code of at most 15 characters returns ten times
    an integer below 10^15 in magnitude, and a negative one only for a code
    that contains K. *)
Lemma parseBaseAllowance_cases (u : string) :
  (String.length u <= 15)%nat ->
  exists n : Z,
    parseBaseAllowance u = ofZ (10 * n)
    /\ (- 10 ^ 15 < n < 10 ^ 15)%Z
    /\ ((n < 0)%Z -> includes "K" u = true).
Proof.
  intro Hlen.
  assert (Hsub : forall k, (String.length (substringFrom k u) <= 15)%nat).
  { intro k. pose proof (substringFrom_length k u). lia. }
  assert (Hpos : forall s d, (String.length s <= 15)%nat ->
            matchDigits s = Some d ->
            exists n : Z,
              (if includes "T" u && negb (inList u ["NT"; "0T"])
               then ofZ (parseInt d * 10) else ofZ (parseInt d * 10))
              = ofZ (10 * n)
              /\ (- 10 ^ 15 < n < 10 ^ 15)%Z
              /\ ((n < 0)%Z -> includes "K" u = true)).
  { intros s d Hs Hd. exists (parseInt d).
    pose proof (parseInt_matchDigits_bound _ _ Hs Hd).
    replace (10 * parseInt d)%Z with (parseInt d * 10)%Z by lia.
    split; [|split; lia]. destruct (includes "T" u && _); reflexivity. }
  assert (Hneg : forall s d, (String.length s <= 15)%nat ->
            matchDigits s = Some d ->
            includes "K" u = true ->
            exists n : Z,
              ofZ (- (parseInt d * 10)) = ofZ (10 * n)
              /\ (- 10 ^ 15 < n < 10 ^ 15)%Z
              /\ ((n < 0)%Z -> includes "K" u = true)).
  { intros s d Hs Hd HK. exists (- parseInt d)%Z.
    pose proof (parseInt_matchDigits_bound _ _ Hs Hd).
    replace (10 * - parseInt d)%Z with (- (parseInt d * 10))%Z by lia.
    split; [reflexivity|]. split; [lia|intros _; exact HK]. }
  assert (Hdef : exists n : Z,
            Fin 12570 = ofZ (10 * n)
            /\ (- 10 ^ 15 < n < 10 ^ 15)%Z
            /\ ((n < 0)%Z -> includes "K" u = true)).
  { exists 1257%Z. split; [reflexivity|]. split; lia. }
  unfold parseBaseAllowance.
  destruct (inList u ["BR"; "D0"; "D1"; "NT"]);
    [exists 0%Z; split; [reflexivity|split; lia]|].
  destruct (startsWith "SK" u) eqn:E1.
  { destruct (matchDigits (substringFrom 2 u)) as [d|] eqn:Ed; [|exact Hdef].
    apply (Hneg _ _ (Hsub 2%nat) Ed).
    apply includes_K_of_prefix. left. exact E1. }
  destruct (startsWith "S" u) eqn:E2.
  { destruct (matchDigits (substringFrom 1 u)) as [d|] eqn:Ed; [|exact Hdef].
    exact (Hpos _ _ (Hsub 1%nat) Ed). }
  destruct (startsWith "C" u) eqn:E3.
  { destruct (matchDigits (substringFrom 1 u)) as [d|] eqn:Ed; [|exact Hdef].
    exact (Hpos _ _ (Hsub 1%nat) Ed). }
  destruct (startsWith "K" u) eqn:E4.
  { destruct (matchDigits (substringFrom 1 u)) as [d|] eqn:Ed; [|exact Hdef].
    apply (Hneg _ _ (Hsub 1%nat) Ed).
    apply includes_K_of_prefix. right. exact E4. }
  destruct (matchDigits u) as [d|] eqn:Ed; [|exact Hdef].
  exact (Hpos _ _ Hlen Ed).
Qed.

(** X9: the base allowance of the descriptor, for every input of at most 15
    characters (where the number read from the code is below 10^15 and the
    code's [parseInt] is exact): it is plus infinity exactly when the special
    code type is NT, and otherwise ten times an integer below 10^15 in
    magnitude (never NaN, never minus infinity); it is negative only when
    the negative-allowance flag is set. *)
Theorem parseTaxCode_allowance_invariants (taxCode : string) :
  (String.length taxCode <= 15)%nat ->
  let d := parseTaxCode taxCode in
  (baseAllowance d = PInf <-> specialCodeType d = Some "NT")
  /\ (baseAllowance d = PInf
      \/ exists n : Z,
           baseAllowance d = ofZ (10 * n)
           /\ (- 10 ^ 15 < n < 10 ^ 15)%Z
           /\ ((n < 0)%Z -> isNegativeAllowance d = true)).
Proof.
  intro Hlen. unfold parseTaxCode.
  destruct (String.eqb taxCode "" || String.eqb (trim taxCode) "").
  { cbv zeta. split; [split; discriminate|].
    right. exists 1257%Z. split; [reflexivity|]. split; lia. }
  set (u := trim (toUpperCase taxCode)). cbv zeta.
  assert (Hu : (String.length u <= 15)%nat).
  { subst u. pose proof (trim_length (toUpperCase taxCode)) as H.
    rewrite toUpperCase_length in H. lia. }
  rewrite parseNormalizedCode_isNegativeAllowance.
  unfold parseNormalizedCode.
  destruct (String.eqb u "BR").
  { cbn. split; [split; discriminate|].
    right. exists 0%Z. split; [reflexivity|]. split; lia. }
  destruct (String.eqb u "D0").
  { cbn. split; [split; discriminate|].
    right. exists 0%Z. split; [reflexivity|]. split; lia. }
  destruct (String.eqb u "D1").
  { cbn. split; [split; discriminate|].
    right. exists 0%Z. split; [reflexivity|]. split; lia. }
  destruct (includes "NT" u).
  { cbn. split; [split; reflexivity|]. left. reflexivity. }
  destruct (startsWith "0T" u).
  { cbn. split; [split; discriminate|].
    right. exists 0%Z. split; [reflexivity|]. split; lia. }
  cbn [baseAllowance specialCodeType].
  destruct (parseBaseAllowance_cases u Hu) as (n & Hn & Hb & Hk).
  rewrite Hn. split; [split; discriminate|].
  right. exists n. split; [reflexivity|]. split; [exact Hb|exact Hk].
Qed.

Lemma parseTaxCode_allowance_invariants_witness :
  let d := parseTaxCode "sk100" in
  (baseAllowance d = PInf <-> specialCodeType d = Some "NT")
  /\ (baseAllowance d = PInf
      \/ exists n : Z,
           baseAllowance d = ofZ (10 * n)
           /\ (- 10 ^ 15 < n < 10 ^ 15)%Z
           /\ ((n < 0)%Z -> isNegativeAllowance d = true)).
Proof. apply (parseTaxCode_allowance_invariants "sk100"). simpl. lia. Defined.

(** ** The validator *)

Lemma validateTaxCode_isValid (s : string) :
  isValid (validateTaxCode s)
  = isBlank s
    || matchSpecial (toUpperCase s)
    || matchKCode "K" (toUpperCase s)
    || matchKCode "SK" (toUpperCase s)
    || matchKCode "CK" (toUpperCase s)
    || matchStandard (toUpperCase s)
    || matchRegional "S" (toUpperCase s)
    || matchRegional "C" (toUpperCase s).
Proof.
  unfold validateTaxCode, isBlank.
  destruct (String.eqb s "" || String.eqb (trim s) ""); [reflexivity|].
  cbv zeta.
  destruct (matchSpecial _); [reflexivity|].
  destruct (matchKCode "K" _); [reflexivity|].
  destruct (matchKCode "SK" _); [reflexivity|].
  destruct (matchKCode "CK" _); [reflexivity|].
  destruct (matchStandard _); [reflexivity|].
  destruct (matchRegional "S" _); [reflexivity|].
  destruct (matchRegional "C" _); reflexivity.
Qed.

Lemma kCodeChar_codeChar (c : ascii) : kCodeChar c = true -> codeChar c = true.
Proof.
  unfold kCodeChar, codeChar. intro H. apply orb_prop in H.
  destruct H as [->|H]; [reflexivity|]. apply orb_true_iff. right.
  revert H. apply inClass_forall. reflexivity.
Qed.

Lemma standardChar_codeChar (c : ascii) :
  standardChar c = true -> codeChar c = true.
Proof.
  unfold standardChar, codeChar. intro H. apply orb_prop in H.
  destruct H as [->|H]; [reflexivity|]. apply orb_true_iff. right.
  revert H. apply inClass_forall. reflexivity.
Qed.

Lemma codeChar_notWhite (c : ascii) : codeChar c = true -> notWhite c = true.
Proof.
  unfold codeChar. intro H. apply orb_prop in H. destruct H as [H|H].
  - apply digit_notWhite. exact H.
  - revert H. apply inClass_forall. reflexivity.
Qed.

Lemma forallChars_notWhite_toUpperCase (s : string) :
  forallChars notWhite (toUpperCase s) = forallChars notWhite s.
Proof.
  induction s as [|c r IH]; [reflexivity|].
  simpl. unfold notWhite at 1 3. rewrite isWhite_upper, IH. reflexivity.
Qed.

Lemma validateTaxCode_chars (s : string) :
  isBlank s = false ->
  isValid (validateTaxCode s) = true ->
  forallChars codeChar (toUpperCase s) = true.
Proof.
  intros Hb Hv. rewrite validateTaxCode_isValid, Hb in Hv.
  set (u := toUpperCase s) in *. simpl in Hv.
  assert (Hk : forall p, forallChars kCodeChar p = true ->
                         matchKCode p u = true ->
                         forallChars codeChar u = true).
  { intros p Hp Hm. apply (forallChars_impl kCodeChar);
      [apply kCodeChar_codeChar|]. exact (matchKCode_chars p u Hp Hm). }
  assert (Hs : forallChars standardChar u = true ->
               forallChars codeChar u = true).
  { apply forallChars_impl. apply standardChar_codeChar. }
  destruct (matchSpecial u) eqn:Hsp.
  { apply inList_In in Hsp. simpl in Hsp.
    destruct Hsp as [<-|[<-|[<-|[<-|[<-|[]]]]]]; reflexivity. }
  destruct (matchKCode "K" u) eqn:H1; [apply (Hk "K"); auto|].
  destruct (matchKCode "SK" u) eqn:H2; [apply (Hk "SK"); auto|].
  destruct (matchKCode "CK" u) eqn:H3; [apply (Hk "CK"); auto|].
  destruct (matchStandard u) eqn:H4;
    [apply Hs, matchStandard_chars; exact H4|].
  destruct (matchRegional "S" u) eqn:H5;
    [apply Hs, (matchRegional_chars "S"); auto|].
  destruct (matchRegional "C" u) eqn:H6;
    [apply Hs, (matchRegional_chars "C"); auto|].
  discriminate Hv.
Qed.

(** X10: a non-blank code that [validateTaxCode] accepts consists, after
    upper-casing, of digits and the letters B C D K L M N R S T W Y only; in
    particular it contains no white space, so that a code with a leading or
    trailing blank is rejected although [parseTaxCode] would trim it. *)
Theorem validateTaxCode_accepts_code_characters_only (taxCode : string) :
  isBlank taxCode = false ->
  isValid (validateTaxCode taxCode) = true ->
  forallChars codeChar (toUpperCase taxCode) = true
  /\ forallChars notWhite taxCode = true
  /\ trim taxCode = taxCode.
Proof.
  intros Hb Hv. pose proof (validateTaxCode_chars _ Hb Hv) as Hc.
  assert (Hw : forallChars notWhite taxCode = true).
  { rewrite <- forallChars_notWhite_toUpperCase.
    apply (forallChars_impl codeChar); [apply codeChar_notWhite|exact Hc]. }
  split; [exact Hc|]. split; [exact Hw|]. apply trim_id. exact Hw.
Qed.

Lemma validateTaxCode_accepts_code_characters_only_witness :
  forallChars codeChar (toUpperCase "s1257l") = true
  /\ forallChars notWhite "s1257l" = true
  /\ trim "s1257l" = "s1257l".
Proof.
  apply (validateTaxCode_accepts_code_characters_only "s1257l");
    reflexivity.
Defined.

(** ** validateAndProcessTaxCode *)

Lemma startsWith_app (p r : string) : startsWith p (p ++ r) = true.
Proof.
  unfold startsWith. induction p as [|c p IH]; simpl; [apply prefix_nil|].
  destruct (ascii_dec c c); [exact IH|contradiction].
Qed.

Lemma startsWith_longer (p q u : string) :
  startsWith (p ++ q) u = true -> startsWith p u = true.
Proof.
  unfold startsWith. revert u.
  induction p as [|c p IH]; intros u H; [apply prefix_nil|].
  destruct u as [|d r]; simpl in *; [discriminate|].
  destruct (ascii_dec c d); [apply IH; exact H|discriminate].
Qed.

Lemma startsWith_head (c d : ascii) (p u : string) :
  c <> d -> startsWith (String c p) (String d u) = false.
Proof.
  intro H. unfold startsWith. simpl.
  destruct (ascii_dec c d); [contradiction|reflexivity].
Qed.

Lemma splitPrefix_cases (u : string) :
  (exists p rest, In p ["K"; "SK"; "CK"]
                  /\ u = p ++ rest
                  /\ splitPrefix u = (regionOfKPrefix p, true, rest))
  \/ (startsWith "K" u = false /\ startsWith "SK" u = false
      /\ startsWith "CK" u = false
      /\ exists rest,
           splitPrefix u
           = (if startsWith "S" u then Processing.Scotland
              else if startsWith "C" u then Processing.Wales
              else Processing.UK,
              false, rest)).
Proof.
  unfold splitPrefix.
  destruct (startsWith "SK" u) eqn:E1.
  { left. exists "SK", (substringFrom 2 u). split; [simpl; auto|].
    split; [|reflexivity]. apply prefix_split in E1. exact E1. }
  destruct (startsWith "CK" u) eqn:E2.
  { left. exists "CK", (substringFrom 2 u). split; [simpl; auto|].
    split; [|reflexivity]. apply prefix_split in E2. exact E2. }
  destruct (startsWith "S" u) eqn:E3.
  { right. apply prefix_split in E3. rewrite E3.
    repeat split. eexists. reflexivity. }
  destruct (startsWith "C" u) eqn:E4.
  { right. apply prefix_split in E4. rewrite E4.
    repeat split. eexists. reflexivity. }
  destruct (startsWith "K" u) eqn:E5.
  { left. exists "K", (substringFrom 1 u). split; [simpl; auto|].
    split; [|reflexivity]. apply prefix_split in E5. exact E5. }
  right. repeat split. eexists. reflexivity.
Qed.

Lemma kcode_string_facts (p ds : string) :
  In p ["K"; "SK"; "CK"] ->
  forallChars isDigit ds = true ->
  toUpperCase (p ++ ds) = p ++ ds /\ trim (p ++ ds) = p ++ ds.
Proof.
  intros Hp Hd.
  assert (Hk : forallChars kCodeChar (p ++ ds) = true).
  { rewrite forallChars_app, (digits_kCodeChars ds Hd), andb_true_r.
    simpl in Hp. destruct Hp as [<-|[<-|[<-|[]]]]; reflexivity. }
  split.
  - apply toUpperCase_id. revert Hk. apply forallChars_impl.
    intros c Hc. unfold kCodeChar in Hc. apply orb_prop in Hc.
    destruct Hc as [Hc|Hc]; [apply digit_notLower; exact Hc|].
    revert Hc. apply inClass_forall. reflexivity.
  - apply trim_id. revert Hk. apply forallChars_impl.
    apply kCodeChar_notWhite.
Qed.

Lemma matchDigits13_spec (ds : string) :
  forallChars isDigit ds = true -> ds <> "" ->
  matchDigits13 ds = (String.length ds <=? 3)%nat.
Proof.
  intros Hd Hne. unfold matchDigits13, lengthBetween. rewrite Hd, andb_true_r.
  destruct ds; [contradiction|reflexivity].
Qed.

Lemma matchDigits14_spec (ds : string) :
  forallChars isDigit ds = true -> ds <> "" ->
  matchDigits14 ds = (String.length ds <=? 4)%nat.
Proof.
  intros Hd Hne. unfold matchDigits14, lengthBetween. rewrite Hd, andb_true_r.
  destruct ds; [contradiction|reflexivity].
Qed.

Lemma regionBands_nonempty
    (UK_TAX_REGIONS : list Processing.Region) (region : Processing.RegionName) :
  UK_TAX_REGIONS <> [] ->
  exists b, regionBands UK_TAX_REGIONS region = Some b
            /\ In b (map Processing.bands UK_TAX_REGIONS).
Proof.
  intro Hne. unfold regionBands, findBands.
  destruct (find _ UK_TAX_REGIONS) as [r|] eqn:E.
  - exists (Processing.bands r). split; [reflexivity|].
    apply find_some in E. apply in_map. apply E.
  - destruct UK_TAX_REGIONS as [|r0 rest]; [contradiction|].
    exists (Processing.bands r0). split; [reflexivity|]. left. reflexivity.
Qed.

Lemma splitPrefix_kcode (p ds : string) :
  In p ["K"; "SK"; "CK"] ->
  splitPrefix (p ++ ds) = (regionOfKPrefix p, true, ds)
  /\ isSpecialCode (p ++ ds) = false.
Proof.
  intro Hp. simpl in Hp. unfold splitPrefix, startsWith.
  destruct Hp as [<-|[<-|[<-|[]]]]; simpl; rewrite ?prefix_nil;
    split; reflexivity.
Qed.

Lemma validateAndProcessTaxCode_kcode_aux
    (UK_TAX_REGIONS : list Processing.Region)
    (toLocaleString : number -> string) (p ds : string) :
  UK_TAX_REGIONS <> [] ->
  In p ["K"; "SK"; "CK"] ->
  forallChars isDigit ds = true -> ds <> "" ->
  isValid (validateTaxCode (p ++ ds)) = (String.length ds <=? 4)%nat
  /\ exists r,
       validateAndProcessTaxCode UK_TAX_REGIONS toLocaleString (p ++ ds)
       = Some r
       /\ Processing.valid r = (String.length ds <=? 3)%nat
       /\ Processing.isKCode r = true
       /\ Processing.region r = regionOfKPrefix p
       /\ (Processing.valid r = true ->
           Processing.allowance r = ofZ (- (parseInt ds * 10))).
Proof.
  intros Hrs Hp Hd Hne.
  destruct (kcode_string_facts p ds Hp Hd) as [Hu Ht].
  pose proof (matchDigits13_spec ds Hd Hne) as H13.
  pose proof (matchDigits14_spec ds Hd Hne) as H14.
  destruct (splitPrefix_kcode p ds Hp) as [Hsp Hnsp].
  assert (Hb : isBlank (p ++ ds) = false).
  { unfold isBlank. rewrite Ht. simpl in Hp.
    destruct Hp as [<-|[<-|[<-|[]]]]; reflexivity. }
  split.
  - rewrite validateTaxCode_isValid, Hu, Hb.
    unfold matchKCode, matchSpecial, matchRegional, matchStandard.
    simpl in Hp. destruct Hp as [<-|[<-|[<-|[]]]]; simpl;
      unfold startsWith; rewrite prefix_nil, H14, !orb_false_r;
      reflexivity.
  - unfold validateAndProcessTaxCode.
    change (String.eqb (p ++ ds) "" || String.eqb (trim (p ++ ds)) "")
      with (isBlank (p ++ ds)).
    rewrite Hb, Hu, Ht. cbv zeta. rewrite Hsp. cbv iota beta.
    rewrite H13. unfold processedAllowance. rewrite Hnsp.
    destruct (String.length ds <=? 3)%nat.
    + destruct (regionBands_nonempty UK_TAX_REGIONS (regionOfKPrefix p) Hrs)
        as (b & -> & _).
      cbn [andb negb]. eexists. split; [reflexivity|]. repeat split.
    + cbn [andb negb]. eexists. split; [reflexivity|].
      repeat split. discriminate.
Qed.

(** X11: K codes in [validateAndProcessTaxCode] and [validateTaxCode].  For
    a prefix K, SK or CK followed by a non-empty string of digits, and a
    non-empty region table: [validateTaxCode] accepts up to four digits, but
    [validateAndProcessTaxCode] accepts up to three only; it always returns a
    result flagged as K code with the region of the prefix (UK, Scotland,
    Wales), and an accepted code gets minus ten times its number as
    allowance, for the Welsh prefix too. *)
Theorem validateAndProcessTaxCode_kcode
    (UK_TAX_REGIONS : list Processing.Region)
    (toLocaleString : number -> string) (p ds : string) :
  UK_TAX_REGIONS <> [] ->
  In p ["K"; "SK"; "CK"] ->
  forallChars isDigit ds = true -> ds <> "" ->
  isValid (validateTaxCode (p ++ ds)) = (String.length ds <=? 4)%nat
  /\ exists r,
       validateAndProcessTaxCode UK_TAX_REGIONS toLocaleString (p ++ ds)
       = Some r
       /\ Processing.valid r = (String.length ds <=? 3)%nat
       /\ Processing.isKCode r = true
       /\ Processing.region r = regionOfKPrefix p
       /\ (Processing.valid r = true ->
           Processing.allowance r = ofZ (- (parseInt ds * 10))).
Proof. apply validateAndProcessTaxCode_kcode_aux. Qed.

Lemma validateAndProcessTaxCode_kcode_witness :
  isValid (validateTaxCode ("CK" ++ "100")) = (String.length "100" <=? 4)%nat
  /\ exists r,
       validateAndProcessTaxCode exampleRegions exampleToLocaleString
         ("CK" ++ "100") = Some r
       /\ Processing.valid r = (String.length "100" <=? 3)%nat
       /\ Processing.isKCode r = true
       /\ Processing.region r = regionOfKPrefix "CK"
       /\ (Processing.valid r = true ->
           Processing.allowance r = ofZ (- (parseInt "100" * 10))).
Proof.
  apply (validateAndProcessTaxCode_kcode exampleRegions
           exampleToLocaleString "CK" "100").
  - discriminate.
  - simpl. auto.
  - reflexivity.
  - discriminate.
Defined.

Lemma includes_skip_digits (k : ascii) (p ds r : string) :
  isDigit k = false ->
  forallChars isDigit ds = true ->
  includes (String k p) (ds ++ r) = includes (String k p) r.
Proof.
  intros Hk. induction ds as [|d ds IH]; intro Hd; [reflexivity|].
  simpl in Hd. apply andb_prop in Hd. destruct Hd as [Hd Hds].
  change (includes (String k p) (String d ds ++ r))
    with (startsWith (String k p) (String d (ds ++ r))
          || includes (String k p) (ds ++ r)).
  rewrite startsWith_head; [exact (IH Hds)|].
  intros ->. rewrite Hd in Hk. discriminate.
Qed.

Lemma inClass_In (cls : string) (c : ascii) :
  inClass cls c = true -> In c (list_ascii_of_string cls).
Proof.
  induction cls as [|d r IH]; simpl; [discriminate|].
  intro H. apply orb_prop in H. destruct H as [H|H].
  - left. apply Ascii.eqb_eq in H. symmetry. exact H.
  - right. apply IH. exact H.
Qed.

Lemma matchStandard_no_NT (u : string) :
  matchStandard u = true -> includes "NT" u = false.
Proof.
  unfold matchStandard. intro H. apply andb_prop in H. destruct H as [_ H].
  rewrite (takeDigits_split u).
  rewrite includes_skip_digits; [|reflexivity|apply takeDigits_digits].
  destruct (substringFrom _ u) as [|c suffix]; [discriminate|].
  apply andb_prop in H. destruct H as [Hc Hs].
  apply inClass_In in Hc. apply inList_In in Hs. simpl in Hc, Hs.
  destruct Hs as [<-|[<-|[<-|[<-|[]]]]];
    destruct Hc as [<-|[<-|[<-|[<-|[<-|[<-|[]]]]]]]; reflexivity.
Qed.

Lemma matchRegional_no_NT (p u : string) :
  In p ["S"; "C"] -> matchRegional p u = true -> includes "NT" u = false.
Proof.
  intros Hp H. unfold matchRegional in H. apply andb_prop in H.
  destruct H as [H1 H2]. apply prefix_split in H1. rewrite H1.
  apply matchStandard_no_NT in H2. revert H2.
  generalize (substringFrom (String.length p) u). intros v Hv.
  simpl in Hp. destruct Hp as [<-|[<-|[]]]; simpl; exact Hv.
Qed.

Lemma matchDigits_after_letter (c : ascii) (u : string) :
  isDigit c = false ->
  startsWith (String c "") u = true ->
  matchDigits (substringFrom 1 u) = matchDigits u.
Proof.
  intros Hc H. apply prefix_split in H. simpl in H.
  rewrite H at 2. simpl. rewrite Hc. reflexivity.
Qed.

(** Outside the K prefixes [parseBaseAllowance] reads the first run of
    digits of the whole code. *)
Lemma parseBaseAllowance_not_K (u : string) :
  inList u ["BR"; "D0"; "D1"; "NT"] = false ->
  startsWith "SK" u = false ->
  startsWith "K" u = false ->
  parseBaseAllowance u
  = match matchDigits u with
    | Some digits => ofZ (parseInt digits * 10)
    | None => Fin 12570
    end.
Proof.
  intros H1 H2 H3. unfold parseBaseAllowance. rewrite H1, H2, H3.
  destruct (startsWith "S" u) eqn:ES.
  { rewrite (matchDigits_after_letter "S" u); [|reflexivity|exact ES].
    destruct (matchDigits u); [|reflexivity].
    cbn [inList String.eqb Ascii.eqb Bool.eqb orb andb].
    destruct (includes "T" u && _); reflexivity. }
  destruct (startsWith "C" u) eqn:EC.
  { rewrite (matchDigits_after_letter "C" u); [|reflexivity|exact EC].
    destruct (matchDigits u); [|reflexivity].
    cbn [inList String.eqb Ascii.eqb Bool.eqb orb andb].
    destruct (includes "T" u && _); reflexivity. }
  destruct (matchDigits u); [|reflexivity].
  cbn [inList String.eqb Ascii.eqb Bool.eqb orb andb].
  destruct (includes "T" u && _); reflexivity.
Qed.

(** The base allowance of the parser on a code without K prefix that is a
    special code or passes the validator. *)
Lemma parseNormalizedCode_processedAllowance (u : string) :
  startsWith "SK" u = false ->
  startsWith "K" u = false ->
  includes "NT" u = false \/ u = "NT" ->
  baseAllowance (parseNormalizedCode u) = processedAllowance u false u.
Proof.
  intros H1 H2 H3. unfold processedAllowance, isSpecialCode.
  destruct (String.eqb u "BR") eqn:E1;
    [apply String.eqb_eq in E1; subst u; reflexivity|].
  destruct (String.eqb u "D0") eqn:E2;
    [apply String.eqb_eq in E2; subst u; reflexivity|].
  destruct (String.eqb u "D1") eqn:E3;
    [apply String.eqb_eq in E3; subst u; reflexivity|].
  destruct (String.eqb u "NT") eqn:E4;
    [apply String.eqb_eq in E4; subst u; reflexivity|].
  destruct H3 as [H3|H3]; [|subst u; discriminate E4].
  destruct (String.eqb u "0T") eqn:E5;
    [apply String.eqb_eq in E5; subst u; reflexivity|].
  cbn [inList]. rewrite E1, E2, E3, E4, E5. cbn [orb].
  destruct (startsWith "0T" u) eqn:E6.
  - unfold parseNormalizedCode. rewrite E1, E2, E3, H3, E6.
    apply prefix_split in E6. rewrite E6. reflexivity.
  - destruct (parseNormalizedCode_not_special u E1 E2 E3 H3 E6) as [_ ->].
    apply parseBaseAllowance_not_K; [|exact H1|exact H2].
    cbn [inList]. rewrite E1, E2, E3, E4. reflexivity.
Qed.

Lemma parseTaxCode_nonblank (taxCode : string) :
  isBlank taxCode = false ->
  parseTaxCode taxCode = parseNormalizedCode (trim (toUpperCase taxCode)).
Proof.
  intro H. unfold parseTaxCode. fold (isBlank taxCode). rewrite H.
  reflexivity.
Qed.

Lemma normalized_fixed (taxCode : string) :
  isBlank (trim (toUpperCase taxCode)) = isBlank taxCode
  /\ toUpperCase (trim (toUpperCase taxCode)) = trim (toUpperCase taxCode).
Proof.
  split.
  - rewrite isBlank_trim, isBlank_toUpperCase. reflexivity.
  - rewrite <- trim_toUpperCase, toUpperCase_idem. reflexivity.
Qed.

Lemma accepted_without_K_prefix (u : string) :
  isSpecialCode u = true \/ isValid (validateTaxCode u) = true ->
  isBlank u = false ->
  toUpperCase u = u ->
  startsWith "K" u = false ->
  startsWith "SK" u = false ->
  startsWith "CK" u = false ->
  includes "K" u = false /\ (includes "NT" u = false \/ u = "NT").
Proof.
  intros H Hb Hu HK HSK HCK.
  assert (Hsp : isSpecialCode u = true ->
                includes "K" u = false
                /\ (includes "NT" u = false \/ u = "NT")).
  { intro Hs. apply inList_In in Hs. simpl in Hs.
    destruct Hs as [<-|[<-|[<-|[<-|[<-|[]]]]]]; split; auto. }
  destruct H as [H|H]; [exact (Hsp H)|].
  rewrite validateTaxCode_isValid, Hb, Hu in H.
  unfold matchKCode in H. rewrite HK, HSK, HCK in H.
  cbn [orb andb] in H.
  destruct (matchSpecial u) eqn:E0; [exact (Hsp E0)|].
  assert (Hst : forallChars standardChar u = true ->
                includes "K" u = false).
  { intro Hc. apply includes_absent.
    apply (forallChars_impl standardChar); [apply standardChar_notK|exact Hc]. }
  cbn [orb] in H.
  destruct (matchStandard u) eqn:E1.
  { split; [apply Hst, matchStandard_chars; exact E1|].
    left. apply matchStandard_no_NT. exact E1. }
  destruct (matchRegional "S" u) eqn:E2.
  { split; [apply Hst, (matchRegional_chars "S"); auto|].
    left. apply (matchRegional_no_NT "S"); simpl; auto. }
  destruct (matchRegional "C" u) eqn:E3; [|discriminate H].
  split; [apply Hst, (matchRegional_chars "C"); auto|].
  left. apply (matchRegional_no_NT "C"); simpl; auto.
Qed.

(** X12: [validateAndProcessTaxCode] against [parseTaxCode], on every input
    for which a result is returned: the region is Scotland exactly when the
    parser sets the Scottish flag and Wales exactly when it sets the Welsh
    flag; for an accepted code the K-code flag equals the parser's
    negative-allowance flag, and when the code is not a K code the allowance
    is the parser's base allowance. *)
Theorem validateAndProcessTaxCode_agrees_with_parser
    (UK_TAX_REGIONS : list Processing.Region)
    (toLocaleString : number -> string)
    (taxCode : string) (r : Processing.TaxCodeProcessingResult) :
  validateAndProcessTaxCode UK_TAX_REGIONS toLocaleString taxCode = Some r ->
  let d := parseTaxCode taxCode in
  (Processing.region r = Processing.Scotland <-> isScottish d = true)
  /\ (Processing.region r = Processing.Wales <-> isWelsh d = true)
  /\ (Processing.valid r = true ->
      Processing.isKCode r = isNegativeAllowance d)
  /\ (Processing.valid r = true -> Processing.isKCode r = false ->
      Processing.allowance r = baseAllowance d).
Proof.
  intros H d. subst d. unfold validateAndProcessTaxCode in H.
  fold (isBlank taxCode) in H.
  destruct (isBlank taxCode) eqn:Hb.
  { injection H as <-. unfold parseTaxCode. fold (isBlank taxCode).
    rewrite Hb. cbn. repeat split; discriminate. }
  rewrite (parseTaxCode_nonblank _ Hb).
  destruct (normalized_fixed taxCode) as [Hbu Huu]. rewrite Hb in Hbu.
  set (u := trim (toUpperCase taxCode)) in *. cbv zeta in H.
  destruct (parseNormalizedCode_flags u) as (Hs & Hw & _).
  rewrite Hs, Hw, parseNormalizedCode_isNegativeAllowance.
  destruct (splitPrefix_cases u) as
    [(p & rest & Hp & Hu & Hsp)|(HK & HSK & HCK & rest & Hsp)].
  - rewrite Hsp in H. cbv iota beta in H.
    assert (Hinc : includes "K" u = true).
    { rewrite Hu. simpl in Hp. destruct Hp as [<-|[<-|[<-|[]]]].
      - exact (includes_K "" rest).
      - exact (includes_K "S" rest).
      - exact (includes_K "C" rest). }
    assert (Hreg : (regionOfKPrefix p = Processing.Scotland
                    <-> startsWith "S" u = true)
                   /\ (regionOfKPrefix p = Processing.Wales
                       <-> startsWith "C" u = true)).
    { rewrite Hu. unfold startsWith. simpl in Hp.
      destruct Hp as [<-|[<-|[<-|[]]]]; simpl; rewrite ?prefix_nil;
        repeat split; intro; try discriminate; reflexivity. }
    destruct Hreg as [HrS HrW].
    destruct (matchDigits13 rest); cbn [andb negb] in H.
    + destruct (regionBands _ _); [|discriminate H].
      injection H as <-. cbn. rewrite Hinc.
      split; [exact HrS|]. split; [exact HrW|].
      split; [reflexivity|]. intros _ Hf. discriminate Hf.
    + injection H as <-. cbn.
      split; [exact HrS|]. split; [exact HrW|].
      split; discriminate.
  - rewrite Hsp in H. cbv iota beta in H. cbn [andb negb] in H.
    assert (Hreg : ((if startsWith "S" u then Processing.Scotland
                     else if startsWith "C" u then Processing.Wales
                     else Processing.UK) = Processing.Scotland
                    <-> startsWith "S" u = true)
                   /\ ((if startsWith "S" u then Processing.Scotland
                        else if startsWith "C" u then Processing.Wales
                        else Processing.UK) = Processing.Wales
                       <-> startsWith "C" u = true)).
    { pose proof (startsWith_S_C u) as HSC.
      destruct (startsWith "S" u), (startsWith "C" u);
        try discriminate HSC;
        repeat split; intro; try discriminate; reflexivity. }
    destruct Hreg as [HrS HrW].
    destruct (negb (isSpecialCode u)
              && negb (isValid (validateTaxCode u))) eqn:Hinv.
    + injection H as <-. cbn.
      split; [exact HrS|]. split; [exact HrW|]. split; discriminate.
    + destruct (regionBands _ _); [|discriminate H].
      injection H as <-. cbn.
      split; [exact HrS|]. split; [exact HrW|].
      assert (Hacc : isSpecialCode u = true
                     \/ isValid (validateTaxCode u) = true).
      { destruct (isSpecialCode u); [left; reflexivity|].
        destruct (isValid (validateTaxCode u)); [right; reflexivity|].
        discriminate Hinv. }
      destruct (accepted_without_K_prefix u Hacc Hbu Huu HK HSK HCK)
        as [HnoK HnoNT].
      split; [intros _; symmetry; exact HnoK|]. intros _ _.
      rewrite (parseNormalizedCode_processedAllowance u HSK HK HnoNT).
      reflexivity.
Qed.

Lemma validateAndProcessTaxCode_agrees_with_parser_witness :
  exists r,
    validateAndProcessTaxCode exampleRegions exampleToLocaleString " s1257l "
    = Some r
    /\ Processing.allowance r = Fin 12570
    /\ (Processing.region r = Processing.Scotland
        <-> isScottish (parseTaxCode " s1257l ") = true)
    /\ (Processing.region r = Processing.Wales
        <-> isWelsh (parseTaxCode " s1257l ") = true)
    /\ (Processing.valid r = true ->
        Processing.isKCode r = isNegativeAllowance (parseTaxCode " s1257l "))
    /\ (Processing.valid r = true -> Processing.isKCode r = false ->
        Processing.allowance r = baseAllowance (parseTaxCode " s1257l ")).
Proof.
  eexists. split; [reflexivity|]. split; [reflexivity|].
  apply (validateAndProcessTaxCode_agrees_with_parser exampleRegions
           exampleToLocaleString " s1257l ").
  reflexivity.
Defined.

Lemma substringFrom_app (p r : string) :
  substringFrom (String.length p) (p ++ r) = r.
Proof. induction p as [|c p IH]; [destruct r; reflexivity|exact IH]. Qed.

Lemma matchDigits13_14 (s : string) :
  matchDigits13 s = true -> matchDigits14 s = true.
Proof.
  unfold matchDigits13, matchDigits14, lengthBetween. intro H.
  apply andb_prop in H. destruct H as [H ->]. apply andb_prop in H.
  destruct H as [-> H]. apply Nat.leb_le in H. simpl.
  rewrite andb_true_r. apply Nat.leb_le. lia.
Qed.

Lemma regionBands_In
    (UK_TAX_REGIONS : list Processing.Region) (region : Processing.RegionName)
    (b : list Band) :
  regionBands UK_TAX_REGIONS region = Some b ->
  In b (map Processing.bands UK_TAX_REGIONS).
Proof.
  unfold regionBands, findBands.
  destruct (find _ UK_TAX_REGIONS) as [r|] eqn:E; simpl.
  - intro H. injection H as <-. apply find_some in E. apply in_map. apply E.
  - destruct UK_TAX_REGIONS as [|r0 rest]; [discriminate|].
    intro H. injection H as <-. left. reflexivity.
Qed.

Lemma regionBands_None
    (UK_TAX_REGIONS : list Processing.Region) (region : Processing.RegionName) :
  regionBands UK_TAX_REGIONS region = None -> UK_TAX_REGIONS = [].
Proof.
  intro H. destruct UK_TAX_REGIONS as [|r0 rest]; [reflexivity|].
  destruct (regionBands_nonempty (r0 :: rest) region) as (b & Hb & _);
    [discriminate|]. rewrite Hb in H. discriminate H.
Qed.

(** X13: results of [validateAndProcessTaxCode], for every input: the call
    fails (the TypeError of reading [UK_TAX_REGIONS[0]]) only when the region
    table is empty; and a result flagged valid is never given for a blank
    code, only for a code that [validateTaxCode] accepts once trimmed, and
    carries the bands of one of the table's entries. *)
Theorem validateAndProcessTaxCode_results
    (UK_TAX_REGIONS : list Processing.Region)
    (toLocaleString : number -> string) (taxCode : string) :
  (validateAndProcessTaxCode UK_TAX_REGIONS toLocaleString taxCode = None ->
   UK_TAX_REGIONS = [])
  /\ forall r,
       validateAndProcessTaxCode UK_TAX_REGIONS toLocaleString taxCode
       = Some r ->
       Processing.valid r = true ->
       isBlank taxCode = false
       /\ isValid (validateTaxCode (trim taxCode)) = true
       /\ exists b, Processing.taxBands r = Some b
                    /\ In b (map Processing.bands UK_TAX_REGIONS).
Proof.
  unfold validateAndProcessTaxCode. fold (isBlank taxCode).
  destruct (isBlank taxCode) eqn:Hb.
  { split; [discriminate|]. intros r H Hv. injection H as <-.
    discriminate Hv. }
  destruct (normalized_fixed taxCode) as [Hbu Huu]. rewrite Hb in Hbu.
  assert (Hval : isValid (validateTaxCode (trim taxCode))
                 = isValid (validateTaxCode (trim (toUpperCase taxCode)))).
  { rewrite !validateTaxCode_isValid, Huu, Hbu, isBlank_trim, Hb,
      <- trim_toUpperCase. reflexivity. }
  rewrite Hval. clear Hval.
  set (u := trim (toUpperCase taxCode)) in *. cbv zeta.
  destruct (splitPrefix_cases u) as
    [(p & rest & Hp & Hu & Hsp)|(HK & HSK & HCK & rest & Hsp)];
    rewrite Hsp; cbv iota beta.
  - destruct (matchDigits13 rest) eqn:H13; cbn [andb negb].
    + destruct (regionBands _ _) as [b|] eqn:Hrb.
      * split; [discriminate|]. intros r H _. injection H as <-. cbn.
        split; [reflexivity|]. split.
        -- rewrite validateTaxCode_isValid, Huu, Hbu.
           assert (Hm : matchKCode p u = true).
           { unfold matchKCode. rewrite Hu, startsWith_app, substringFrom_app.
             apply matchDigits13_14. exact H13. }
           simpl in Hp. destruct Hp as [<-|[<-|[<-|[]]]];
             rewrite Hm, ?orb_true_r; reflexivity.
        -- exists b. split; [reflexivity|].
           exact (regionBands_In _ _ _ Hrb).
      * split; [|discriminate]. intros _.
        exact (regionBands_None _ _ Hrb).
    + split; [discriminate|]. intros r H Hv. injection H as <-.
      discriminate Hv.
  - cbn [andb negb].
    destruct (negb (isSpecialCode u)
              && negb (isValid (validateTaxCode u))) eqn:Hinv.
    + split; [discriminate|]. intros r H Hv. injection H as <-.
      discriminate Hv.
    + destruct (regionBands _ _) as [b|] eqn:Hrb.
      * split; [discriminate|]. intros r H _. injection H as <-. cbn.
        split; [reflexivity|]. split.
        -- destruct (isValid (validateTaxCode u)) eqn:Hv; [reflexivity|].
           destruct (isSpecialCode u) eqn:Hs; [|discriminate Hinv].
           rewrite validateTaxCode_isValid in Hv.
           rewrite Huu in Hv. unfold isSpecialCode in Hs.
           unfold matchSpecial in Hv. rewrite Hs, orb_true_r in Hv.
           discriminate Hv.
        -- exists b. split; [reflexivity|].
           exact (regionBands_In _ _ _ Hrb).
      * split; [|discriminate]. intros _.
        exact (regionBands_None _ _ Hrb).
Qed.

(** ** The NI threshold handler *)

Lemma validateThresholdValue_Some (value : option number) (v : number) :
  validateThresholdValue value = Some v ->
  value = Some v /\ thresholdOk v = true.
Proof.
  unfold validateThresholdValue, thresholdOk.
  destruct value as [w|]; [|discriminate].
  destruct (isNaN w || JS.lt w (Fin 0)) eqn:E; [discriminate|].
  intro H. injection H as <-. rewrite E. split; reflexivity.
Qed.

Lemma validateThresholdValue_ok (v : number) :
  validateThresholdValue (Some v) = if thresholdOk v then Some v else None.
Proof.
  unfold validateThresholdValue, thresholdOk.
  destruct (isNaN v || JS.lt v (Fin 0)); reflexivity.
Qed.

Lemma validateThresholdGroup_ok
    (group : option PartialGroup) (def g : ThresholdGroup) :
  groupOk def = true ->
  validateThresholdGroup group def = Some g -> groupOk g = true.
Proof.
  intros Hd. unfold validateThresholdGroup.
  destruct group as [pg|]; [|intro H; injection H as <-; exact Hd].
  destruct (validateThresholdValue (pWEEKLY pg)) as [w|] eqn:Ew;
    [|discriminate].
  destruct (validateThresholdValue (pMONTHLY pg)) as [m|] eqn:Em;
    [|discriminate].
  destruct (validateThresholdValue (pANNUAL pg)) as [a|] eqn:Ea;
    [|discriminate].
  intro H. injection H as <-. unfold groupOk. simpl.
  apply validateThresholdValue_Some in Ew, Em, Ea.
  destruct Ew as [_ ->], Em as [_ ->], Ea as [_ ->]. reflexivity.
Qed.

Lemma validateNIThresholds_result_valid_aux
    (thresholds : option PartialThresholds) :
  thresholdsOk (validateNIThresholds thresholds) = true.
Proof.
  unfold validateNIThresholds.
  destruct thresholds as [t|]; [|reflexivity].
  destruct (validateThresholdGroup (pPRIMARY_THRESHOLD t) _) as [p|] eqn:Ep;
    [|reflexivity].
  destruct (validateThresholdGroup (pUPPER_EARNINGS_LIMIT t) _) as [u|] eqn:Eu;
    [|reflexivity].
  unfold thresholdsOk. simpl.
  apply validateThresholdGroup_ok in Ep; [|reflexivity].
  apply validateThresholdGroup_ok in Eu; [|reflexivity].
  rewrite Ep, Eu. reflexivity.
Qed.

(** X14: whatever is passed to [validateNIThresholds] (nothing, a partial or a
    complete object, with any numbers in it), no threshold of the result is
    NaN or negative. *)
Theorem validateNIThresholds_result_valid
    (thresholds : option PartialThresholds) :
  thresholdsOk (validateNIThresholds thresholds) = true.
Proof. apply validateNIThresholds_result_valid_aux. Qed.

Lemma validateThresholdGroup_complete (g def : ThresholdGroup) :
  validateThresholdGroup (Some (asPartialGroup g)) def
  = if groupOk g then Some g else None.
Proof.
  unfold validateThresholdGroup, asPartialGroup, groupOk.
  cbn [pWEEKLY pMONTHLY pANNUAL].
  rewrite !validateThresholdValue_ok.
  destruct g as [w m a]. cbn [WEEKLY MONTHLY ANNUAL].
  destruct (thresholdOk w), (thresholdOk m), (thresholdOk a); reflexivity.
Qed.

(** X15: a complete set of thresholds is returned unchanged when none of its
    six values is NaN or negative; as soon as one value is, all six are
    replaced by the defaults.  Hence the result of a call is a fixed point. *)
Theorem validateNIThresholds_complete_input (t : NIThresholds) :
  validateNIThresholds (Some (asPartial t))
  = (if thresholdsOk t then t else DEFAULT_THRESHOLDS)
  /\ forall input,
       validateNIThresholds (Some (asPartial (validateNIThresholds input)))
       = validateNIThresholds input.
Proof.
  assert (H : forall t,
             validateNIThresholds (Some (asPartial t))
             = if thresholdsOk t then t else DEFAULT_THRESHOLDS).
  { clear t. intro t. unfold validateNIThresholds, asPartial, thresholdsOk.
    cbn [pPRIMARY_THRESHOLD pUPPER_EARNINGS_LIMIT].
    rewrite !validateThresholdGroup_complete.
    destruct t as [p u]. cbn [PRIMARY_THRESHOLD UPPER_EARNINGS_LIMIT].
    destruct (groupOk p), (groupOk u); reflexivity. }
  split; [apply H|]. intro input.
  rewrite H, validateNIThresholds_result_valid_aux. reflexivity.
Qed.

(** ** National Insurance *)

Lemma toDecimalPlaces2_bounds (q : Q) :
  q - (1 # 200) <= toDecimalPlaces2 q <= q + (1 # 200).
Proof.
  pose proof (toDecimalPlaces2_error q) as H.
  apply Qabs_Qle_condition in H. lra.
Qed.

Lemma toDecimalPlaces2_eq (a b : Q) :
  toDecimalPlaces2 a == toDecimalPlaces2 b ->
  toDecimalPlaces2 a = toDecimalPlaces2 b.
Proof.
  intro H. rewrite <- (toDecimalPlaces2_idem a), <- (toDecimalPlaces2_idem b).
  apply toDecimalPlaces2_comp. exact H.
Qed.

Lemma niMainQ_middle (x : Q) :
  2095 # 2 < x -> x <= 25135 # 6 ->
  niMainQ x = toDecimalPlaces2 (toDecimalPlaces2 (x - (2095 # 2)) * (12 # 100)).
Proof.
  intros H1 H2. unfold niMainQ.
  rewrite (proj2 (Qlt_bool_iff _ _) H1).
  assert (Hq : qmin (toDecimalPlaces2 (x - (2095 # 2)))
                 (toDecimalPlaces2 ((25135 # 6) - (2095 # 2)))
               = toDecimalPlaces2 (x - (2095 # 2))).
  { unfold qmin.
    destruct (JS.Qlt_bool (toDecimalPlaces2 _) _) eqn:E; [|reflexivity].
    apply Qlt_bool_iff in E.
    assert (toDecimalPlaces2 (x - (2095 # 2))
            <= toDecimalPlaces2 ((25135 # 6) - (2095 # 2)))
      by (apply toDecimalPlaces2_mono; lra).
    lra. }
  rewrite Hq.
  rewrite (toDecimalPlaces2_comp (0 + _)
             (toDecimalPlaces2 (toDecimalPlaces2 (x - (2095 # 2)) * (12 # 100))))
    by lra.
  apply toDecimalPlaces2_idem.
Qed.

Lemma niMainQ_above (x : Q) : 25135 # 6 <= x -> niMainQ x = 377.
Proof.
  intro H. unfold niMainQ.
  assert (H1 : 2095 # 2 < x) by lra.
  rewrite (proj2 (Qlt_bool_iff _ _) H1).
  assert (Hq : qmin (toDecimalPlaces2 (x - (2095 # 2)))
                 (toDecimalPlaces2 ((25135 # 6) - (2095 # 2)))
               = toDecimalPlaces2 ((25135 # 6) - (2095 # 2))).
  { unfold qmin.
    destruct (JS.Qlt_bool (toDecimalPlaces2 _) _) eqn:E; [reflexivity|].
    apply Qlt_bool_false_iff in E.
    assert (toDecimalPlaces2 ((25135 # 6) - (2095 # 2))
            <= toDecimalPlaces2 (x - (2095 # 2)))
      by (apply toDecimalPlaces2_mono; lra).
    apply toDecimalPlaces2_eq. lra. }
  rewrite Hq. vm_compute. reflexivity.
Qed.

(** X16: [calculateNI] by range of the monthly pay x.  Between the primary
    threshold 1047.50 and the upper earnings limit 4189.1666... it is 12% of
    the rounded excess over the threshold, rounded; above the upper limit the
    main-rate part is the constant 377.00 and 2% of the rounded excess over
    the limit is added. *)
Theorem calculateNI_by_range (x : Q) :
  (2095 # 2 < x -> x <= 25135 # 6 ->
   calculateNI (Fin x)
   = Fin (toDecimalPlaces2
            (toDecimalPlaces2 (x - (2095 # 2)) * (12 # 100))))
  /\ (25135 # 6 < x ->
      calculateNI (Fin x)
      = Fin (toDecimalPlaces2
               (377 + toDecimalPlaces2
                        (toDecimalPlaces2 (x - (25135 # 6)) * (2 # 100))))).
Proof.
  split.
  - intros H1 H2. rewrite calculateNI_positive by lra. f_equal.
    unfold niQ, niUpperQ.
    rewrite (proj2 (Qlt_bool_false_iff _ _) H2).
    rewrite niMainQ_middle by assumption.
    apply toDecimalPlaces2_idem.
  - intros H1. rewrite calculateNI_positive by lra. f_equal.
    unfold niQ, niUpperQ.
    rewrite niMainQ_above by lra.
    rewrite (proj2 (Qlt_bool_iff _ _) H1).
    apply toDecimalPlaces2_idem.
Qed.

Lemma calculateNI_by_range_witness :
  calculateNI (Fin 3000)
  = Fin (toDecimalPlaces2
           (toDecimalPlaces2 (3000 - (2095 # 2)) * (12 # 100)))
  /\ calculateNI (Fin 5000)
     = Fin (toDecimalPlaces2
              (377 + toDecimalPlaces2
                       (toDecimalPlaces2 (5000 - (25135 # 6)) * (2 # 100)))).
Proof.
  split.
  - apply (proj1 (calculateNI_by_range 3000));
      [reflexivity | unfold Qle; simpl; lia].
  - apply (proj2 (calculateNI_by_range 5000)). reflexivity.
Defined.

(** X17: for a monthly pay x that is not negative, [calculateNI] returns a
    finite amount between 0 and 12% of x. *)
Theorem calculateNI_at_most_main_rate (x : Q) :
  0 <= x ->
  exists n : Q,
    calculateNI (Fin x) = Fin n /\ 0 <= n /\ n <= (12 # 100) * x.
Proof.
  intro Hx.
  destruct (Qlt_le_dec 0 x) as [Hpos|Hz].
  2:{ exists 0. split; [|lra].
      assert (E : x == 0) by lra.
      unfold calculateNI. simpl.
      rewrite (Qeq_eq_bool x 0 E). reflexivity. }
  exists (niQ x). split; [apply calculateNI_positive; exact Hpos|].
  split; [apply niQ_nonneg|].
  destruct (Qlt_le_dec (2095 # 2) x) as [H1|H1].
  2:{ rewrite niQ_below_primary by exact H1. lra. }
  destruct (Qlt_le_dec (25135 # 6) x) as [H2|H2].
  - unfold niQ, niUpperQ. rewrite niMainQ_above by lra.
    rewrite (proj2 (Qlt_bool_iff _ _) H2).
    rewrite toDecimalPlaces2_idem.
    pose proof (toDecimalPlaces2_bounds (x - (25135 # 6))) as B1.
    pose proof (toDecimalPlaces2_bounds
                  (toDecimalPlaces2 (x - (25135 # 6)) * (2 # 100))) as B2.
    pose proof (toDecimalPlaces2_bounds
                  (377 + toDecimalPlaces2
                           (toDecimalPlaces2 (x - (25135 # 6)) * (2 # 100))))
      as B3.
    lra.
  - unfold niQ, niUpperQ.
    rewrite (proj2 (Qlt_bool_false_iff _ _) H2).
    rewrite niMainQ_middle by assumption.
    rewrite toDecimalPlaces2_idem.
    pose proof (toDecimalPlaces2_bounds (x - (2095 # 2))) as B1.
    pose proof (toDecimalPlaces2_bounds
                  (toDecimalPlaces2 (x - (2095 # 2)) * (12 # 100))) as B2.
    lra.
Qed.

Lemma calculateNI_at_most_main_rate_witness :
  exists n : Q,
    calculateNI (Fin 3000) = Fin n /\ 0 <= n /\ n <= (12 # 100) * 3000.
Proof.
  apply (calculateNI_at_most_main_rate 3000). unfold Qle; simpl; lia.
Defined.

(** ** The orchestrator *)

Lemma monthlyBreakdown_length
    (annualSalary : number) (taxCode : string) (isCumulative : bool)
    (taxYearData : TaxYearData) :
  List.length
    (monthlyBreakdown
       (calculateTaxDetails annualSalary taxCode isCumulative taxYearData None))
  = 12%nat.
Proof.
  unfold calculateTaxDetails. cbn [monthlyBreakdown applyCurrentPeriod].
  rewrite length_map. reflexivity.
Qed.

(** X18: the override of the current period.  When the index of the current
    month lies in 0..11, every later month of the breakdown shows the income
    tax, the National Insurance and the net pay of the current month as
    computed without the override. *)
Theorem current_period_later_months
    (annualSalary : number) (taxCode : string) (isCumulative : bool)
    (taxYearData : TaxYearData) (cp : CurrentPeriod) (i : nat) :
  (0 <= periodIndex cp)%Z ->
  (periodIndex cp < Z.of_nat i)%Z ->
  (i < 12)%nat ->
  let r := calculateTaxDetails annualSalary taxCode isCumulative taxYearData
             (Some cp) in
  let r0 := calculateTaxDetails annualSalary taxCode isCumulative taxYearData
              None in
  exists current m,
    nth_error (monthlyBreakdown r0) (Z.to_nat (periodIndex cp)) = Some current
    /\ nth_error (monthlyBreakdown r) (Z.to_nat (periodIndex cp)) = Some current
    /\ nth_error (monthlyBreakdown r) i = Some m
    /\ incomeTax m = incomeTax current
    /\ nationalInsurance m = nationalInsurance current
    /\ netPay m = netPay current.
Proof.
  intros Hlo Hlt Hi r r0.
  assert (Hr : monthlyBreakdown r
               = applyCurrentPeriod (Some cp) (monthlyBreakdown r0))
    by (apply monthlyBreakdown_override).
  assert (Hlen : List.length (monthlyBreakdown r0) = 12%nat)
    by (apply monthlyBreakdown_length).
  destruct (applyCurrentPeriod_in_range cp (monthlyBreakdown r0))
    as (current & Hcur & Hnth); [rewrite Hlen; lia|].
  destruct (nth_error (monthlyBreakdown r0) i) as [m0|] eqn:Hm0.
  2:{ apply nth_error_None in Hm0. lia. }
  exists current, (freezeTo current m0).
  split; [exact Hcur|]. rewrite Hr, !Hnth, Hcur, Hm0. unfold frozenAt.
  rewrite Nat.leb_refl.
  assert ((i <=? Z.to_nat (periodIndex cp))%nat = false) as ->
    by (apply Nat.leb_gt; lia).
  repeat split.
Qed.

Lemma current_period_later_months_witness :
  let r := calculateTaxDetails (Fin 50000) "1257L" true exampleTaxYearData
             (Some {| periodType := week_period; periodNumber := 30 |}) in
  let r0 := calculateTaxDetails (Fin 50000) "1257L" true exampleTaxYearData
              None in
  exists current m,
    nth_error (monthlyBreakdown r0) 5 = Some current
    /\ nth_error (monthlyBreakdown r) 5 = Some current
    /\ nth_error (monthlyBreakdown r) 9 = Some m
    /\ incomeTax m = incomeTax current
    /\ nationalInsurance m = nationalInsurance current
    /\ netPay m = netPay current.
Proof.
  apply (current_period_later_months (Fin 50000) "1257L" true
           exampleTaxYearData
           {| periodType := week_period; periodNumber := 30 |} 9).
  - vm_compute. discriminate.
  - vm_compute. reflexivity.
  - lia.
Defined.

Lemma week_index_negative (n : Z) :
  (n < 5)%Z ->
  (Qfloor (inject_Z n / ((52 # 1) / (12 # 1))) - 1 < 0)%Z.
Proof.
  intro H.
  assert (E : inject_Z n / ((52 # 1) / (12 # 1)) == inject_Z n * (3 # 13))
    by field.
  rewrite E.
  assert (Hq : inject_Z n * (3 # 13) < 1).
  { assert (inject_Z n <= inject_Z 4) by (rewrite <- Zle_Qle; lia).
    change (inject_Z 4) with 4 in *. lra. }
  pose proof (Qfloor_le (inject_Z n * (3 # 13))) as Hf.
  assert (Hz : inject_Z (Qfloor (inject_Z n * (3 # 13))) < inject_Z 1)
    by (change (inject_Z 1) with 1; lra).
  rewrite <- Zlt_Qlt in Hz. lia.
Qed.

(** X19: a current period given as a week before week 5 (whose month index
    [Math.floor(n / (52/12)) - 1] is negative), and more generally a current
    period whose month index lies outside 0..11, changes nothing: the result
    is that of the call without a current period. *)
Theorem current_period_out_of_range_ignored
    (annualSalary : number) (taxCode : string) (isCumulative : bool)
    (taxYearData : TaxYearData) (cp : CurrentPeriod) :
  (periodType cp = week_period /\ (periodNumber cp < 5)%Z)
  \/ (periodIndex cp < 0)%Z \/ (12 <= periodIndex cp)%Z ->
  calculateTaxDetails annualSalary taxCode isCumulative taxYearData (Some cp)
  = calculateTaxDetails annualSalary taxCode isCumulative taxYearData None.
Proof.
  intro H.
  assert (Hout : (periodIndex cp < 0)%Z \/ (12 <= periodIndex cp)%Z).
  { destruct H as [[Ht Hn]|H]; [|exact H].
    left. unfold periodIndex. rewrite Ht. apply week_index_negative.
    exact Hn. }
  pose proof (monthlyBreakdown_length annualSalary taxCode isCumulative
                taxYearData) as Hlen.
  pose proof (monthlyBreakdown_override annualSalary taxCode isCumulative
                taxYearData (Some cp)) as Hr.
  rewrite applyCurrentPeriod_out_of_range in Hr by (rewrite Hlen; lia).
  revert Hr. unfold calculateTaxDetails. cbn [monthlyBreakdown].
  intro Hr. rewrite Hr. reflexivity.
Qed.

Lemma current_period_out_of_range_ignored_witness :
  calculateTaxDetails (Fin 50000) "1257L" true exampleTaxYearData
    (Some {| periodType := week_period; periodNumber := 4 |})
  = calculateTaxDetails (Fin 50000) "1257L" true exampleTaxYearData None.
Proof.
  apply (current_period_out_of_range_ignored (Fin 50000) "1257L" true
           exampleTaxYearData
           {| periodType := week_period; periodNumber := 4 |}).
  left. split; [reflexivity|simpl; lia].
Defined.

Lemma calculateNI_shape (a : number) :
  calculateNI a = PInf \/ exists z : Z, calculateNI a = Fin (Qred (z # 100)).
Proof.
  destruct a as [| | |x].
  - right. exists 0%Z. reflexivity.
  - left. reflexivity.
  - right. exists 0%Z. reflexivity.
  - right. destruct (Qlt_le_dec 0 x) as [H|H].
    + rewrite (calculateNI_positive x H). unfold niQ, toDecimalPlaces2.
      eexists. reflexivity.
    + rewrite (calculateNI_nonpositive x H). exists 0%Z. reflexivity.
Qed.

Lemma preciseAdd_pence (a z : Z) :
  preciseAdd (Fin (Qred (a # 100))) (Fin (Qred (z # 100)))
  = Fin (Qred ((a + z) # 100)).
Proof.
  rewrite preciseAdd_Fin. f_equal.
  rewrite <- (toDecimalPlaces2_pence (a + z)). apply toDecimalPlaces2_comp.
  rewrite !Qred_correct. unfold Qeq, Qplus. simpl. lia.
Qed.

Lemma preciseMultiply_pence_Z (z k : Z) :
  preciseMultiply (Fin (Qred (z # 100))) (ofZ k)
  = Fin (Qred ((k * z) # 100)).
Proof.
  unfold ofZ. rewrite preciseMultiply_Fin. f_equal.
  rewrite <- (toDecimalPlaces2_pence (k * z)). apply toDecimalPlaces2_comp.
  rewrite !Qred_correct. unfold Qeq, Qmult, inject_Z. simpl. lia.
Qed.

Lemma fold_preciseAdd_pence {A : Type} (l : list A) (a z : Z) :
  fold_left (fun sum _ => preciseAdd sum (Fin (Qred (z # 100)))) l
    (Fin (Qred (a # 100)))
  = Fin (Qred ((a + Z.of_nat (List.length l) * z) # 100)).
Proof.
  revert a. induction l as [|x l IH]; intro a.
  - simpl. do 2 f_equal. f_equal. lia.
  - cbn [fold_left]. rewrite preciseAdd_pence, IH. do 3 f_equal.
    cbn [List.length]. lia.
Qed.

Lemma fold_preciseAdd_PInf {A : Type} (l : list A) (acc : number) :
  l <> [] -> acc = Fin 0 \/ acc = PInf ->
  fold_left (fun sum _ => preciseAdd sum PInf) l acc = PInf.
Proof.
  revert acc. induction l as [|x l IH]; intros acc Hne Hacc; [contradiction|].
  cbn [fold_left].
  assert (E : preciseAdd acc PInf = PInf)
    by (destruct Hacc as [->| ->]; reflexivity).
  rewrite E. destruct l as [|y l']; [reflexivity|].
  apply IH; [discriminate|right; reflexivity].
Qed.

Lemma annualNI_fold
    (isCumulative : bool) (taxRegion : TaxRegion) (taxYearData : TaxYearData)
    (monthlyGross monthlyAllowance : number) (l : list nat) (acc : number) :
  fold_left (fun sum m => preciseAdd sum (nationalInsurance m))
    (map (monthDetail isCumulative taxRegion taxYearData
            monthlyGross monthlyAllowance) l) acc
  = fold_left (fun sum _ => preciseAdd sum (calculateNI monthlyGross)) l acc.
Proof.
  revert acc. induction l as [|i l IH]; intro acc; [reflexivity|].
  cbn [map fold_left]. rewrite IH. reflexivity.
Qed.

(** X20: National Insurance in the result of [calculateTaxDetails], for every
    input.  With n = calculateNI(preciseDivide(annualSalary, 12)): the annual
    total is n times 12 (rounded to pence, which changes nothing for the
    pence amount n); in the NI band breakdown the Main Rate band carries the
    whole of it (n * 12), the other two bands carry tax 0 even above the
    upper earnings limit, and the three amounts are NaN, because the
    breakdown computes with the threshold groups (objects) of
    [NI_THRESHOLDS] where numbers are needed. *)
Theorem annual_NI_and_NI_bands
    (annualSalary : number) (taxCode : string) (isCumulative : bool)
    (taxYearData : TaxYearData) (cp : option CurrentPeriod) :
  let r := calculateTaxDetails annualSalary taxCode isCumulative taxYearData
             cp in
  let n := calculateNI (preciseDivide annualSalary (Fin 12)) in
  totalNI (annualSummary r) = preciseMultiply n (Fin 12)
  /\ exists b1 b2 b3,
       niBands r = [b1; b2; b3]
       /\ tax b1 = Fin 0
       /\ tax b2 = JS.mul n (Fin 12)
       /\ preciseRound (tax b2) = totalNI (annualSummary r)
       /\ tax b3 = Fin 0
       /\ amount b1 = NaN /\ amount b2 = NaN /\ amount b3 = NaN.
Proof.
  intros r n.
  assert (Htot : totalNI (annualSummary r) = preciseMultiply n (Fin 12)).
  { subst r n. unfold calculateTaxDetails.
    cbn [annualSummary totalNI]. rewrite annualNI_fold.
    rewrite calculateNI_clampSalary.
    destruct (calculateNI_shape (preciseDivide annualSalary (Fin 12)))
      as [->|[z ->]].
    - rewrite fold_preciseAdd_PInf;
        [reflexivity|discriminate|left; reflexivity].
    - change (Fin 0) with (Fin (Qred (0 # 100))).
      rewrite fold_preciseAdd_pence.
      change (Fin 12) with (ofZ 12). rewrite preciseMultiply_pence_Z.
      reflexivity. }
  split; [exact Htot|]. rewrite Htot. clear Htot.
  subst r. unfold calculateTaxDetails. cbn [niBands]. unfold calculateNIBands.
  do 3 eexists. split; [reflexivity|].
  cbn [tax amount]. rewrite calculateNI_clampSalary. fold n.
  split; [reflexivity|]. split; [reflexivity|]. split; [|split].
  - subst n.
    destruct (calculateNI_shape (preciseDivide annualSalary (Fin 12)))
      as [->|[z ->]]; [reflexivity|].
    change (Fin 12) with (ofZ 12). rewrite preciseMultiply_pence_Z.
    unfold JS.mul, ofZ, fin. rewrite preciseRound_Fin. f_equal.
    rewrite <- (toDecimalPlaces2_pence (12 * z)). apply toDecimalPlaces2_comp.
    rewrite !Qred_correct. unfold Qeq, Qmult, inject_Z.
    cbn [Qnum Qden]. lia.
  - unfold groupToNumber, JS.gt.
    destruct (clampSalary annualSalary); reflexivity.
  - unfold groupToNumber.
    destruct (clampSalary annualSalary); repeat split.
Qed.

(** ** Income tax and the band breakdown *)

Lemma min_max_unlimited (r : number) :
  JS.lt r (Fin 0) = false ->
  JS.min (JS.max (Fin 0) r) r = JS.min (JS.max (Fin 0) r) PInf.
Proof.
  destruct r as [| | |q]; try reflexivity; try discriminate.
  unfold JS.lt, JS.max, JS.lt. intro H.
  destruct (JS.Qlt_bool 0 q) eqn:E.
  - unfold JS.min, JS.lt.
    assert (JS.Qlt_bool q q = false) as -> by (apply Qlt_bool_false_iff; lra).
    reflexivity.
  - unfold JS.min, JS.lt. rewrite H. reflexivity.
Qed.

Lemma le_false_lt_false (a b : number) :
  JS.le a b = false -> JS.lt a b = false.
Proof. unfold JS.le. intro H. apply orb_false_elim in H. apply H. Qed.

Lemma incomeTaxLoop_bands (bs : list Band) (r total : number) :
  JS.lt r (Fin 0) = false ->
  incomeTaxLoop bs r total
  = fold_left (fun sum b => preciseAdd sum (tax b))
      (calculateTaxBandsLoop bs r) total.
Proof.
  revert r total. induction bs as [|b rest IH]; intros r total Hr;
    [reflexivity|].
  cbn [incomeTaxLoop calculateTaxBandsLoop].
  assert (E : JS.min (JS.max (Fin 0) r)
                (match to b with
                 | ToString _ => r
                 | ToNumber t => JS.sub t (from b)
                 end)
              = JS.min (JS.max (Fin 0) r)
                  (match to b with
                   | ToString _ => PInf
                   | ToNumber t => JS.sub t (from b)
                   end)).
  { destruct (to b); [reflexivity|]. apply min_max_unlimited. exact Hr. }
  rewrite E. cbv zeta.
  destruct (JS.le (preciseSubtract r _) (Fin 0)) eqn:Hle.
  - reflexivity.
  - cbn [fold_left tax]. apply IH. apply le_false_lt_false. exact Hle.
Qed.

(** X21: the income tax and the band breakdown agree.  For an amount that is
    not negative (NaN and +Infinity included) and any band table,
    [calculateIncomeTax] is the rounded sum of the [tax] entries that
    [calculateTaxBands] lists for the same amount. *)
Theorem calculateIncomeTax_is_sum_of_bands
    (x personalAllowance : number) (taxRegion : TaxRegion)
    (taxYearData : TaxYearData) :
  JS.lt x (Fin 0) = false ->
  calculateIncomeTax x taxRegion taxYearData
  = preciseRound (sumBandTax (calculateTaxBands x personalAllowance taxRegion)).
Proof.
  intro H. unfold calculateIncomeTax, calculateTaxBands, sumBandTax.
  rewrite incomeTaxLoop_bands by exact H. reflexivity.
Qed.

Lemma calculateIncomeTax_is_sum_of_bands_witness :
  calculateIncomeTax (Fin 60000) (UK (regions exampleTaxYearData))
    exampleTaxYearData
  = preciseRound
      (sumBandTax
         (calculateTaxBands (Fin 60000) (Fin 12570)
            (UK (regions exampleTaxYearData)))).
Proof.
  apply (calculateIncomeTax_is_sum_of_bands (Fin 60000) (Fin 12570)
           (UK (regions exampleTaxYearData)) exampleTaxYearData).
  reflexivity.
Defined.

Lemma clampSalary_not_negative (annualSalary : number) :
  JS.lt (clampSalary annualSalary) (Fin 0) = false.
Proof.
  unfold clampSalary.
  destruct (isNaN annualSalary || JS.lt annualSalary (Fin 0)) eqn:E;
    [reflexivity|].
  apply orb_false_elim in E. apply E.
Qed.

(** X22: the income-tax bands in the result of [calculateTaxDetails] are
    computed from the whole salary, not from the taxable pay: for every
    input their taxes add up to [calculateIncomeTax] of the (clamped) annual
    salary in the region of the tax code, whatever the personal allowance,
    the K-code adjustment and the cumulative flag are. *)
Theorem incomeTaxBands_are_those_of_the_salary
    (annualSalary : number) (taxCode : string) (isCumulative : bool)
    (taxYearData : TaxYearData) (cp : option CurrentPeriod) :
  let r := calculateTaxDetails annualSalary taxCode isCumulative taxYearData
             cp in
  let taxRegion :=
    selectRegion (parseTaxCode (defaultTaxCode taxCode)) taxYearData in
  incomeTaxBands r
  = calculateTaxBands (clampSalary annualSalary) (Fin 0) taxRegion
  /\ preciseRound (sumBandTax (incomeTaxBands r))
     = calculateIncomeTax (clampSalary annualSalary) taxRegion taxYearData.
Proof.
  intros r taxRegion.
  assert (E : incomeTaxBands r
              = calculateTaxBands (clampSalary annualSalary) (Fin 0) taxRegion)
    by reflexivity.
  split; [exact E|]. rewrite E.
  unfold calculateIncomeTax, calculateTaxBands, sumBandTax.
  rewrite incomeTaxLoop_bands by apply clampSalary_not_negative.
  reflexivity.
Qed.

Lemma wellFormedBand_inv (b : Band) :
  wellFormedBand b = true ->
  exists r, rate b = Fin r /\ 0 <= r
    /\ ((exists s, to b = ToString s /\ snd (bandQ b) = None)
        \/ (exists f t, from b = Fin f /\ to b = ToNumber (Fin t) /\ f <= t
                        /\ snd (bandQ b) = Some (Qred (t + Qred (- f)))))
    /\ fst (bandQ b) = r.
Proof.
  unfold wellFormedBand, bandQ.
  destruct (rate b) as [| | |r]; try discriminate.
  destruct (to b) as [[| | |t]|s]; try discriminate.
  - destruct (from b) as [| | |f]; try discriminate.
    intro H. apply andb_prop in H. destruct H as [H1 H2].
    apply Qle_bool_iff in H1, H2.
    exists r. split; [reflexivity|]. split; [exact H1|].
    split; [|reflexivity]. right. exists f, t. repeat split. exact H2.
  - intro H. apply Qle_bool_iff in H.
    exists r. split; [reflexivity|]. split; [exact H|].
    split; [|destruct (from b); reflexivity].
    left. exists s. split; [reflexivity|]. destruct (from b); reflexivity.
Qed.

Lemma incomeTaxLoop_Q (bs : list Band) (r total : Q) :
  forallb wellFormedBand bs = true ->
  incomeTaxLoop bs (Fin r) (Fin total)
  = Fin (incomeTaxLoopQ (map bandQ bs) r total).
Proof.
  revert r total. induction bs as [|b rest IH]; intros r total H;
    [reflexivity|].
  cbn [forallb] in H. apply andb_prop in H. destruct H as [Hb Hrest].
  destruct (wellFormedBand_inv b Hb) as (rho & Hrate & Hrho & Hw & Hfst).
  cbn [incomeTaxLoop map incomeTaxLoopQ].
  destruct (bandQ b) as [rq wq] eqn:EQ. cbn [fst snd] in Hw, Hfst. subst rq.
  assert (Hamt : JS.min (JS.max (Fin 0) (Fin r))
                   (match to b with
                    | ToString _ => Fin r
                    | ToNumber t => JS.sub t (from b)
                    end)
                 = Fin (qmin (qmax0 r)
                          (match wq with None => r | Some w => w end))).
  { assert (Hmax : JS.max (Fin 0) (Fin r) = Fin (qmax0 r)).
    { unfold JS.max, JS.lt, qmax0. destruct (JS.Qlt_bool 0 r); reflexivity. }
    rewrite Hmax.
    destruct Hw as [(s & -> & ->)|(f & t & -> & -> & _ & ->)].
    - unfold JS.min, JS.lt, qmin.
      destruct (JS.Qlt_bool r (qmax0 r)); reflexivity.
    - unfold JS.sub, JS.neg, JS.add, fin, JS.min, JS.lt, qmin.
      destruct (JS.Qlt_bool _ (qmax0 r)); reflexivity. }
  rewrite Hamt, Hrate. cbv zeta.
  rewrite !preciseMultiply_Fin, preciseAdd_Fin, preciseSubtract_Fin.
  unfold JS.le, JS.lt, JS.eqb.
  destruct (JS.Qlt_bool _ 0 || Qeq_bool _ 0); [reflexivity|].
  apply IH. exact Hrest.
Qed.

Lemma bandQ_wellFormed (b : Band) :
  wellFormedBand b = true -> wellFormedQ (bandQ b).
Proof.
  intro H. destruct (wellFormedBand_inv b H) as (r & _ & Hr & Hw & Hf).
  split; [rewrite Hf; exact Hr|].
  intros w Hsnd.
  destruct Hw as [(s & _ & E)|(f & t & _ & _ & Hle & E)];
    rewrite E in Hsnd; [discriminate|].
  injection Hsnd as <-. rewrite !Qred_correct. lra.
Qed.

Lemma bandAmount_bounds (r : Q) (w : option Q) :
  0 <= r -> (forall v, w = Some v -> 0 <= v) ->
  0 <= qmin (qmax0 r) (match w with None => r | Some v => v end) <= r.
Proof.
  intros Hr Hw. unfold qmin, qmax0.
  destruct (JS.Qlt_bool 0 r) eqn:E0;
    [apply Qlt_bool_iff in E0 | apply Qlt_bool_false_iff in E0];
  (destruct w as [v|]; [pose proof (Hw v eq_refl)|]);
    repeat match goal with
           | |- context [JS.Qlt_bool ?a ?b] =>
               let E := fresh "E" in
               destruct (JS.Qlt_bool a b) eqn:E;
               [apply Qlt_bool_iff in E | apply Qlt_bool_false_iff in E]
           end; lra.
Qed.

Lemma bandAmount_mono (r1 r2 : Q) (w : option Q) :
  0 <= r1 -> r1 <= r2 -> (forall v, w = Some v -> 0 <= v) ->
  qmin (qmax0 r1) (match w with None => r1 | Some v => v end)
  <= qmin (qmax0 r2) (match w with None => r2 | Some v => v end)
  /\ r1 - qmin (qmax0 r1) (match w with None => r1 | Some v => v end)
     <= r2 - qmin (qmax0 r2) (match w with None => r2 | Some v => v end).
Proof.
  intros Hr H12 Hw. unfold qmin, qmax0.
  destruct (JS.Qlt_bool 0 r1) eqn:E1;
    [apply Qlt_bool_iff in E1 | apply Qlt_bool_false_iff in E1];
  (destruct (JS.Qlt_bool 0 r2) eqn:E2;
    [apply Qlt_bool_iff in E2 | apply Qlt_bool_false_iff in E2]);
  (destruct w as [v|]; [pose proof (Hw v eq_refl)|]);
    repeat match goal with
           | |- context [JS.Qlt_bool ?a ?b] =>
               let E := fresh "E" in
               destruct (JS.Qlt_bool a b) eqn:E;
               [apply Qlt_bool_iff in E | apply Qlt_bool_false_iff in E]
           end; lra.
Qed.

Lemma break_test (q : Q) :
  (JS.Qlt_bool q 0 || Qeq_bool q 0 = true <-> q <= 0)
  /\ (JS.Qlt_bool q 0 || Qeq_bool q 0 = false <-> 0 < q).
Proof.
  destruct (JS.Qlt_bool q 0) eqn:E1.
  - apply Qlt_bool_iff in E1. cbn [orb].
    split; split; intro; try reflexivity; try discriminate; lra.
  - apply Qlt_bool_false_iff in E1. cbn [orb].
    destruct (Qeq_bool q 0) eqn:E2.
    + apply Qeq_bool_eq in E2.
      split; split; intro; try reflexivity; try discriminate; lra.
    + apply Qeq_bool_neq in E2.
      split; split; intro; try reflexivity; try discriminate.
      * exfalso. apply E2. lra.
      * destruct (Qlt_le_dec 0 q) as [L|L]; [exact L|].
        exfalso. apply E2. lra.
Qed.

Lemma bandTax_nonneg (q rho : Q) :
  0 <= q -> 0 <= rho ->
  0 <= toDecimalPlaces2 (q * toDecimalPlaces2 (rho * (1 # 100))).
Proof.
  intros Hq Hr. apply toDecimalPlaces2_nonneg. apply Qmult_le_0_compat;
    [exact Hq|]. apply toDecimalPlaces2_nonneg. lra.
Qed.

Lemma incomeTaxLoopQ_ge (bs : list (Q * option Q)) (r total : Q) :
  Forall wellFormedQ bs -> 0 <= r ->
  toDecimalPlaces2 total <= incomeTaxLoopQ bs r (toDecimalPlaces2 total).
Proof.
  intro Hbs. revert r total.
  induction Hbs as [|[rho w] rest [Hrho Hw] _ IH]; intros r total Hr;
    [simpl; lra|].
  cbn [fst snd] in Hrho, Hw. cbn [incomeTaxLoopQ].
  set (q := qmin (qmax0 r) (match w with None => r | Some v => v end)).
  pose proof (bandAmount_bounds r w Hr Hw) as Hq. fold q in Hq.
  pose proof (bandTax_nonneg q rho (proj1 Hq) Hrho) as Ht.
  set (bt := toDecimalPlaces2 (q * toDecimalPlaces2 (rho * (1 # 100)))) in *.
  assert (Hstep : toDecimalPlaces2 total
                  <= toDecimalPlaces2 (toDecimalPlaces2 total + bt)).
  { rewrite <- (toDecimalPlaces2_idem total) at 1.
    apply toDecimalPlaces2_mono. lra. }
  destruct (JS.Qlt_bool (toDecimalPlaces2 (r - q)) 0
            || Qeq_bool (toDecimalPlaces2 (r - q)) 0) eqn:B; [exact Hstep|].
  apply (proj2 (break_test _)) in B.
  pose proof (IH (toDecimalPlaces2 (r - q)) (toDecimalPlaces2 total + bt)
                (Qlt_le_weak _ _ B)).
  lra.
Qed.

Lemma incomeTaxLoopQ_mono (bs : list (Q * option Q)) (r1 r2 t1 t2 : Q) :
  Forall wellFormedQ bs -> 0 <= r1 -> r1 <= r2 -> t1 <= t2 ->
  incomeTaxLoopQ bs r1 t1 <= incomeTaxLoopQ bs r2 t2.
Proof.
  intro Hbs. revert r1 r2 t1 t2.
  induction Hbs as [|[rho w] rest [Hrho Hw] Hrest IH];
    intros r1 r2 t1 t2 Hr1 H12 Ht; [exact Ht|].
  cbn [fst snd] in Hrho, Hw. cbn [incomeTaxLoopQ].
  set (q1 := qmin (qmax0 r1) (match w with None => r1 | Some v => v end)).
  set (q2 := qmin (qmax0 r2) (match w with None => r2 | Some v => v end)).
  destruct (bandAmount_mono r1 r2 w Hr1 H12 Hw) as [Hq Hrem].
  fold q1 q2 in Hq, Hrem.
  pose proof (bandAmount_bounds r1 w Hr1 Hw) as Hq1. fold q1 in Hq1.
  assert (Hc : 0 <= toDecimalPlaces2 (rho * (1 # 100)))
    by (apply toDecimalPlaces2_nonneg; lra).
  set (c := toDecimalPlaces2 (rho * (1 # 100))) in *.
  assert (Hbt : toDecimalPlaces2 (q1 * c) <= toDecimalPlaces2 (q2 * c)).
  { apply toDecimalPlaces2_mono. apply Qmult_le_compat_r; assumption. }
  assert (Htot : toDecimalPlaces2 (t1 + toDecimalPlaces2 (q1 * c))
                 <= toDecimalPlaces2 (t2 + toDecimalPlaces2 (q2 * c))).
  { apply toDecimalPlaces2_mono. lra. }
  assert (Hr' : toDecimalPlaces2 (r1 - q1) <= toDecimalPlaces2 (r2 - q2)).
  { apply toDecimalPlaces2_mono. exact Hrem. }
  destruct (JS.Qlt_bool (toDecimalPlaces2 (r1 - q1)) 0
            || Qeq_bool (toDecimalPlaces2 (r1 - q1)) 0) eqn:B1;
    destruct (JS.Qlt_bool (toDecimalPlaces2 (r2 - q2)) 0
              || Qeq_bool (toDecimalPlaces2 (r2 - q2)) 0) eqn:B2.
  - exact Htot.
  - apply (proj2 (break_test _)) in B2.
    pose proof (incomeTaxLoopQ_ge rest (toDecimalPlaces2 (r2 - q2))
                  (t2 + toDecimalPlaces2 (q2 * c)) Hrest
                  (Qlt_le_weak _ _ B2)).
    lra.
  - apply (proj2 (break_test _)) in B1. apply (proj1 (break_test _)) in B2.
    lra.
  - apply (proj2 (break_test _)) in B1.
    apply IH; [lra|exact Hr'|exact Htot].
Qed.

(** X23: for a band table whose rates are not negative and whose numeric
    widths [to - from] are not negative, [calculateIncomeTax] is finite, not
    negative and non-decreasing in the taxable amount, from 0 upwards. *)
Theorem calculateIncomeTax_monotone
    (taxRegion : TaxRegion) (taxYearData : TaxYearData) (x1 x2 : Q) :
  forallb wellFormedBand (bands taxRegion) = true ->
  0 <= x1 -> x1 <= x2 ->
  exists t1 t2 : Q,
    calculateIncomeTax (Fin x1) taxRegion taxYearData = Fin t1
    /\ calculateIncomeTax (Fin x2) taxRegion taxYearData = Fin t2
    /\ 0 <= t1 /\ t1 <= t2.
Proof.
  intros Hwf H1 H12. unfold calculateIncomeTax.
  rewrite !incomeTaxLoop_Q by exact Hwf. rewrite !preciseRound_Fin.
  assert (HQ : Forall wellFormedQ (map bandQ (bands taxRegion))).
  { apply Forall_forall. intros p Hp. apply in_map_iff in Hp.
    destruct Hp as (b & <- & Hb). apply bandQ_wellFormed.
    rewrite forallb_forall in Hwf. apply Hwf. exact Hb. }
  do 2 eexists. split; [reflexivity|]. split; [reflexivity|]. split.
  - apply toDecimalPlaces2_nonneg.
    pose proof (incomeTaxLoopQ_ge _ x1 0 HQ H1) as H.
    rewrite toDecimalPlaces2_zero in H. exact H.
  - apply toDecimalPlaces2_mono.
    apply incomeTaxLoopQ_mono; [exact HQ|exact H1|exact H12|lra].
Qed.

Lemma calculateIncomeTax_monotone_witness :
  exists t1 t2 : Q,
    calculateIncomeTax (Fin 30000) (UK (regions exampleTaxYearData))
      exampleTaxYearData = Fin t1
    /\ calculateIncomeTax (Fin 60000) (UK (regions exampleTaxYearData))
         exampleTaxYearData = Fin t2
    /\ 0 <= t1 /\ t1 <= t2.
Proof.
  apply (calculateIncomeTax_monotone (UK (regions exampleTaxYearData))
           exampleTaxYearData 30000 60000).
  - reflexivity.
  - unfold Qle; simpl; lia.
  - unfold Qle; simpl; lia.
Defined.

(** ** Student loan and pension *)

Lemma studentLoan_value (s t rho : Q) :
  0 < t -> 0 <= rho -> rho <= 9 # 100 -> (1 # 10) <= t * rho ->
  let n := if JS.Qlt_bool t s
           then toDecimalPlaces2 (toDecimalPlaces2 (s - t) * rho) else 0 in
  0 <= n /\ (0 <= s -> n <= (9 # 100) * s).
Proof.
  intros Ht Hr0 Hr Htr n. subst n.
  destruct (JS.Qlt_bool t s) eqn:E;
    [apply Qlt_bool_iff in E | split; [lra | intro; lra]].
  pose proof (toDecimalPlaces2_bounds (s - t)) as B1.
  pose proof (toDecimalPlaces2_bounds (toDecimalPlaces2 (s - t) * rho)) as B2.
  assert (H0 : 0 <= toDecimalPlaces2 (s - t))
    by (apply toDecimalPlaces2_nonneg; lra).
  split.
  - apply toDecimalPlaces2_nonneg. apply Qmult_le_0_compat; assumption.
  - intros _.
    assert (toDecimalPlaces2 (s - t) * rho <= (s - t + (1 # 200)) * rho)
      by (apply Qmult_le_compat_r; lra).
    assert ((s - t + (1 # 200)) * rho
            == s * rho - t * rho + (1 # 200) * rho) by ring.
    assert (s * rho <= s * (9 # 100))
      by (rewrite !(Qmult_comm s); apply Qmult_le_compat_r; lra).
    lra.
Qed.

Lemma studentLoan_threshold (s t rho : Q) :
  0 < t ->
  (if falsy (Fin t) || JS.le (Fin s) (Fin t) then Fin 0
   else preciseMultiply (preciseSubtract (Fin s) (Fin t)) (Fin rho))
  = Fin (if JS.Qlt_bool t s
         then toDecimalPlaces2 (toDecimalPlaces2 (s - t) * rho) else 0).
Proof.
  intro Ht. unfold falsy.
  assert (Qeq_bool t 0 = false) as ->.
  { destruct (Qeq_bool t 0) eqn:E; [|reflexivity].
    apply Qeq_bool_eq in E. lra. }
  cbn [orb]. unfold JS.le, JS.lt, JS.eqb.
  destruct (JS.Qlt_bool t s) eqn:E.
  - apply Qlt_bool_iff in E.
    assert (JS.Qlt_bool s t || Qeq_bool s t = false) as ->.
    { apply orb_false_intro.
      - apply Qlt_bool_false_iff. lra.
      - destruct (Qeq_bool s t) eqn:E2; [|reflexivity].
        apply Qeq_bool_eq in E2. lra. }
    rewrite preciseSubtract_Fin, preciseMultiply_Fin. reflexivity.
  - apply Qlt_bool_false_iff in E.
    assert (JS.Qlt_bool s t || Qeq_bool s t = true) as ->; [|reflexivity].
    destruct (Qeq_bool s t) eqn:E2; [apply orb_true_r|].
    apply Qeq_bool_neq in E2. rewrite orb_false_r. apply Qlt_bool_iff.
    destruct (Qlt_le_dec s t) as [L|L]; [exact L|].
    exfalso. apply E2. lra.
Qed.

(** X24: [calculateStudentLoanRepayment] on a finite salary.  The repayment is
    finite, never negative and never more than 9% of a non-negative salary;
    it is 0 for a salary up to 21000 whatever the plan, and 0 for every plan
    name other than the four of the table (names inherited from
    [Object.prototype] included). *)
Theorem calculateStudentLoanRepayment_bounds (s : Q) (plan : string) :
  exists n : Q,
    calculateStudentLoanRepayment (Fin s) plan = Fin n
    /\ 0 <= n
    /\ (0 <= s -> n <= (9 # 100) * s)
    /\ (s <= 21000 -> n = 0)
    /\ (inList plan ["plan-1"; "plan-2"; "plan-4"; "postgrad"] = false ->
        n = 0).
Proof.
  assert (Hplan : forall t rho,
            0 < t -> 21000 <= t -> 0 <= rho -> rho <= 9 # 100 ->
            (1 # 10) <= t * rho ->
            exists n : Q,
              (if falsy (Fin t) || JS.le (Fin s) (Fin t) then Fin 0
               else preciseMultiply (preciseSubtract (Fin s) (Fin t))
                      (Fin rho)) = Fin n
              /\ 0 <= n /\ (0 <= s -> n <= (9 # 100) * s)
              /\ (s <= 21000 -> n = 0)).
  { intros t rho H1 H2 H3 H4 H5. rewrite studentLoan_threshold by exact H1.
    eexists. split; [reflexivity|].
    destruct (studentLoan_value s t rho H1 H3 H4 H5) as [Ha Hb].
    split; [exact Ha|]. split; [exact Hb|].
    intro Hs.
    assert (JS.Qlt_bool t s = false) as ->
      by (apply Qlt_bool_false_iff; lra).
    reflexivity. }
  unfold calculateStudentLoanRepayment, lookupThreshold.
  cbn [inList].
  destruct (String.eqb plan "plan-1") eqn:E1.
  { apply String.eqb_eq in E1. subst plan.
    cbn [String.eqb Ascii.eqb Bool.eqb andb].
    destruct (Hplan 22015 (9 # 100)) as (n & Hn & H0 & H9 & Hlow);
      try (unfold Qle, Qlt; simpl; lia).
    exists n. repeat split; try assumption. discriminate. }
  destruct (String.eqb plan "plan-2") eqn:E2.
  { apply String.eqb_eq in E2. subst plan.
    cbn [String.eqb Ascii.eqb Bool.eqb andb].
    destruct (Hplan 27295 (9 # 100)) as (n & Hn & H0 & H9 & Hlow);
      try (unfold Qle, Qlt; simpl; lia).
    exists n. repeat split; try assumption. discriminate. }
  destruct (String.eqb plan "plan-4") eqn:E3.
  { apply String.eqb_eq in E3. subst plan.
    cbn [String.eqb Ascii.eqb Bool.eqb andb].
    destruct (Hplan 27660 (9 # 100)) as (n & Hn & H0 & H9 & Hlow);
      try (unfold Qle, Qlt; simpl; lia).
    exists n. repeat split; try assumption. discriminate. }
  destruct (String.eqb plan "postgrad") eqn:E4.
  { destruct (Hplan 21000 (6 # 100)) as (n & Hn & H0 & H9 & Hlow);
      try (unfold Qle, Qlt; simpl; lia).
    exists n. repeat split; try assumption. discriminate. }
  exists 0. cbn [orb].
  split; [destruct (inList plan objectPrototypeKeys); reflexivity|].
  split; [lra|]. split; [intro; lra|]. split; reflexivity.
Qed.

Lemma percent_rounded (p : Q) :
  toDecimalPlaces2 (p / 100) = Qred (round_half_up p # 100).
Proof.
  unfold toDecimalPlaces2. f_equal. f_equal.
  apply round_half_up_comp. field.
Qed.

Lemma pension_contribution (s p : Q) :
  0 < p -> p <= 100 ->
  preciseMultiply (Fin s) (preciseDivide (Fin p) (Fin 100))
  = Fin (toDecimalPlaces2 (s * (round_half_up p # 100))).
Proof.
  intros H0 H100.
  rewrite preciseDivide_Fin by (intro H; discriminate H).
  rewrite preciseMultiply_Fin, percent_rounded. f_equal.
  apply toDecimalPlaces2_comp. rewrite Qred_correct. reflexivity.
Qed.

Lemma percent_in_range (p : Q) :
  0 < p -> p <= 100 -> (0 <= round_half_up p <= 100)%Z.
Proof.
  intros H0 H100. split.
  - rewrite <- (round_half_up_Z 0). apply round_half_up_mono.
    change (inject_Z 0) with 0. lra.
  - rewrite <- (round_half_up_Z 100). apply round_half_up_mono.
    change (inject_Z 100) with 100. exact H100.
Qed.

(** X25: [calculatePensionContribution] with a percentage p in (0, 100] and a
    salary s that is not negative.  The percentage only counts to the
    nearest whole percent (half up), because p/100 is rounded to two
    decimals before it is applied: the result is that for the whole
    percentage [round_half_up p], and in particular 0 below half a percent.
    The net-pay contribution is at most the rounded salary, and the
    relief-at-source contribution is at most the net-pay one. *)
Theorem calculatePensionContribution_whole_percent (s p : Q) :
  0 <= s -> 0 < p -> p <= 100 ->
  (forall type,
     calculatePensionContribution (Fin s) (Fin p) type
     = calculatePensionContribution (Fin s) (ofZ (round_half_up p)) type)
  /\ exists a b : Q,
       calculatePensionContribution (Fin s) (Fin p) net_pay = Fin a
       /\ calculatePensionContribution (Fin s) (Fin p) relief_at_source = Fin b
       /\ 0 <= b /\ b <= a /\ a <= toDecimalPlaces2 s.
Proof.
  intros Hs H0 H100.
  pose proof (percent_in_range p H0 H100) as Hk.
  assert (Hrange : JS.le (Fin p) (Fin 0) || JS.gt (Fin p) (Fin 100) = false).
  { unfold JS.le, JS.gt, JS.lt, JS.eqb. apply orb_false_intro.
    - apply (proj2 (break_test p)). exact H0.
    - apply Qlt_bool_false_iff. exact H100. }
  assert (Hc := pension_contribution s p H0 H100).
  split.
  - intro type. unfold calculatePensionContribution. rewrite Hrange, Hc.
    set (k := round_half_up p) in *.
    unfold JS.le, JS.gt, JS.lt, JS.eqb, ofZ.
    destruct (Z.eq_dec k 0) as [Hz|Hz].
    + rewrite Hz. cbn [orb].
      assert (E : toDecimalPlaces2 (s * (0 # 100)) = 0).
      { transitivity (toDecimalPlaces2 0); [|apply toDecimalPlaces2_zero].
        apply toDecimalPlaces2_comp. unfold Qeq. simpl. lia. }
      rewrite E. destruct type; reflexivity.
    + assert (Hpos : 0 < inject_Z k)
        by (change 0 with (inject_Z 0); rewrite <- Zlt_Qlt; lia).
      assert (H100' : inject_Z k <= 100)
        by (change 100 with (inject_Z 100); rewrite <- Zle_Qle; lia).
      assert (JS.Qlt_bool (inject_Z k) 0 || Qeq_bool (inject_Z k) 0 = false)
        as -> by (apply (proj2 (break_test _)); exact Hpos).
      assert (JS.Qlt_bool 100 (inject_Z k) = false) as ->
        by (apply Qlt_bool_false_iff; exact H100').
      cbn [orb].
      rewrite (pension_contribution s (inject_Z k) Hpos H100').
      rewrite round_half_up_Z. reflexivity.
  - unfold calculatePensionContribution. rewrite Hrange, Hc.
    rewrite preciseMultiply_Fin.
    set (k := round_half_up p) in *.
    set (a := toDecimalPlaces2 (s * (k # 100))).
    assert (Hfrac : 0 <= k # 100 /\ k # 100 <= 1)
      by (unfold Qle; simpl; lia).
    assert (Ha0 : 0 <= a).
    { apply toDecimalPlaces2_nonneg. apply Qmult_le_0_compat; lra. }
    assert (Ha1 : a <= toDecimalPlaces2 s).
    { apply toDecimalPlaces2_mono.
      assert (s * (k # 100) <= s * 1)
        by (rewrite !(Qmult_comm s); apply Qmult_le_compat_r; lra).
      lra. }
    exists a, (toDecimalPlaces2 (a * (8 # 10))).
    split; [reflexivity|]. split; [reflexivity|].
    split; [apply toDecimalPlaces2_nonneg; lra|]. split; [|exact Ha1].
    assert (E : a = toDecimalPlaces2 a)
      by (symmetry; apply toDecimalPlaces2_idem).
    rewrite E at 2. apply toDecimalPlaces2_mono. lra.
Qed.

Lemma calculatePensionContribution_whole_percent_witness :
  (forall type,
     calculatePensionContribution (Fin 30000) (Fin (11 # 2)) type
     = calculatePensionContribution (Fin 30000)
         (ofZ (round_half_up (11 # 2))) type)
  /\ exists a b : Q,
       calculatePensionContribution (Fin 30000) (Fin (11 # 2)) net_pay = Fin a
       /\ calculatePensionContribution (Fin 30000) (Fin (11 # 2))
            relief_at_source = Fin b
       /\ 0 <= b /\ b <= a /\ a <= toDecimalPlaces2 30000.
Proof.
  apply (calculatePensionContribution_whole_percent 30000 (11 # 2)).
  - unfold Qle; simpl; lia.
  - reflexivity.
  - unfold Qle; simpl; lia.
Defined.

(** ** Scottish tax *)

(** X26: [calculateScottishTax] never returns a tax other than 0.  For a
    code that [parseTaxCode] does not flag as Scottish (a blank code, or one
    whose trimmed upper-case form does not start with S) it returns 0
    whatever the salary; for every Scottish code it raises a ReferenceError,
    because [UK_TAX_REGIONS] is not bound in its module, before any band is
    read. *)
Theorem calculateScottishTax_zero_or_raises
    (annualSalary : number) (taxCode : string) :
  calculateScottishTax annualSalary taxCode
  = (if isBlank taxCode then Some (Fin 0)
     else if startsWith "S" (trim (toUpperCase taxCode)) then None
     else Some (Fin 0))
  /\ (forall tax,
        calculateScottishTax annualSalary taxCode = Some tax -> tax = Fin 0).
Proof.
  assert (E : calculateScottishTax annualSalary taxCode
              = (if isBlank taxCode then Some (Fin 0)
                 else if startsWith "S" (trim (toUpperCase taxCode)) then None
                 else Some (Fin 0))).
  { unfold calculateScottishTax. cbv zeta.
    destruct (isBlank taxCode) eqn:Hb.
    - unfold parseTaxCode. fold (isBlank taxCode). rewrite Hb. reflexivity.
    - rewrite (parseTaxCode_nonblank _ Hb).
      destruct (parseNormalizedCode_flags (trim (toUpperCase taxCode)))
        as (-> & _).
      destruct (startsWith "S" (trim (toUpperCase taxCode))); reflexivity. }
  split; [exact E|]. intros tax H. rewrite E in H.
  destruct (isBlank taxCode);
    [|destruct (startsWith "S" (trim (toUpperCase taxCode)))];
    congruence.
Qed.

(** ** The form schema and the validator *)

Lemma matchStandard_not_digits_only (ds : string) :
  forallChars isDigit ds = true -> matchStandard ds = false.
Proof.
  intro H. unfold matchStandard. rewrite (takeDigits_all ds H).
  replace (substringFrom (String.length ds) ds) with "".
  - apply andb_false_r.
  - symmetry. rewrite <- (substringFrom_app ds "") at 1.
    f_equal. clear H. induction ds as [|c r IH]; [reflexivity|].
    simpl. f_equal. exact IH.
Qed.

Lemma matchStandard_starts_with_digit (c : ascii) (r : string) :
  isDigit c = false -> matchStandard (String c r) = false.
Proof. intro H. unfold matchStandard. simpl. rewrite H. reflexivity. Qed.

Lemma matchStandard_nonempty (u : string) : matchStandard u = true -> u <> "".
Proof. intros H ->. discriminate H. Qed.

Lemma nonblank_of_chars (u : string) :
  forallChars notWhite u = true -> u <> "" -> isBlank u = false.
Proof.
  intros H Hne. unfold isBlank. rewrite (trim_id u H).
  destruct u; [contradiction|reflexivity].
Qed.

Lemma taxCodeSchemaAccepts_inv (s : string) :
  taxCodeSchemaAccepts s = true ->
  (String.length s <= 7)%nat /\ matchSchemaCode s = true.
Proof.
  unfold taxCodeSchemaAccepts, taxCodeSchemaIssues.
  destruct (String.length s <? 1)%nat; [discriminate|].
  destruct (7 <? String.length s)%nat eqn:E; [discriminate|].
  destruct (matchSchemaCode s); [|discriminate].
  intros _. apply Nat.ltb_ge in E. split; [exact E|reflexivity].
Qed.

Lemma schema_and_validator (u : string) :
  toUpperCase u = u ->
  matchSchemaCode u = true ->
  isValid (validateTaxCode u) = negb (includes "K" u)
  /\ startsWith "C" u = false.
Proof.
  intros Hu H. unfold matchSchemaCode in H. rewrite Hu in H. cbv zeta in H.
  rewrite validateTaxCode_isValid, Hu.
  destruct (matchSpecial u) eqn:Hsp.
  { apply inList_In in Hsp. simpl in Hsp.
    destruct Hsp as [<-|[<-|[<-|[<-|[<-|[]]]]]]; split; reflexivity. }
  rewrite orb_false_r in H.
  assert (Hstd : forall v, matchStandard v = true ->
                   includes "K" v = false /\ forallChars notWhite v = true
                   /\ v <> "").
  { intros v Hv. pose proof (matchStandard_chars v Hv) as Hc. split; [|split].
    - apply includes_absent.
      apply (forallChars_impl standardChar); [apply standardChar_notK|exact Hc].
    - apply (forallChars_impl standardChar);
        [apply standardChar_notWhite|exact Hc].
    - apply matchStandard_nonempty. exact Hv. }
  destruct (startsWith "S" u) eqn:ES.
  - pose proof (prefix_split _ _ ES) as Eu.
    change (String.length "S") with 1%nat in Eu.
    remember (substringFrom 1 u) as v eqn:Hv in *. clear Hv.
    change ("S" ++ v) with (String "S" v) in Eu.
    destruct (startsWith "K" v) eqn:EK.
    + pose proof (prefix_split _ _ EK) as Ev.
      change (String.length "K") with 1%nat in Ev.
      remember (substringFrom 1 v) as w eqn:Hw in *. clear Hw.
      change ("K" ++ w) with (String "K" w) in Ev.
      destruct (Hstd w H) as (HK & HW & Hne).
      rewrite Eu, Ev. split; [|reflexivity].
      assert (Hb : isBlank (String "S" (String "K" w)) = false).
      { apply nonblank_of_chars; [simpl; exact HW|discriminate]. }
      rewrite Hb.
      unfold matchKCode, matchRegional, matchSpecial, startsWith.
      cbn [String.length substringFrom]. simpl.
      rewrite !prefix_nil.
      destruct w as [|c r]; [contradiction|].
      assert (Hd : isDigit c = true).
      { unfold matchStandard in H. simpl in H.
        destruct (isDigit c); [reflexivity|discriminate H]. }
      rewrite (matchStandard_starts_with_digit "K") by reflexivity.
      rewrite (matchStandard_starts_with_digit "S") by reflexivity.
      unfold matchDigits14.
      assert (Hnd : forallChars isDigit (String c r) = false).
      { destruct (forallChars isDigit (String c r)) eqn:E; [|reflexivity].
        rewrite (matchStandard_not_digits_only _ E) in H. discriminate H. }
      rewrite Hnd, !andb_false_r. reflexivity.
    + destruct (Hstd v H) as (HK & HW & Hne).
      rewrite Eu. split; [|reflexivity].
      assert (Hb : isBlank (String "S" v) = false).
      { apply nonblank_of_chars; [simpl; exact HW|discriminate]. }
      rewrite Hb.
      assert (HinK : includes "K" (String "S" v) = false)
        by (simpl; exact HK).
      rewrite HinK.
      assert (Hreg : matchRegional "S" (String "S" v) = true).
      { unfold matchRegional, startsWith. simpl. rewrite prefix_nil. exact H. }
      rewrite Hreg, !orb_true_r. reflexivity.
  - destruct (startsWith "K" u) eqn:EK.
    + pose proof (prefix_split _ _ EK) as Eu.
      change (String.length "K") with 1%nat in Eu.
      remember (substringFrom 1 u) as w eqn:Hw in *. clear Hw.
      change ("K" ++ w) with (String "K" w) in Eu.
      destruct (Hstd w H) as (HK & HW & Hne).
      rewrite Eu. split; [|reflexivity].
      assert (Hb : isBlank (String "K" w) = false).
      { apply nonblank_of_chars; [simpl; exact HW|discriminate]. }
      rewrite Hb.
      unfold matchKCode, matchRegional, matchSpecial, startsWith.
      cbn [String.length substringFrom]. simpl.
      rewrite !prefix_nil.
      rewrite (matchStandard_starts_with_digit "K") by reflexivity.
      unfold matchDigits14.
      assert (Hnd : forallChars isDigit w = false).
      { destruct (forallChars isDigit w) eqn:E; [|reflexivity].
        rewrite (matchStandard_not_digits_only _ E) in H. discriminate H. }
      rewrite Hnd, !andb_false_r. reflexivity.
    + destruct (Hstd u H) as (HK & HW & Hne).
      rewrite HK, H, !orb_true_r. split; [reflexivity|].
      destruct u as [|c r]; [reflexivity|].
      apply startsWith_head. intros <-.
      rewrite matchStandard_starts_with_digit in H by reflexivity.
      discriminate H.
Qed.

(** X27: the form schema [taxCodeSchema] against [validateTaxCode].  For a
    string that the schema accepts, the validator accepts it exactly when it
    contains no K: the schema asks a K code for a suffix letter (K100L),
    the validator for none (K100), so that no K code passes both.  The
    schema accepts no code with the Welsh prefix C. *)
Theorem taxCodeSchema_against_validator (s : string) :
  taxCodeSchemaAccepts s = true ->
  isValid (validateTaxCode s) = negb (includes "K" (toUpperCase s))
  /\ startsWith "C" (toUpperCase s) = false.
Proof.
  intro H. apply taxCodeSchemaAccepts_inv in H. destruct H as [_ H].
  assert (Hm : matchSchemaCode (toUpperCase s) = true).
  { unfold matchSchemaCode in *. rewrite toUpperCase_idem. exact H. }
  destruct (schema_and_validator (toUpperCase s) (toUpperCase_idem s) Hm)
    as [Hv Hc].
  split; [|exact Hc]. rewrite <- Hv.
  rewrite !validateTaxCode_isValid, toUpperCase_idem, isBlank_toUpperCase.
  reflexivity.
Qed.

Lemma taxCodeSchema_against_validator_witness :
  (isValid (validateTaxCode "k100l") = negb (includes "K" (toUpperCase "k100l"))
   /\ startsWith "C" (toUpperCase "k100l") = false)
  /\ isValid (validateTaxCode "k100l") = false.
Proof.
  split; [|reflexivity].
  apply (taxCodeSchema_against_validator "k100l"). reflexivity.
Defined.

(** ** The tax-code input field *)

Lemma takeChars_length (n : nat) (s : string) :
  (String.length (takeChars n s) <= n)%nat.
Proof.
  revert s. induction n as [|n IH]; intro s; [simpl; lia|].
  destruct s as [|c r]; simpl; [lia|]. specialize (IH r). lia.
Qed.

Lemma takeChars_forall (p : ascii -> bool) (n : nat) (s : string) :
  forallChars p s = true -> forallChars p (takeChars n s) = true.
Proof.
  revert s. induction n as [|n IH]; intros s H; [reflexivity|].
  destruct s as [|c r]; [reflexivity|].
  simpl in *. apply andb_prop in H. destruct H as [-> H]. exact (IH r H).
Qed.

Lemma takeChars_nonempty (n : nat) (s : string) :
  s <> "" -> takeChars (S n) s <> "".
Proof. destruct s; [contradiction|discriminate]. Qed.

Lemma filterChars_forall (p : ascii -> bool) (s : string) :
  forallChars p (filterChars p s) = true.
Proof.
  induction s as [|c r IH]; [reflexivity|].
  simpl. destruct (p c) eqn:E; [simpl; rewrite E|]; exact IH.
Qed.

Lemma length_append (s1 s2 : string) :
  String.length (s1 ++ s2) = (String.length s1 + String.length s2)%nat.
Proof.
  induction s1 as [|c r IH]; [reflexivity|]. simpl. rewrite IH. reflexivity.
Qed.

Lemma isDigit_inClass (c : ascii) :
  isDigit c = true -> inClass "0123456789SCKLTMNWYD1" c = true.
Proof.
  destruct c as [[] [] [] [] [] [] [] []]; intro H;
    try discriminate H; reflexivity.
Qed.

(** X28: the value that [handleTaxCodeChange] passes on, for every (sanitised)
    input: it has at most 7 characters, and it is one of the five special
    codes or consists of digits and the letters S C K L T M N W Y D only.
    When the trimmed, upper-cased input starts with K, SK or CK and a digit
    follows somewhere, the value is that prefix with the first (at most
    three) digits: a K code that [validateTaxCode] accepts and that
    [validateAndProcessTaxCode] accepts on a non-empty region table. *)
Theorem handleTaxCodeChange_output
    (UK_TAX_REGIONS : list Processing.Region)
    (toLocaleString : number -> string) (input : string) :
  let out := handleTaxCodeChange input in
  (String.length out <= 7)%nat
  /\ (isSpecialCode out = true
      \/ forallChars (inClass "0123456789SCKLTMNWYD1") out = true)
  /\ forall p,
       In p ["K"; "SK"; "CK"] ->
       startsWith p (toUpperCase (trim input)) = true ->
       filterChars isDigit
         (substringFrom (String.length p) (toUpperCase (trim input))) <> "" ->
       UK_TAX_REGIONS <> [] ->
       out = p ++ takeChars 3
                    (filterChars isDigit
                       (substringFrom (String.length p)
                          (toUpperCase (trim input))))
       /\ isValid (validateTaxCode out) = true
       /\ exists r,
            validateAndProcessTaxCode UK_TAX_REGIONS toLocaleString out
            = Some r
            /\ Processing.valid r = true
            /\ Processing.isKCode r = true.
Proof.
  intro out. subst out.
  assert (Hreg : forall s,
            (String.length
               (takeChars 7 (filterChars (inClass "0123456789SCKLTMNWYD1") s))
             <= 7)%nat
            /\ forallChars (inClass "0123456789SCKLTMNWYD1")
                 (takeChars 7
                    (filterChars (inClass "0123456789SCKLTMNWYD1") s))
               = true).
  { intro s. split; [apply takeChars_length|].
    apply takeChars_forall, filterChars_forall. }
  assert (Hk : forall p s,
            In p ["K"; "SK"; "CK"] ->
            (String.length (p ++ takeChars 3 (filterChars isDigit s)) <= 7)%nat
            /\ forallChars (inClass "0123456789SCKLTMNWYD1")
                 (p ++ takeChars 3 (filterChars isDigit s)) = true).
  { intros p s Hp. split.
    - rewrite length_append.
      pose proof (takeChars_length 3 (filterChars isDigit s)).
      set (t := takeChars 3 (filterChars isDigit s)) in *.
      simpl in Hp. destruct Hp as [<-|[<-|[<-|[]]]]; simpl; lia.
    - rewrite forallChars_app. apply andb_true_intro. split.
      + simpl in Hp. destruct Hp as [<-|[<-|[<-|[]]]]; reflexivity.
      + apply takeChars_forall.
        apply (forallChars_impl isDigit); [apply isDigit_inClass|].
        apply filterChars_forall. }
  unfold handleTaxCodeChange. fold (isBlank input).
  destruct (isBlank input) eqn:Hb.
  { split; [simpl; lia|]. split; [right; reflexivity|].
    intros p Hp Hs Hnum _. exfalso.
    rewrite isBlank_trim_eq in Hb. apply String.eqb_eq in Hb.
    rewrite Hb in Hs. simpl in Hp.
    destruct Hp as [<-|[<-|[<-|[]]]]; discriminate Hs. }
  remember (toUpperCase (trim input)) as u eqn:Hu. clear Hu Hb.
  destruct (inList u ["BR"; "D0"; "D1"; "NT"; "0T"]) eqn:Hsp.
  { assert (Hin := Hsp). apply inList_In in Hin. simpl in Hin.
    split; [destruct Hin as [<-|[<-|[<-|[<-|[<-|[]]]]]]; simpl; lia|].
    split; [left; exact Hsp|].
    intros p Hp Hs _ _. exfalso. simpl in Hp.
    destruct Hin as [<-|[<-|[<-|[<-|[<-|[]]]]]];
      destruct Hp as [<-|[<-|[<-|[]]]]; discriminate Hs. }
  cbv zeta. clear Hsp.
  set (kp := if startsWith "CK" u then "CK"
             else if startsWith "SK" u then "SK" else "K").
  assert (Hkp : In kp ["K"; "SK"; "CK"])
    by (subst kp; destruct (startsWith "CK" u), (startsWith "SK" u);
        simpl; auto).
  split; [|split].
  - destruct (startsWith "K" u || startsWith "SK" u || startsWith "CK" u);
      [destruct (0 <? _)%nat|];
      [apply Hk; exact Hkp | apply Hreg | apply Hreg].
  - right.
    destruct (startsWith "K" u || startsWith "SK" u || startsWith "CK" u);
      [destruct (0 <? _)%nat|];
      [apply Hk; exact Hkp | apply Hreg | apply Hreg].
  - intros p Hp Hs Hnum Hrs.
    assert (Hpre : startsWith "K" u || startsWith "SK" u
                   || startsWith "CK" u = true /\ kp = p).
    { subst kp. pose proof (prefix_split _ _ Hs) as Eu.
      revert Eu. generalize (substringFrom (String.length p) u).
      intros r ->. unfold startsWith. simpl in Hp.
      destruct Hp as [<-|[<-|[<-|[]]]]; simpl; rewrite ?prefix_nil;
        split; reflexivity. }
    destruct Hpre as [-> Hkpp]. rewrite Hkpp.
    set (numbers := filterChars isDigit (substringFrom (String.length p) u))
      in *.
    assert (Hlen : (0 <? String.length numbers)%nat = true)
      by (destruct numbers; [contradiction|reflexivity]).
    rewrite Hlen. split; [reflexivity|].
    assert (Hd : forallChars isDigit (takeChars 3 numbers) = true)
      by (apply takeChars_forall, filterChars_forall).
    assert (Hne : takeChars 3 numbers <> "")
      by (apply takeChars_nonempty; exact Hnum).
    pose proof (takeChars_length 3 numbers) as H3.
    destruct (validateAndProcessTaxCode_kcode_aux UK_TAX_REGIONS
                toLocaleString p (takeChars 3 numbers) Hrs Hp Hd Hne)
      as (Hv & r & Hr & Hvalid & HisK & _).
    split.
    + rewrite Hv. apply Nat.leb_le. lia.
    + exists r. split; [exact Hr|]. split; [|exact HisK].
      rewrite Hvalid. apply Nat.leb_le. exact H3.
Qed.

Lemma handleTaxCodeChange_output_witness :
  handleTaxCodeChange " sk12a345x " = "SK123"
  /\ isValid (validateTaxCode (handleTaxCodeChange " sk12a345x ")) = true
  /\ exists r,
       validateAndProcessTaxCode exampleRegions exampleToLocaleString
         (handleTaxCodeChange " sk12a345x ") = Some r
       /\ Processing.valid r = true
       /\ Processing.isKCode r = true.
Proof.
  apply (proj2 (proj2 (handleTaxCodeChange_output exampleRegions
                         exampleToLocaleString " sk12a345x ")) "SK").
  - simpl. auto.
  - reflexivity.
  - discriminate.
  - discriminate.
Defined.

(** ** The allowance of the previous-employment calculator *)

Lemma round_half_up_opp (x : Q) :
  round_half_up (- x) = (- round_half_up x)%Z.
Proof.
  unfold round_half_up.
  destruct (Qle_bool 0 x) eqn:E1; destruct (Qle_bool 0 (- x)) eqn:E2.
  - apply Qle_bool_iff in E1, E2.
    assert (E : x == 0) by lra.
    rewrite (Qfloor_comp (- x + (1 # 2)) (1 # 2)) by lra.
    rewrite (Qfloor_comp (x + (1 # 2)) (1 # 2)) by lra.
    reflexivity.
  - rewrite (Qfloor_comp (- - x + (1 # 2)) (x + (1 # 2))) by ring.
    reflexivity.
  - lia.
  - exfalso.
    assert (H1 : ~ 0 <= x) by (intro H; apply Qle_bool_iff in H; congruence).
    assert (H2 : ~ 0 <= - x) by (intro H; apply Qle_bool_iff in H; congruence).
    destruct (Qlt_le_dec x 0) as [L|L]; [apply H2; lra|contradiction].
Qed.

Lemma toDecimalPlaces2_opp (x : Q) :
  toDecimalPlaces2 (- x) == - toDecimalPlaces2 x.
Proof.
  rewrite !toDecimalPlaces2_value.
  rewrite (round_half_up_comp (- x * 100) (- (x * 100))) by ring.
  rewrite round_half_up_opp, inject_Z_opp. ring.
Qed.

Lemma allowance_negated (a t n : Q) :
  ~ t == 0 ->
  toDecimalPlaces2 (toDecimalPlaces2 (- a / t) * n)
  == - toDecimalPlaces2 (toDecimalPlaces2 (a / t) * n).
Proof.
  intro Ht.
  rewrite (toDecimalPlaces2_comp (- a / t) (- (a / t))) by (field; exact Ht).
  rewrite <- toDecimalPlaces2_opp.
  rewrite (toDecimalPlaces2_comp
             (toDecimalPlaces2 (- (a / t)) * n)
             (- (toDecimalPlaces2 (a / t) * n))); [reflexivity|].
  rewrite toDecimalPlaces2_opp. ring.
Qed.

Lemma kcode_descriptor (p ds : string) :
  In p ["K"; "SK"; "CK"] ->
  forallChars isDigit ds = true -> ds <> "" ->
  specialCodeType (parseTaxCode (p ++ ds)) = None
  /\ isNegativeAllowance (parseTaxCode (p ++ ds)) = true
  /\ baseAllowance (parseTaxCode (p ++ ds))
     = ofZ (if String.eqb p "CK" then parseInt ds * 10
            else - (parseInt ds * 10)).
Proof.
  intros Hp Hd Hne.
  assert (Hsp : forall q,
            forallChars notLower q = true -> forallChars notWhite q = true ->
            q <> "" -> forallChars kCodeChar q = true ->
            specialCodeType (parseTaxCode (q ++ ds)) = None).
  { intros q Hl Hw Hq Hk. rewrite (kcode_normal_form q ds Hl Hw Hq Hd).
    apply kCodeChars_not_special.
    rewrite forallChars_app, Hk, (digits_kCodeChars ds Hd). reflexivity. }
  simpl in Hp. destruct Hp as [<-|[<-|[<-|[]]]].
  - split; [apply Hsp; try reflexivity; discriminate|].
    destruct (parseTaxCode_K_digits ds Hd Hne) as [-> ->]. split; reflexivity.
  - split; [apply Hsp; try reflexivity; discriminate|].
    destruct (parseTaxCode_SK_digits ds Hd Hne) as [-> ->]. split; reflexivity.
  - split; [apply Hsp; try reflexivity; discriminate|].
    destruct (parseTaxCode_CK_digits ds Hd Hne) as [-> ->]. split; reflexivity.
Qed.

Lemma periods_nonzero (periodType : PeriodType) :
  exists t : Q,
    totalPeriodsOf periodType = Fin t /\ 0 < t
    /\ t = match periodType with month_period => 12 | week_period => 52 end.
Proof. destruct periodType; eexists; repeat split. Qed.

(** X29: [calculateAllowance] on K codes, for one to four digits ds with
    number v (the digits the validator allows) and a whole period number n
    from 0 to 53.  For the prefixes K and SK the function negates an
    allowance that is already negative: it returns the amount a that a
    positive annual allowance of 10 v gives up to period n, which is not
    negative (and at most 450000), so that the caller's
    [Math.max(0, allowanceUsed)] deducts it as tax-free pay.  For the prefix
    CK, whose base allowance [parseTaxCode] leaves positive, it returns -a. *)
Theorem calculateAllowance_kcode_sign
    (ds : string) (periodType : PeriodType) (n : Z) :
  forallChars isDigit ds = true -> ds <> "" ->
  (String.length ds <= 4)%nat -> (0 <= n <= 53)%Z ->
  let a :=
    allowanceUpTo (inject_Z (parseInt ds * 10)) periodType (inject_Z n) in
  0 <= a /\ a <= 450000
  /\ exists k c : Q,
       calculateAllowance ("K" ++ ds) periodType (ofZ n) = Fin k
       /\ calculateAllowance ("SK" ++ ds) periodType (ofZ n) = Fin k
       /\ calculateAllowance ("CK" ++ ds) periodType (ofZ n) = Fin c
       /\ k == a /\ c == - a.
Proof.
  intros Hd Hne Hlen Hnz a.
  destruct (periods_nonzero periodType) as (t & Ht & Htpos & Htval).
  assert (Hn : 0 <= inject_Z n <= 53).
  { change 0 with (inject_Z 0). change 53 with (inject_Z 53).
    rewrite <- !Zle_Qle. exact Hnz. }
  assert (Hv : (0 <= parseInt ds < 10 ^ 4)%Z).
  { split; [apply parseDigits_nonneg; [lia|exact Hd]|].
    pose proof (parseDigits_bound ds 0 ltac:(lia) Hd) as Hb.
    assert (Hp : (10 ^ Z.of_nat (String.length ds) <= 10 ^ 4)%Z)
      by (apply Z.pow_le_mono_r; lia).
    unfold parseInt. lia. }
  assert (Hv' : 0 <= inject_Z (parseInt ds * 10) <= 99990).
  { change 0 with (inject_Z 0). change 99990 with (inject_Z 99990).
    rewrite <- !Zle_Qle. lia. }
  assert (Ha : a = toDecimalPlaces2
                     (toDecimalPlaces2 (inject_Z (parseInt ds * 10) / t)
                      * inject_Z n))
    by (subst a t; reflexivity).
  assert (Hq0 : 0 <= inject_Z (parseInt ds * 10) / t)
    by (apply Qle_shift_div_l; [exact Htpos|lra]).
  assert (Hq1 : inject_Z (parseInt ds * 10) / t <= 8333).
  { apply Qle_shift_div_r; [exact Htpos|].
    assert (12 <= t) by (rewrite Htval; destruct periodType; lra).
    lra. }
  pose proof (toDecimalPlaces2_nonneg _ Hq0) as Hr0.
  pose proof (toDecimalPlaces2_bounds
                (inject_Z (parseInt ds * 10) / t)) as Hr1.
  assert (Hprod : 0 <= toDecimalPlaces2 (inject_Z (parseInt ds * 10) / t)
                       * inject_Z n <= 8334 * 53).
  { split; [apply Qmult_le_0_compat; lra|].
    apply Qmult_le_compat_nonneg; split; lra. }
  assert (Ha0 : 0 <= a)
    by (rewrite Ha; apply toDecimalPlaces2_nonneg; apply Hprod).
  assert (Ha1 : a <= 450000).
  { rewrite Ha.
    pose proof (toDecimalPlaces2_bounds
                  (toDecimalPlaces2 (inject_Z (parseInt ds * 10) / t)
                   * inject_Z n)) as Hb.
    lra. }
  split; [exact Ha0|]. split; [exact Ha1|].
  assert (Hcalc : forall p,
            In p ["K"; "SK"; "CK"] ->
            calculateAllowance (p ++ ds) periodType (ofZ n)
            = Fin (Qred
                     (- toDecimalPlaces2
                          (toDecimalPlaces2
                             (inject_Z (if String.eqb p "CK"
                                        then parseInt ds * 10
                                        else - (parseInt ds * 10)) / t)
                           * inject_Z n)))).
  { intros p Hp. unfold calculateAllowance.
    destruct (kcode_descriptor p ds Hp Hd Hne) as (-> & -> & ->).
    rewrite Ht. unfold ofZ.
    rewrite preciseDivide_Fin by lra.
    rewrite preciseMultiply_Fin. reflexivity. }
  do 2 eexists.
  split; [apply (Hcalc "K"); simpl; auto|].
  split; [apply (Hcalc "SK"); simpl; auto|].
  split; [apply (Hcalc "CK"); simpl; auto|].
  cbn [String.eqb Ascii.eqb Bool.eqb andb].
  rewrite !Qred_correct, Ha. split; [|reflexivity].
  rewrite (toDecimalPlaces2_comp
             (toDecimalPlaces2 (inject_Z (- (parseInt ds * 10)) / t)
              * inject_Z n)
             (toDecimalPlaces2 (- inject_Z (parseInt ds * 10) / t)
              * inject_Z n)).
  - rewrite allowance_negated by lra. ring.
  - rewrite inject_Z_opp. reflexivity.
Qed.

Lemma calculateAllowance_kcode_sign_witness :
  let a :=
    allowanceUpTo (inject_Z (parseInt "100" * 10)) month_period (inject_Z 6) in
  0 <= a /\ a <= 450000
  /\ exists k c : Q,
       calculateAllowance ("K" ++ "100") month_period (ofZ 6) = Fin k
       /\ calculateAllowance ("SK" ++ "100") month_period (ofZ 6) = Fin k
       /\ calculateAllowance ("CK" ++ "100") month_period (ofZ 6) = Fin c
       /\ k == a /\ c == - a.
Proof.
  apply (calculateAllowance_kcode_sign "100" month_period 6).
  - reflexivity.
  - discriminate.
  - simpl. lia.
  - lia.
Defined.

(** ** The weekly breakdown *)

Lemma sequenceOptions_None {A : Type} (l : list (option A)) :
  sequenceOptions l = None <-> In None l.
Proof.
  induction l as [|[a|] r IH]; simpl.
  - split; [discriminate|contradiction].
  - destruct (sequenceOptions r).
    + split; [discriminate|]. intros [H|H]; [discriminate|].
      apply IH in H. discriminate.
    + split; [intros _; right; apply IH; reflexivity|reflexivity].
  - split; [intros _; left; reflexivity|reflexivity].
Qed.

Lemma sequenceOptions_Some {A : Type} (l : list (option A)) (ys : list A) :
  sequenceOptions l = Some ys -> l = map Some ys.
Proof.
  revert ys. induction l as [|[a|] r IH]; intros ys H; simpl in H.
  - injection H as <-. reflexivity.
  - destruct (sequenceOptions r) as [r'|]; [|discriminate].
    injection H as <-. simpl. f_equal. apply IH. reflexivity.
  - discriminate.
Qed.

Lemma monthIndexOfWeek_range (i : nat) :
  (i < 52)%nat -> (0 <= monthIndexOfWeek i <= 11)%Z.
Proof.
  intro H.
  assert (Hall : forallb (fun i => (0 <=? monthIndexOfWeek i)%Z
                                   && (monthIndexOfWeek i <=? 11)%Z)
                   (seq 0 52) = true) by (vm_compute; reflexivity).
  rewrite forallb_forall in Hall.
  specialize (Hall i). rewrite in_seq in Hall.
  assert (Hi : (0 <= i < 0 + 52)%nat) by lia.
  apply Hall in Hi. apply andb_prop in Hi. destruct Hi as [H1 H2].
  apply Z.leb_le in H1, H2. lia.
Qed.

Lemma applyCurrentPeriod_length
    (cp : option CurrentPeriod) (l : list MonthlyDetail) :
  List.length (applyCurrentPeriod cp l) = List.length l.
Proof.
  destruct cp as [cp|]; [|reflexivity]. unfold applyCurrentPeriod.
  destruct ((0 <=? periodIndex cp)%Z
            && (periodIndex cp <? Z.of_nat (List.length l))%Z);
    [|reflexivity].
  destruct (nth_error _ _); [|reflexivity].
  rewrite length_app, length_map, <- length_app, firstn_skipn. reflexivity.
Qed.

(** X30: the weekly breakdown.  It fails (a TypeError on an undefined month)
    exactly when fewer than 12 months are given, so never on the breakdown
    of [calculateTaxDetails]; otherwise it has 52 weeks, week i+1 at index
    i, each taken from the month at index [Math.floor(i / (52/12))], which
    lies in 0..11, with the month's pay divided by 52/12. *)
Theorem weeklyBreakdown_defined (months : list MonthlyDetail) :
  (weeklyBreakdown months = None
   <-> (List.length months < 12)%nat)
  /\ (forall annualSalary taxCode isCumulative taxYearData cp,
        weeklyBreakdown
          (monthlyBreakdown
             (calculateTaxDetails annualSalary taxCode isCumulative
                taxYearData cp)) <> None)
  /\ (forall weeks,
        weeklyBreakdown months = Some weeks ->
        List.length weeks = 52%nat
        /\ forall i w,
             nth_error weeks i = Some w ->
             weekNumber w = (Z.of_nat i + 1)%Z
             /\ (0 <= monthIndexOfWeek i <= 11)%Z
             /\ exists m,
                  nth_error months (Z.to_nat (monthIndexOfWeek i))
                  = Some m
                  /\ monthName w = month m
                  /\ weekGross w = JS.div (gross m) weeksPerMonth
                  /\ weekNetPay w = JS.div (netPay m) weeksPerMonth).
Proof.
  assert (Hnone : forall l,
            weeklyBreakdown l = None <-> (List.length l < 12)%nat).
  { intro l. unfold weeklyBreakdown.
    rewrite sequenceOptions_None, in_map_iff. split.
    - intros (i & Hi & Hin). apply in_seq in Hin.
      unfold weekDetail in Hi.
      destruct (nth_error l _) eqn:E; [discriminate|].
      apply nth_error_None in E.
      pose proof (monthIndexOfWeek_range i) as Hr. lia.
    - intro Hlen. exists 51%nat. split; [|apply in_seq; lia].
      unfold weekDetail.
      assert (E : nth_error l (Z.to_nat (monthIndexOfWeek 51)) = None).
      { apply nth_error_None.
        change (Z.to_nat (monthIndexOfWeek 51)) with 11%nat. lia. }
      rewrite E. reflexivity. }
  split; [apply Hnone|]. split.
  { intros annualSalary taxCode isCumulative taxYearData cp H.
    apply Hnone in H.
    rewrite monthlyBreakdown_override, applyCurrentPeriod_length,
      monthlyBreakdown_length in H. lia. }
  unfold weeklyBreakdown.
  intros weeks H. apply sequenceOptions_Some in H.
  assert (Hlen : List.length weeks = 52%nat).
  { apply (f_equal (@List.length _)) in H.
    rewrite !length_map, length_seq in H. symmetry. exact H. }
  split; [exact Hlen|]. intros i w Hw.
  assert (Hi : (i < 52)%nat).
  { rewrite <- Hlen. apply nth_error_Some. rewrite Hw. discriminate. }
  assert (Hnth : nth_error (map (weekDetail months) (seq 0 52)) i
                 = Some (Some w)).
  { rewrite H, nth_error_map, Hw. reflexivity. }
  rewrite nth_error_map in Hnth.
  assert (Hseq : nth_error (seq 0 52) i = Some i).
  { rewrite (nth_error_nth' _ 0%nat) by (rewrite length_seq; exact Hi).
    rewrite seq_nth by exact Hi. reflexivity. }
  rewrite Hseq in Hnth. cbn [option_map] in Hnth.
  injection Hnth as Hd. unfold weekDetail in Hd.
  destruct (nth_error months (Z.to_nat (monthIndexOfWeek i)))
    as [m|] eqn:Em; [|discriminate].
  injection Hd as <-. cbn.
  split; [reflexivity|]. split; [apply monthIndexOfWeek_range; exact Hi|].
  exists m. repeat split.
Qed.
